(** * Flight aggregator: a shallow embedding of [multiAPI.js] and of the
    flights service that wraps it.

    The JavaScript sources are embedded as total Rocq functions.

    - A number is held as a rational ([Q]); [NaN] is the [None] of an
      [option Q], and the infinities are outside this model.  The
      reliability score is computed in binary64 ([float]), with the
      additions and their rounding as the source performs them, and is
      kept as the exact value of the resulting double.
    - Strings are sequences of 8-bit characters.  Case mapping, trimming
      and the character classes of the regular expressions act on ASCII,
      which is exact for ASCII text.  [getCityCode], whose claim is about
      every string, is embedded a second time in [Wide], on sequences of
      UTF-16 code units and for any case mapping that maps ASCII text as
      the language does.
    - A promise is identified with its outcome: [Ok v] is a fulfilled
      promise (or a normal return), [Throw e] a rejected one (or a raised
      exception).  What is thrown is an error object.
    - Whatever the program obtains from outside is read from an explicit
      [World] record: the answers of the providers, the clock, the values
      of [Math.random] (each in the interval from 0 to 1, 1 excluded) and
      the order in which the concurrent provider tasks settle.
    - The answers of Amadeus and Aviationstack follow the schema of these
      services, with every member optional; the answer of TravelLink is
      an arbitrary value. *)

From Stdlib Require Import String Ascii List ZArith QArith Qminmax Qround Bool Lia.
From Stdlib Require Import Permutation Sorted DecimalString Lqa Qabs Floats.
Import ListNotations.
Open Scope string_scope.
Set Warnings "-register-all".
Set Warnings "-inexact-float".

(* ================================================================== *)
(** * The JavaScript values and built-ins that the sources rely on     *)
(* ================================================================== *)

Module Js.

(** Dynamically typed data.  [JBuiltin k] stands for the member [k] that
    every object literal inherits from [Object.prototype] (a function, or
    the prototype object itself for [__proto__]): it is truthy and it is
    not a string. *)
Inductive JsVal : Type :=
| JUndefined
| JNull
| JBool (b : bool)
| JNum (q : Q)
| JStr (s : string)
| JArr (items : list JsVal)
| JObj (fields : list (string * JsVal))
| JBuiltin (name : string).

(** ToBoolean. *)
Definition truthy (v : JsVal) : bool :=
  match v with
  | JUndefined | JNull => false
  | JBool b => b
  | JNum q => negb (Qeq_bool q 0)
  | JStr s => negb (s =? "")
  | JArr _ | JObj _ | JBuiltin _ => true
  end.

(** [a || b] and [a && b] on values. *)
Definition or_else (a b : JsVal) : JsVal := if truthy a then a else b.
Definition and_then (a b : JsVal) : JsVal := if truthy a then b else a.

Notation "a ||| b" := (or_else a b) (at level 50, left associativity).

Definition is_nullish (v : JsVal) : bool :=
  match v with JUndefined | JNull => true | _ => false end.

Definition isArray (v : JsVal) : bool :=
  match v with JArr _ => true | _ => false end.

(** [typeof v === 'object'] *)
Definition typeof_object (v : JsVal) : bool :=
  match v with
  | JNull | JArr _ | JObj _ => true
  | JBuiltin k => k =? "__proto__"
  | _ => false
  end.

(** ** Errors and outcomes *)

Record JsError : Type := mkError {
  message : string;
  status : option Z;      (* error.response?.status *)
  code : string;          (* error.code *)
  detail : option string  (* error.response?.data?.errors?.[0]?.detail *)
}.

(** [new Error(msg)] *)
Definition Error (msg : string) : JsError := mkError msg None "" None.

Inductive Exc (A : Type) : Type :=
| Ok (a : A)
| Throw (e : JsError).
Arguments Ok {A} a.
Arguments Throw {A} e.

Definition bind {A B} (c : Exc A) (k : A -> Exc B) : Exc B :=
  match c with
  | Ok a => k a
  | Throw e => Throw e
  end.

(** [try { c } catch (e) { h e }] *)
Definition try_catch {A} (c : Exc A) (h : JsError -> Exc A) : Exc A :=
  match c with
  | Ok a => Ok a
  | Throw e => h e
  end.

Notation "x <- c ;; k" := (bind c (fun x => k))
  (at level 61, c at next level, right associativity).

(** A [return] that leaves the enclosing function from inside a nested
    block, as opposed to the value the block passes on. *)
Inductive Flow (R A : Type) : Type :=
| Next (a : A)
| Return (r : R).
Arguments Next {R A} a.
Arguments Return {R A} r.

(** ** Characters and strings *)

Definition char_in (lo hi : nat) (c : ascii) : bool :=
  let n := nat_of_ascii c in (lo <=? n)%nat && (n <=? hi)%nat.

Definition is_upper : ascii -> bool := char_in 65 90.
Definition is_lower : ascii -> bool := char_in 97 122.
Definition is_digit : ascii -> bool := char_in 48 57.
Definition is_letter (c : ascii) : bool := is_upper c || is_lower c.

(** [\w] *)
Definition is_word (c : ascii) : bool :=
  is_letter c || is_digit c || (nat_of_ascii c =? 95)%nat.

(** White space removed by [trim]: space, tab, LF, VT, FF, CR. *)
Definition is_space (c : ascii) : bool :=
  (nat_of_ascii c =? 32)%nat || char_in 9 13 c.

Definition is_ascii_char (c : ascii) : bool := (nat_of_ascii c <? 128)%nat.

Definition upper_char (c : ascii) : ascii :=
  if is_lower c then ascii_of_nat (nat_of_ascii c - 32) else c.

Definition lower_char (c : ascii) : ascii :=
  if is_upper c then ascii_of_nat (nat_of_ascii c + 32) else c.

Fixpoint map_string (f : ascii -> ascii) (s : string) : string :=
  match s with
  | EmptyString => EmptyString
  | String c s' => String (f c) (map_string f s')
  end.

Fixpoint forall_string (p : ascii -> bool) (s : string) : bool :=
  match s with
  | EmptyString => true
  | String c s' => p c && forall_string p s'
  end.

Definition is_ascii : string -> bool := forall_string is_ascii_char.

(** [s.toUpperCase()] and [s.toLowerCase()] for a string of ASCII
    characters; the characters above 127 are left as they are, which is
    not what the language does with them. *)
Definition toUpperCase : string -> string := map_string upper_char.
Definition toLowerCase : string -> string := map_string lower_char.

Fixpoint trimStart (s : string) : string :=
  match s with
  | EmptyString => EmptyString
  | String c s' => if is_space c then trimStart s' else s
  end.

Fixpoint trimEnd (s : string) : string :=
  match s with
  | EmptyString => EmptyString
  | String c s' =>
      let t := trimEnd s' in
      if is_space c && (t =? "") then EmptyString else String c t
  end.

Definition trim (s : string) : string := trimEnd (trimStart s).

(** [s.includes(t)] *)
Fixpoint includes (t s : string) : bool :=
  prefix t s ||
  match s with
  | EmptyString => false
  | String _ s' => includes t s'
  end.

(** [s.split('T')[0]] *)
Fixpoint before_T (s : string) : string :=
  match s with
  | EmptyString => EmptyString
  | String c s' =>
      if (nat_of_ascii c =? 84)%nat then EmptyString else String c (before_T s')
  end.

(** ** Numbers and their conversions *)

Definition Qltb (a b : Q) : bool :=
  match Qcompare a b with Lt => true | _ => false end.

(** The exact value of a finite double.  No number stands for [NaN] and
    for the infinities. *)
Definition double_value (x : float) : Q :=
  match Prim2SF x with
  | S754_finite s m e =>
      let v := if (0 <=? e)%Z then inject_Z (Zpos m * 2 ^ e)
               else (Zpos m # Z.to_pos (2 ^ (- e)))%Q in
      if s then Qopp v else v
  | _ => 0%Q
  end.

(** [Math.min(a, b)] on doubles. *)
Definition math_min (a b : float) : float :=
  if PrimFloat.is_nan a || PrimFloat.is_nan b then PrimFloat.nan
  else if PrimFloat.ltb a b then a
  else if PrimFloat.ltb b a then b
  else if PrimFloat.is_zero a && PrimFloat.get_sign a then a
  else b.

Definition show_Z (z : Z) : string := NilZero.string_of_int (Z.to_int z).

Fixpoint fraction_digits (fuel : nat) (r d : Z) : string :=
  match fuel with
  | O => ""
  | S fuel' =>
      if (r =? 0)%Z then ""
      else show_Z ((10 * r) / d) ++ fraction_digits fuel' ((10 * r) mod d) d
  end.

(** Number to string: an integer is printed in decimal, another number
    by its decimal expansion (cut after 20 places). *)
Definition number_toString (q : Q) : string :=
  let n := Qnum q in
  let d := Zpos (Qden q) in
  if (n mod d =? 0)%Z then show_Z (n / d)
  else
    let a := Z.abs n in
    (if (n <? 0)%Z then "-" else "") ++ show_Z (a / d) ++ "." ++
    fraction_digits 20 (a mod d) d.

Definition digit_val (c : ascii) : Z := Z.of_nat (nat_of_ascii c - 48).

(** The longest prefix of decimal digits: its value, its length, the rest. *)
Fixpoint read_digits (acc : Z) (len : nat) (s : string) : Z * nat * string :=
  match s with
  | String c s' =>
      if is_digit c then read_digits (10 * acc + digit_val c) (S len) s'
      else (acc, len, s)
  | EmptyString => (acc, len, s)
  end.

Definition read_sign (s : string) : bool * string :=
  match s with
  | String c s' =>
      if (nat_of_ascii c =? 45)%nat then (true, s')
      else if (nat_of_ascii c =? 43)%nat then (false, s')
      else (false, s)
  | EmptyString => (false, s)
  end.

Definition pow10 (n : nat) : positive := Pos.pow 10 (Pos.of_nat n).

Definition scale10 (q : Q) (neg : bool) (e : Z) : Q :=
  if (e =? 0)%Z then q
  else if neg then (q / inject_Z (10 ^ e))%Q else (q * inject_Z (10 ^ e))%Q.

(** An exponent part [e+12], if the string starts with a complete one. *)
Definition read_exponent (s : string) : option (bool * Z) :=
  match s with
  | String c s' =>
      if (nat_of_ascii c =? 101)%nat || (nat_of_ascii c =? 69)%nat then
        let '(neg, s1) := read_sign s' in
        let '(v, len, _) := read_digits 0 0 s1 in
        match len with O => None | _ => Some (neg, v) end
      else None
  | EmptyString => None
  end.

(** [parseFloat] of a string: leading white space, a sign, digits with an
    optional fraction and exponent.  [None] is [NaN]. *)
Definition parseFloat_string (s : string) : option Q :=
  let '(neg, s1) := read_sign (trimStart s) in
  let '(ip, ilen, s2) := read_digits 0 0 s1 in
  let '(fp, flen, s3) :=
    match s2 with
    | String c s' =>
        if (nat_of_ascii c =? 46)%nat then read_digits 0 0 s' else (0%Z, O, s2)
    | EmptyString => (0%Z, O, s2)
    end in
  match ilen, flen with
  | O, O => None
  | _, _ =>
      let frac := match flen with O => 0%Q | _ => (fp # pow10 flen)%Q end in
      let m := (inject_Z ip + frac)%Q in
      let m := match read_exponent s3 with
               | Some (eneg, e) => scale10 m eneg e
               | None => m
               end in
      Some (if neg then (- m)%Q else m)
  end.

(** [parseInt] of a string in base ten. *)
Definition parseInt_string (s : string) : option Z :=
  let '(neg, s1) := read_sign (trimStart s) in
  let '(v, len, _) := read_digits 0 0 s1 in
  match len with
  | O => None
  | _ => Some (if neg then (- v)%Z else v)
  end.

Fixpoint join (sep : string) (l : list string) : string :=
  match l with
  | [] => ""
  | [x] => x
  | x :: rest => x ++ sep ++ join sep rest
  end.

(** ToString, as a template literal applies it. *)
Fixpoint toString (v : JsVal) : string :=
  match v with
  | JUndefined => "undefined"
  | JNull => "null"
  | JBool true => "true"
  | JBool false => "false"
  | JNum q => number_toString q
  | JStr s => s
  | JArr items =>
      join "," (map (fun x => if is_nullish x then "" else toString x) items)
  | JObj _ => "[object Object]"
  | JBuiltin k =>
      if k =? "__proto__" then "[object Object]"
      else "function " ++ k ++ "() { [native code] }"
  end.

Definition parseFloat (v : JsVal) : option Q :=
  match v with
  | JNum q => Some q
  | _ => parseFloat_string (toString v)
  end.

Definition parseInt (v : JsVal) : option Z :=
  match v with
  | JNum q => Some (Z.quot (Qnum q) (Zpos (Qden q)))
  | _ => parseInt_string (toString v)
  end.

(** [x || 0] for a number [x] that may be [NaN]. *)
Definition num_or0 (x : option Q) : Q :=
  match x with
  | Some q => if Qeq_bool q 0 then 0%Q else q
  | None => 0%Q
  end.

Definition int_or0 (x : option Z) : Z :=
  match x with Some z => z | None => 0%Z end.

(** [Math.floor] *)
Definition floor (q : Q) : Z := Qfloor q.

Definition pad2 (z : Z) : string :=
  if (z <? 10)%Z then "0" ++ show_Z z else show_Z z.

(** [x.toFixed(2)] for [x >= 0]: the nearest number of hundredths, the
    larger one on a tie. *)
Definition toFixed2 (x : Q) : string :=
  let n := Qfloor (x * 100 + 0.5)%Q in
  show_Z (n / 100) ++ "." ++ pad2 (n mod 100).

(** ** Objects *)

Fixpoint assoc {V : Type} (k : string) (l : list (string * V)) : option V :=
  match l with
  | [] => None
  | (k', v) :: rest => if k =? k' then Some v else assoc k rest
  end.

(** Property read [v.k] for a key that no prototype defines. *)
Definition get (v : JsVal) (k : string) : JsVal :=
  match v with
  | JObj fields => match assoc k fields with Some x => x | None => JUndefined end
  | _ => JUndefined
  end.

(** [Object.keys(v).length] *)
Definition keys_length (v : JsVal) : nat :=
  match v with
  | JObj fields => length fields
  | JArr items => length items
  | JStr s => String.length s
  | _ => O
  end.

Definition object_prototype_keys : list string :=
  [ "constructor"; "__proto__"; "hasOwnProperty"; "isPrototypeOf";
    "propertyIsEnumerable"; "toLocaleString"; "toString"; "valueOf";
    "__defineGetter__"; "__defineSetter__"; "__lookupGetter__";
    "__lookupSetter__" ].

Definition inherited (k : string) : bool :=
  existsb (String.eqb k) object_prototype_keys.

(** [table[k]] for an object literal [table] with string values: an own
    entry, else what [Object.prototype] supplies, else [undefined]. *)
Definition literal_get (table : list (string * string)) (k : string) : JsVal :=
  match assoc k table with
  | Some v => JStr v
  | None => if inherited k then JBuiltin k else JUndefined
  end.

(** [/^[A-Z]{3}$/.test(s)] *)
Definition is_iata (s : string) : bool :=
  match s with
  | String a (String b (String c EmptyString)) =>
      is_upper a && is_upper b && is_upper c
  | _ => false
  end.

(** Does [/([A-Z]{3})\b/i] match at the head of [s]? *)
Definition token_here (s : string) : bool :=
  match s with
  | String a (String b (String c rest)) =>
      is_letter a && is_letter b && is_letter c &&
      match rest with
      | EmptyString => true
      | String d _ => negb (is_word d)
      end
  | _ => false
  end.

(** [s.match(/\b([A-Z]{3})\b/i)]: the leftmost match, as group 1.
    [prev_word] tells whether the character before [s] is a word
    character. *)
Fixpoint match_token (prev_word : bool) (s : string) : option string :=
  match s with
  | EmptyString => None
  | String a rest =>
      if negb prev_word && token_here s then Some (substring 0 3 s)
      else match_token (is_word a) rest
  end.

(** [a === b].  On primitive values this is the comparison of the
    language.  Objects and arrays have no identity here and are compared
    by structure: two of them that differ are not identical, and one is
    identical to itself, but two equal ones need not be the same object.
    A statement that rests on a positive answer for two different places
    asks for primitive values ([is_primitive]). *)
Fixpoint strict_eq (a b : JsVal) : bool :=
  match a, b with
  | JUndefined, JUndefined => true
  | JNull, JNull => true
  | JBool x, JBool y => Bool.eqb x y
  | JNum x, JNum y => Qeq_bool x y
  | JStr x, JStr y => x =? y
  | JBuiltin x, JBuiltin y => x =? y
  | JArr xs, JArr ys =>
      (fix items (l1 l2 : list JsVal) : bool :=
         match l1, l2 with
         | [], [] => true
         | u :: l1', v :: l2' => strict_eq u v && items l1' l2'
         | _, _ => false
         end) xs ys
  | JObj xs, JObj ys =>
      (fix fields (l1 l2 : list (string * JsVal)) : bool :=
         match l1, l2 with
         | [], [] => true
         | (k1, u) :: l1', (k2, v) :: l2' =>
             (k1 =? k2) && strict_eq u v && fields l1' l2'
         | _, _ => false
         end) xs ys
  | _, _ => false
  end.

(** Undefined, null, a boolean, a number or a string. *)
Definition is_primitive (v : JsVal) : bool :=
  match v with
  | JArr _ | JObj _ | JBuiltin _ => false
  | _ => true
  end.

Definition of_option (o : option string) : JsVal :=
  match o with Some s => JStr s | None => JUndefined end.

(** ** Arrays *)

(** [l.findIndex(p)], [None] for [-1]. *)
Fixpoint findIndex {A : Type} (p : A -> bool) (l : list A) : option nat :=
  match l with
  | [] => None
  | x :: rest =>
      if p x then Some O
      else match findIndex p rest with Some i => Some (S i) | None => None end
  end.

(** [l[i] = v] for an index inside the array. *)
Fixpoint set_nth {A : Type} (i : nat) (v : A) (l : list A) {struct l} : list A :=
  match l, i with
  | [], _ => []
  | _ :: rest, O => v :: rest
  | x :: rest, S i' => x :: set_nth i' v rest
  end.

(** [l.map((x, index) => f x index)] *)
Fixpoint mapi_from {A B : Type} (i : nat) (f : A -> nat -> B) (l : list A) : list B :=
  match l with
  | [] => []
  | x :: rest => f x i :: mapi_from (S i) f rest
  end.

Definition mapi {A B : Type} (f : A -> nat -> B) (l : list A) : list B :=
  mapi_from O f l.

(** [l.sort(cmp)]: the sort is stable; [x] stays in front of [y] when
    [cmp x y <= 0]. *)
Fixpoint sort_insert {A : Type} (cmp : A -> A -> Q) (x : A) (l : list A) : list A :=
  match l with
  | [] => [x]
  | y :: rest =>
      if Qle_bool (cmp x y) 0 then x :: l else y :: sort_insert cmp x rest
  end.

Definition sort {A : Type} (cmp : A -> A -> Q) (l : list A) : list A :=
  fold_right (sort_insert cmp) [] l.

(** ** Maps with string keys, as [new Map()] keeps them *)

Definition Map (V : Type) : Type := list (string * V).

Fixpoint map_set {V : Type} (k : string) (v : V) (m : Map V) : Map V :=
  match m with
  | [] => [(k, v)]
  | (k', v') :: rest =>
      if k =? k' then (k, v) :: rest else (k', v') :: map_set k v rest
  end.

Definition map_get {V : Type} (k : string) (m : Map V) : option V := assoc k m.

(** [v?.[i]] *)
Definition index (v : JsVal) (i : nat) : JsVal :=
  match v with
  | JArr items => nth i items JUndefined
  | _ => JUndefined
  end.

Definition opt_js (o : option JsVal) : JsVal :=
  match o with Some v => v | None => JUndefined end.

(** Does [/(\d+)H(\d+)?M/] match at the head of [s]?  The two groups. *)
Definition HM_here (s : string) : option (string * option string) :=
  let '(_, n1, r1) := read_digits 0 0 s in
  match n1, r1 with
  | S _, String h r2 =>
      if (nat_of_ascii h =? 72)%nat then
        let '(_, n2, r3) := read_digits 0 0 r2 in
        match r3 with
        | String m _ =>
            if (nat_of_ascii m =? 77)%nat then
              Some (substring 0 n1 s,
                    match n2 with O => None | _ => Some (substring 0 n2 r2) end)
            else None
        | EmptyString => None
        end
      else None
  | _, _ => None
  end.

(** [s.match(/(\d+)H(\d+)?M/)], the leftmost match. *)
Fixpoint match_HM (s : string) : option (string * option string) :=
  match HM_here s with
  | Some m => Some m
  | None =>
      match s with
      | EmptyString => None
      | String _ s' => match_HM s'
      end
  end.

Fixpoint last_error {A : Type} (l : list A) : option A :=
  match l with
  | [] => None
  | [x] => Some x
  | _ :: rest => last_error rest
  end.

(** ** Dates *)

(** What [new Date(x)] is: a time value in milliseconds, or Invalid Date. *)
Inductive JsDate : Type :=
| InvalidDate
| ValidDate (t : Z).

End Js.

Import Js.

(* ================================================================== *)
(** * What the providers send back                                     *)
(* ================================================================== *)

(** The Amadeus flight-offer schema.  Every member may be missing; the
    members the adapters only pass on are kept as plain values. *)
Module Amadeus.

Record Endpoint : Type := mkEndpoint {
  iataCode : JsVal;
  at_ : option string
}.

Record Segment : Type := mkSegment {
  departure : option Endpoint;
  arrival : option Endpoint;
  seg_duration : JsVal;
  carrierCode : JsVal;
  number : JsVal
}.

Record Itinerary : Type := mkItinerary {
  duration : option string;
  segments : option (list Segment)
}.

Record Price : Type := mkPrice {
  total : JsVal;
  base : JsVal;
  currency : JsVal;
  grandTotal : JsVal;
  fees : JsVal
}.

Record FlightOffer : Type := mkFlightOffer {
  id : JsVal;
  source : JsVal;
  price : option Price;
  itineraries : option (list Itinerary);
  lastTicketingDate : JsVal;
  numberOfBookableSeats : JsVal;
  instantTicketingRequired : JsVal;
  travelerPricings : JsVal
}.

(** The query of [GET /v2/shopping/flight-offers]. *)
Record Query : Type := mkQuery {
  originLocationCode : JsVal;
  destinationLocationCode : JsVal;
  departureDate : string;
  adults : Z;
  max : Z;
  returnDate : option string
}.

(** The body of the token response. *)
Record Token : Type := mkToken {
  access_token : string;
  expires_in : Z
}.

End Amadeus.

(** One record of the Aviationstack [flights] answer. *)
Module Aviationstack.

Record Airline : Type := mkAirline { name : JsVal; airline_iata : JsVal }.
Record Stop : Type := mkStop { iata : JsVal; scheduled : option string }.
Record FlightNo : Type := mkFlightNo { number : JsVal }.

Record Flight : Type := mkFlight {
  airline : option Airline;
  departure : option Stop;
  arrival : option Stop;
  flight : option FlightNo
}.

Record Query : Type := mkQuery {
  access_key : string;
  dep_iata : JsVal;
  arr_iata : JsVal;
  flight_date : string
}.

End Aviationstack.

(** The TravelLink SOAP client.  Its answer has no fixed shape. *)
Module TravelLink.

Record Query : Type := mkQuery {
  origem : JsVal;
  destino : JsVal;
  dataIda : string;
  adultos : Z;
  criancas : Z;
  bebes : Z;
  dataVolta : option string
}.

Record Client : Type := mkClient {
  DisponibilidadeAsync : option (Query -> Exc JsVal);
  Disponibilidade : option (Query -> Exc JsVal)
}.

End TravelLink.

(* ================================================================== *)
(** * Configuration and the outside world                              *)
(* ================================================================== *)

(** [process.env]; a variable that is not set reads as the empty string. *)
Record Env : Type := mkEnv {
  AMADEUS_API_KEY : string;
  AMADEUS_API_SECRET : string;
  AMADEUS_ENV : string;
  AVIATIONSTACK_API_KEY : string;
  USE_MOCK_FLIGHTS_var : string
}.

(** The order in which the three provider tasks settle. *)
Inductive Provider : Type := TRAVELLINK | AMADEUS | AVIATIONSTACK.

Inductive Interleaving : Type :=
| TL_AM_AV | TL_AV_AM | AM_TL_AV | AM_AV_TL | AV_TL_AM | AV_AM_TL.

Definition order_of (i : Interleaving) : list Provider :=
  match i with
  | TL_AM_AV => [TRAVELLINK; AMADEUS; AVIATIONSTACK]
  | TL_AV_AM => [TRAVELLINK; AVIATIONSTACK; AMADEUS]
  | AM_TL_AV => [AMADEUS; TRAVELLINK; AVIATIONSTACK]
  | AM_AV_TL => [AMADEUS; AVIATIONSTACK; TRAVELLINK]
  | AV_TL_AM => [AVIATIONSTACK; TRAVELLINK; AMADEUS]
  | AV_AM_TL => [AVIATIONSTACK; AMADEUS; TRAVELLINK]
  end.

Record World : Type := mkWorld {
  (* clock and randomness *)
  now : Z;                                   (* Date.now() *)
  nowISO : string;                           (* new Date().toISOString() *)
  toISOString : Z -> string;                 (* of a valid time value *)
  setHours : Z -> Z -> Z -> Z;               (* d.setHours(h, m), the new time value *)
  random : nat -> Q;                         (* the n-th Math.random() *)
  (* Amadeus *)
  tokenCache : option (string * Z);          (* multiAPI.js: token and expiry *)
  serviceTokenCache : option (string * Z);   (* the flights service's own cache *)
  postToken : string -> string -> string -> Exc Amadeus.Token;
                                             (* base URL, client id, secret *)
  getFlightOffers :                          (* base URL, bearer token, query *)
    string -> string -> Amadeus.Query -> Exc (option (list Amadeus.FlightOffer));
  postPricing :                              (* base URL, bearer token, offer *)
    string -> string -> Amadeus.FlightOffer ->
    Exc (option (list Amadeus.FlightOffer));
  (* TravelLink *)
  createClientAsync : Exc TravelLink.Client;
  (* Aviationstack *)
  getFlights : Aviationstack.Query -> Exc (option (list Aviationstack.Flight));
  (* scheduling *)
  completion : Interleaving
}.

(** A search request.  [dataIda] is what [new Date(dataIda)] gives;
    [dataVolta] is [None] when the argument is missing. *)
Record Request : Type := mkRequest {
  req_origem : string;
  req_destino : string;
  req_dataIda : JsDate;
  req_dataVolta : option JsDate
}.

(** [new Date(d).toISOString()] *)
Definition isoString (w : World) (d : JsDate) : Exc string :=
  match d with
  | ValidDate t => Ok (toISOString w t)
  | InvalidDate => Throw (Error "Invalid time value")
  end.

(** [new Date(d).toISOString().split('T')[0]] *)
Definition isoDay (w : World) (d : JsDate) : Exc string :=
  iso <- isoString w d ;; Ok (before_T iso).

(** [d ? new Date(d).toISOString().split('T')[0] : null] *)
Definition isoDay_opt (w : World) (d : option JsDate) : Exc (option string) :=
  match d with
  | Some d' => day <- isoDay w d' ;; Ok (Some day)
  | None => Ok None
  end.

(* ================================================================== *)
(** * The flight records                                               *)
(* ================================================================== *)

Module Flight.

(** One flown leg, as listed under [detalhes.ida] and [detalhes.volta]. *)
Record Leg : Type := mkLeg {
  leg_origem : JsVal;
  leg_destino : JsVal;
  leg_partida : JsVal;
  leg_chegada : JsVal;
  leg_duracao : JsVal;
  leg_companhia : JsVal;
  leg_numeroVoo : JsVal
}.

Record Detalhes : Type := mkDetalhes {
  ida : option (list Leg);
  volta : option (list Leg)
}.

(** The provider's own object, kept under [_originalOffer]. *)
Inductive Original : Type :=
| FromAmadeus (offer : Amadeus.FlightOffer)
| FromTravelLink (voo : JsVal).

(** The object literal an adapter builds for one flight.  The flights
    service returns such objects as they are. *)
Record RawFlight : Type := mkRawFlight {
  raw_id : JsVal;
  raw_preco : JsVal;
  raw_moeda : JsVal;
  raw_companhia : JsVal;
  raw_origem : JsVal;
  raw_destino : JsVal;
  raw_dataIda : string;
  raw_dataVolta : JsVal;
  raw_duracaoIda : JsVal;
  raw_duracaoVolta : JsVal;
  raw_escalasIda : JsVal;
  raw_escalasVolta : JsVal;
  raw_detalhes : option Detalhes;
  raw_linkReserva : JsVal;
  raw_originalOffer : option Original
}.

(** The normalized flight of [normalizeFlight]. *)
Record Offer : Type := mkOffer {
  id : JsVal;
  preco : Q;
  moeda : JsVal;
  companhia : JsVal;
  origem : JsVal;
  destino : JsVal;
  dataIda : string;
  dataVolta : JsVal;
  duracaoIda : JsVal;
  duracaoVolta : JsVal;
  escalasIda : JsVal;
  escalasVolta : JsVal;
  detalhes : Detalhes;
  linkReserva : JsVal;
  fonte : string;
  confiabilidade : Q;
  _originalOffer : option Original
}.

End Flight.

Import Flight.

(* ================================================================== *)
(** * The Amadeus offer mapping                                        *)
(* ================================================================== *)

(** [searchAmadeus] (multiAPI.js) and [formatAmadeusResults] (flights
    service) hold the same mapping from a provider offer to a flight
    literal.  The two copies differ in the carrier table, in the prefix
    of a made-up id, in [linkReserva] and in whether the provider's offer
    is kept; these are the parameters here. *)
Module AmadeusFormat.

Definition calculateDuration (itinerary : Amadeus.Itinerary) : JsVal :=
  match Amadeus.segments itinerary with
  | None | Some [] => JStr "0h 0m"
  | Some _ =>
      let totalMinutes :=
        match Amadeus.duration itinerary with
        | Some d => match_HM d
        | None => None
        end in
      match totalMinutes with
      | Some (g1, g2) =>
          let hours := int_or0 (parseInt_string g1) in
          let minutes :=
            int_or0 (match g2 with Some g => parseInt_string g | None => None end) in
          JStr (show_Z hours ++ "h " ++ show_Z minutes ++ "m")
      | None => of_option (Amadeus.duration itinerary) ||| JStr "N/A"
      end
  end.

Definition firstSegment (it : Amadeus.Itinerary) : option Amadeus.Segment :=
  match Amadeus.segments it with Some l => hd_error l | None => None end.

Definition lastSegment (it : Amadeus.Itinerary) : option Amadeus.Segment :=
  match Amadeus.segments it with Some l => last_error l | None => None end.

(** [seg?.departure?.iataCode] and its like *)
Definition departureCode (seg : option Amadeus.Segment) : JsVal :=
  match seg with
  | Some sg => match Amadeus.departure sg with
               | Some e => Amadeus.iataCode e
               | None => JUndefined
               end
  | None => JUndefined
  end.

Definition arrivalCode (seg : option Amadeus.Segment) : JsVal :=
  match seg with
  | Some sg => match Amadeus.arrival sg with
               | Some e => Amadeus.iataCode e
               | None => JUndefined
               end
  | None => JUndefined
  end.

Definition departureAt (seg : option Amadeus.Segment) : option string :=
  match seg with
  | Some sg => match Amadeus.departure sg with
               | Some e => Amadeus.at_ e
               | None => None
               end
  | None => None
  end.

Definition arrivalAt (seg : option Amadeus.Segment) : option string :=
  match seg with
  | Some sg => match Amadeus.arrival sg with
               | Some e => Amadeus.at_ e
               | None => None
               end
  | None => None
  end.

(** [(it.segments?.length || 1) - 1] *)
Definition stops (it : Amadeus.Itinerary) : JsVal :=
  match Amadeus.segments it with
  | None | Some [] => JNum 0
  | Some l => JNum (inject_Z (Z.of_nat (length l) - 1))
  end.

Section WithCarriers.

Variable companhiaMap : list (string * string).

(** [companhiaMap[c] || c] *)
Definition carrierName (c : JsVal) : JsVal :=
  literal_get companhiaMap (toString c) ||| c.

Definition leg (seg : Amadeus.Segment) : Leg :=
  {| leg_origem := departureCode (Some seg);
     leg_destino := arrivalCode (Some seg);
     leg_partida := of_option (departureAt (Some seg));
     leg_chegada := of_option (arrivalAt (Some seg));
     leg_duracao := Amadeus.seg_duration seg;
     leg_companhia := carrierName (Amadeus.carrierCode seg);
     leg_numeroVoo := Amadeus.number seg |}.

Definition formatOffer (idPrefix : string)
    (link : Amadeus.FlightOffer -> JsVal) (keep : bool)
    (offer : Amadeus.FlightOffer) (index : nat) : RawFlight :=
  let itineraries :=
    match Amadeus.itineraries offer with Some l => l | None => [] end in
  let ida :=
    match nth_error itineraries 0 with
    | Some it => it
    | None => Amadeus.mkItinerary None None
    end in
  let volta := nth_error itineraries 1 in
  let primeiraCompanhia :=
    opt_js (option_map Amadeus.carrierCode (firstSegment ida)) ||| JStr "N/A" in
  {| raw_id := Amadeus.id offer ||| JStr (idPrefix ++ show_Z (Z.of_nat index));
     raw_preco :=
       match Amadeus.price offer with
       | Some p => Amadeus.total p
       | None => JUndefined
       end ||| JStr "0";
     raw_moeda :=
       match Amadeus.price offer with
       | Some p => Amadeus.currency p
       | None => JUndefined
       end ||| JStr "BRL";
     raw_companhia := carrierName primeiraCompanhia;
     raw_origem := departureCode (firstSegment ida) ||| JStr "";
     raw_destino :=
       match volta with
       | Some v => arrivalCode (lastSegment v)
       | None => arrivalCode (lastSegment ida) ||| JStr ""
       end;
     raw_dataIda :=
       match departureAt (firstSegment ida) with Some t => t | None => "" end;
     raw_dataVolta :=
       match volta with
       | Some v => of_option (departureAt (firstSegment v))
       | None => JNull
       end;
     raw_duracaoIda := calculateDuration ida;
     raw_duracaoVolta :=
       match volta with Some v => calculateDuration v | None => JNull end;
     raw_escalasIda := stops ida;
     raw_escalasVolta :=
       match volta with Some v => stops v | None => JNull end;
     raw_detalhes :=
       Some {| ida :=
                 Some (match Amadeus.segments ida with
                       | Some l => map leg l
                       | None => []
                       end);
               volta :=
                 match volta with
                 | Some v => option_map (map leg) (Amadeus.segments v)
                 | None => None
                 end |};
     raw_linkReserva := link offer;
     raw_originalOffer := if keep then Some (FromAmadeus offer) else None |}.

End WithCarriers.

End AmadeusFormat.

(* ================================================================== *)
(** * multiAPI.js                                                      *)
(* ================================================================== *)

Module MultiAPI.

Record Config : Type := mkConfig {
  amadeus_enabled : bool;
  amadeus_key : string;
  amadeus_secret : string;
  amadeus_env : string;
  aviationstack_enabled : bool;
  aviationstack_key : string;
  travellink_enabled : bool
}.

Definition API_CONFIG (e : Env) : Config :=
  {| amadeus_enabled :=
       negb (AMADEUS_API_KEY e =? "") && negb (AMADEUS_API_SECRET e =? "");
     amadeus_key := AMADEUS_API_KEY e;
     amadeus_secret := AMADEUS_API_SECRET e;
     amadeus_env := if AMADEUS_ENV e =? "" then "test" else AMADEUS_ENV e;
     aviationstack_enabled := negb (AVIATIONSTACK_API_KEY e =? "");
     aviationstack_key := AVIATIONSTACK_API_KEY e;
     travellink_enabled := true |}.

Definition apiBaseUrl (cfg : Config) : string :=
  if amadeus_env cfg =? "production" then "https://api.amadeus.com"
  else "https://test.api.amadeus.com".

(** The cached token while it is fresh, else the outcome of asking for a
    new one.  A failure is logged and thrown again as it is. *)
Definition getAmadeusToken (cfg : Config) (w : World) : Exc string :=
  let fetch :=
    try_catch
      (response <- postToken w (apiBaseUrl cfg) (amadeus_key cfg) (amadeus_secret cfg) ;;
       Ok (Amadeus.access_token response))
      (fun error => Throw error) in
  match tokenCache w with
  | Some (token, expiry) =>
      if negb (token =? "") && negb (expiry =? 0)%Z && (now w <? expiry)%Z
      then Ok token
      else fetch
  | None => fetch
  end.

Definition cityMap : list (string * string) :=
  [ ("são paulo", "SAO"); ("sao paulo", "SAO");
    ("rio de janeiro", "RIO"); ("rio", "RIO");
    ("brasília", "BSB"); ("brasilia", "BSB");
    ("salvador", "SSA"); ("fortaleza", "FOR");
    ("belo horizonte", "CNF"); ("manaus", "MAO");
    ("curitiba", "CWB"); ("porto alegre", "POA");
    ("recife", "REC"); ("belém", "BEL"); ("belem", "BEL");
    ("goiânia", "GYN"); ("goiania", "GYN");
    ("vitória", "VIX"); ("vitoria", "VIX");
    ("florianópolis", "FLN"); ("florianopolis", "FLN");
    ("campinas", "VCP"); ("guarulhos", "GRU");
    ("congonhas", "CGH"); ("santos dumont", "SDU") ].

Definition getCityCode (city : string) : JsVal :=
  if is_iata (toUpperCase (trim city)) then JStr (toUpperCase (trim city))
  else
    let normalized := trim (toLowerCase city) in
    literal_get cityMap normalized ||| JStr (toUpperCase (substring 0 3 city)).

(** ** Normalization and scoring *)

(** The score is a double, and [+=] adds doubles: 0.5 + 0.2 + 0.1 is
    0.7999999999999999 here as it is there.  What is returned is the
    exact value of the double. *)
Definition calculateReliability (flight : RawFlight) (source : string) : Q :=
  let score := 0.5%float in
  let score :=
    if source =? "TRAVELLINK" then (score + 0.4)%float
    else if source =? "AMADEUS" then (score + 0.3)%float
    else if source =? "AVIATIONSTACK" then (score + 0.2)%float
    else score in
  let score :=
    if match raw_detalhes flight with
       | Some d => match ida d with
                   | Some legs => (0 <? length legs)%nat
                   | None => false
                   end
       | None => false
       end
    then (score + 0.1)%float else score in
  let score :=
    if truthy (raw_preco flight) &&
       match parseFloat (raw_preco flight) with
       | Some x => Qltb 0 x
       | None => false
       end
    then (score + 0.1)%float else score in
  double_value (math_min 1.0 score).

Definition normalizeFlight (w : World) (flight : RawFlight) (source : string) : Offer :=
  {| id := raw_id flight |||
           JStr (source ++ "-" ++ show_Z (now w) ++ "-" ++ number_toString (random w 0));
     preco := num_or0 (parseFloat (raw_preco flight));
     moeda := raw_moeda flight ||| JStr "BRL";
     companhia := raw_companhia flight ||| JStr "N/A";
     origem := raw_origem flight ||| JStr "";
     destino := raw_destino flight ||| JStr "";
     dataIda := if raw_dataIda flight =? "" then "" else raw_dataIda flight;
     dataVolta := raw_dataVolta flight ||| JNull;
     duracaoIda := raw_duracaoIda flight ||| JStr "N/A";
     duracaoVolta := raw_duracaoVolta flight ||| JNull;
     escalasIda := raw_escalasIda flight ||| JNum 0;
     escalasVolta := raw_escalasVolta flight ||| JNull;
     detalhes :=
       match raw_detalhes flight with
       | Some d => d
       | None => {| ida := None; volta := None |}
       end;
     linkReserva := raw_linkReserva flight ||| JStr source;
     fonte := source;
     confiabilidade := calculateReliability flight source;
     _originalOffer := raw_originalOffer flight |}.

(** ** Removing duplicates *)

(** [flight.detalhes?.ida?.length || 0] *)
Definition idaLength (flight : Offer) : nat :=
  match ida (detalhes flight) with
  | Some legs => length legs
  | None => O
  end.

Definition dedupKey (flight : Offer) : string :=
  toString (origem flight) ++ "-" ++ toString (destino flight) ++ "-" ++
  substring 0 10 (dataIda flight) ++ "-" ++ toString (companhia flight).

(** The test that decides whether [flight] takes the place of [existing]. *)
Definition replaces (flight existing : Offer) : bool :=
  Qltb (confiabilidade existing) (confiabilidade flight) ||
  (idaLength existing <? idaLength flight)%nat.

(** One turn of the loop over [flights]; the state is [seen] and [unique]. *)
Definition dedupStep (st : Map Offer * list Offer) (flight : Offer)
  : Map Offer * list Offer :=
  let '(seen, unique) := st in
  let key := dedupKey flight in
  match map_get key seen with
  | None => (map_set key flight seen, (unique ++ [flight])%list)
  | Some existing =>
      if replaces flight existing then
        (map_set key flight seen,
         match findIndex (fun f => strict_eq (id f) (id existing)) unique with
         | Some index => set_nth index flight unique
         | None => unique
         end)
      else (seen, unique)
  end.

Definition deduplicateFlights (flights : list Offer) : list Offer :=
  snd (fold_left dedupStep flights ([], [])).

(** The comparator handed to [sort]. *)
Definition compareFlights (a b : Offer) : Q :=
  if negb (Qeq_bool (confiabilidade b) (confiabilidade a))
  then (confiabilidade b - confiabilidade a)%Q
  else (preco a - preco b)%Q.

(** ** 1. Amadeus *)

Definition companhiaMap : list (string * string) :=
  [ ("LA", "LATAM"); ("G3", "GOL"); ("AD", "Azul"); ("JJ", "LATAM");
    ("TP", "TAP"); ("AF", "Air France"); ("KL", "KLM"); ("LH", "Lufthansa");
    ("EK", "Emirates"); ("QR", "Qatar Airways"); ("AA", "American Airlines");
    ("DL", "Delta"); ("UA", "United"); ("BA", "British Airways") ].

Definition searchAmadeus (cfg : Config) (w : World) (req : Request)
  : Exc (list Offer) :=
  if negb (amadeus_enabled cfg) then Ok []
  else
    try_catch
      (token <- getAmadeusToken cfg w ;;
       let origemCode := getCityCode (req_origem req) in
       let destinoCode := getCityCode (req_destino req) in
       dataIdaFormatted <- isoDay w (req_dataIda req) ;;
       dataVoltaFormatted <- isoDay_opt w (req_dataVolta req) ;;
       let params :=
         {| Amadeus.originLocationCode := origemCode;
            Amadeus.destinationLocationCode := destinoCode;
            Amadeus.departureDate := dataIdaFormatted;
            Amadeus.adults := 1;
            Amadeus.max := 15;
            Amadeus.returnDate := dataVoltaFormatted |} in
       data <- getFlightOffers w (apiBaseUrl cfg) token params ;;
       match data with
       | None | Some [] => Ok []
       | Some offers =>
           Ok (mapi (fun offer index =>
                       normalizeFlight w
                         (AmadeusFormat.formatOffer companhiaMap "amadeus-"
                            (fun _ => JStr "AMADEUS") true offer index)
                         "AMADEUS")
                    offers)
       end)
      (fun error => Ok []).

(** ** 2. TravelLink / Wooba *)

Definition formatarVooTravelLink (w : World) (voo origemCode destinoCode : JsVal)
    (index : nat) : Offer :=
  let companhia :=
    get voo "Companhia" ||| get voo "companhia" ||| get voo "Airline" |||
    get voo "airline" ||| JStr "N/A" in
  let preco :=
    get voo "Preco" ||| get voo "preco" ||| get voo "Price" ||| get voo "price" |||
    get voo "Valor" ||| get voo "valor" ||| JStr "0" in
  let moeda :=
    get voo "Moeda" ||| get voo "moeda" ||| get voo "Currency" |||
    get voo "currency" ||| JStr "BRL" in
  let dataPartida :=
    get voo "DataPartida" ||| get voo "dataPartida" ||| get voo "DepartureDate" |||
    get voo "departureDate" ||| JStr "" in
  let horaPartida :=
    get voo "HoraPartida" ||| get voo "horaPartida" ||| get voo "DepartureTime" |||
    get voo "departureTime" ||| JStr "" in
  let horaChegada :=
    get voo "HoraChegada" ||| get voo "horaChegada" ||| get voo "ArrivalTime" |||
    get voo "arrivalTime" ||| JStr "" in
  let duracao :=
    get voo "Duracao" ||| get voo "duracao" ||| get voo "Duration" |||
    get voo "duration" ||| JStr "N/A" in
  let escalas :=
    get voo "Escalas" ||| get voo "escalas" ||| get voo "Stops" |||
    get voo "stops" ||| JNum 0 in
  let numeroVoo :=
    get voo "NumeroVoo" ||| get voo "numeroVoo" ||| get voo "FlightNumber" |||
    get voo "flightNumber" ||| JStr "" in
  let nomeCompanhia := literal_get companhiaMap (toString companhia) ||| companhia in
  let origem := get voo "Origem" ||| get voo "origem" ||| origemCode in
  let destino := get voo "Destino" ||| get voo "destino" ||| destinoCode in
  normalizeFlight w
    {| raw_id :=
         get voo "Id" ||| get voo "id" |||
         JStr ("travellink-" ++ show_Z (Z.of_nat index) ++ "-" ++ show_Z (now w));
       raw_preco := JNum (num_or0 (parseFloat preco));
       raw_moeda := moeda;
       raw_companhia := nomeCompanhia;
       raw_origem := origem;
       raw_destino := destino;
       raw_dataIda :=
         if truthy dataPartida
         then toString dataPartida ++ "T" ++ toString horaPartida ++ ":00"
         else nowISO w;
       raw_dataVolta := JNull;
       raw_duracaoIda := duracao ||| JStr "N/A";
       raw_duracaoVolta := JNull;
       raw_escalasIda := JNum (inject_Z (int_or0 (parseInt escalas)));
       raw_escalasVolta := JNull;
       raw_detalhes :=
         Some {| ida :=
                   Some [ {| leg_origem := origem;
                             leg_destino := destino;
                             leg_partida :=
                               if truthy dataPartida
                               then JStr (toString dataPartida ++ "T" ++
                                          toString horaPartida ++ ":00")
                               else JStr "";
                             leg_chegada :=
                               if truthy horaChegada
                               then JStr (toString dataPartida ++ "T" ++
                                          toString horaChegada ++ ":00")
                               else JStr "";
                             leg_duracao := duracao;
                             leg_companhia := nomeCompanhia;
                             leg_numeroVoo := numeroVoo |} ];
                 volta := None |};
       raw_linkReserva := JStr "TRAVELLINK";
       raw_originalOffer := Some (FromTravelLink voo) |}
    "TRAVELLINK".

(** [lista.forEach((voo, index) => { if (voo && typeof voo === 'object')
    voos.push(formatarVooTravelLink(voo, ..., index)) })] *)
Definition pushVoos (w : World) (origemCode destinoCode : JsVal)
    (lista : list JsVal) : list Offer :=
  concat (mapi (fun voo index =>
                  if truthy voo && typeof_object voo
                  then [formatarVooTravelLink w voo origemCode destinoCode index]
                  else [])
               lista).

(** The wrapper that holds the flights, looked for in this order. *)
Definition unwrapDados (resultado : JsVal) : JsVal :=
  if truthy (get resultado "DisponibilidadeResult")
  then get resultado "DisponibilidadeResult"
  else if truthy (get resultado "disponibilidadeResult")
  then get resultado "disponibilidadeResult"
  else if truthy (get resultado "return") then get resultado "return"
  else if truthy (get resultado "data") then get resultado "data"
  else if truthy (get resultado "Voos") then get resultado "Voos"
  else if truthy (get resultado "voos") then get resultado "voos"
  else if truthy (get resultado "Flights") then get resultado "Flights"
  else if truthy (get resultado "flights") then get resultado "flights"
  else if isArray resultado then resultado
  else resultado.

Definition processarResultadosTravelLink (w : World)
    (resultado origemCode destinoCode : JsVal) : list Offer :=
  let body : Exc (list Offer) :=
    if is_nullish resultado
    then Throw (Error "Cannot read properties of null or undefined")
    else
      let dados := unwrapDados resultado in
      if negb (truthy dados) ||
         (isArray dados && (keys_length dados =? 0)%nat)
      then Ok []
      else
        match dados with
        | JArr items => Ok (pushVoos w origemCode destinoCode items)
        | _ =>
            if truthy dados && typeof_object dados then
              let listaVoos :=
                get dados "Voos" ||| get dados "voos" ||| get dados "flights" |||
                get dados "resultado" ||| get dados "ListaVoos" |||
                get dados "listaVoos" in
              match listaVoos with
              | JArr (v :: rest) =>
                  Ok (pushVoos w origemCode destinoCode (v :: rest))
              | _ =>
                  if (0 <? keys_length dados)%nat && negb (isArray dados)
                  then Ok [formatarVooTravelLink w dados origemCode destinoCode 0]
                  else Ok []
              end
            else Ok []
        end in
  match body with
  | Ok voos => voos
  | Throw error => []
  end.

Definition searchTravelLink (cfg : Config) (w : World) (req : Request)
  : Exc (list Offer) :=
  if negb (travellink_enabled cfg) then Ok []
  else
    try_catch
      (let origemCode := getCityCode (req_origem req) in
       let destinoCode := getCityCode (req_destino req) in
       dataIdaFormatted <- isoDay w (req_dataIda req) ;;
       dataVoltaFormatted <- isoDay_opt w (req_dataVolta req) ;;
       client <- createClientAsync w ;;
       _ <- match TravelLink.DisponibilidadeAsync client,
                  TravelLink.Disponibilidade client with
            | None, None =>
                Throw (Error "Método Disponibilidade não encontrado na API TravelLink")
            | _, _ => Ok tt
            end ;;
       let params :=
         {| TravelLink.origem := origemCode;
            TravelLink.destino := destinoCode;
            TravelLink.dataIda := dataIdaFormatted;
            TravelLink.adultos := 1;
            TravelLink.criancas := 0;
            TravelLink.bebes := 0;
            TravelLink.dataVolta := dataVoltaFormatted |} in
       called <-
         try_catch
           (resultado <-
              match TravelLink.DisponibilidadeAsync client with
              | Some async => async params
              | None =>
                  match TravelLink.Disponibilidade client with
                  | Some sync => sync params
                  | None => Throw (Error "client.Disponibilidade is not a function")
                  end
              end ;;
            Ok (Next resultado))
           (fun err =>
              if negb (message err =? "") && includes "callback" (message err)
              then Ok (Return [])
              else Throw (Error ("Erro ao buscar disponibilidade: " ++ message err))) ;;
       match called with
       | Return voos => Ok voos
       | Next resultado =>
           if is_nullish resultado then Ok []
           else if isArray resultado && (keys_length resultado =? 0)%nat then Ok []
           else Ok (processarResultadosTravelLink w resultado origemCode destinoCode)
       end)
      (fun error => Ok []).

(** ** 3. Aviationstack *)

Definition formatAviationstack (w : World) (origemCode destinoCode : JsVal)
    (flight : Aviationstack.Flight) (index : nat) : Offer :=
  let depIata := opt_js (option_map Aviationstack.iata (Aviationstack.departure flight)) in
  let arrIata := opt_js (option_map Aviationstack.iata (Aviationstack.arrival flight)) in
  let depAt :=
    match Aviationstack.departure flight with
    | Some d => Aviationstack.scheduled d
    | None => None
    end in
  let arrAt :=
    match Aviationstack.arrival flight with
    | Some a => Aviationstack.scheduled a
    | None => None
    end in
  let airlineName := opt_js (option_map Aviationstack.name (Aviationstack.airline flight)) in
  let airlineIata :=
    opt_js (option_map Aviationstack.airline_iata (Aviationstack.airline flight)) in
  normalizeFlight w
    {| raw_id := JStr ("aviationstack-" ++ show_Z (Z.of_nat index));
       raw_preco := JStr "0";
       raw_moeda := JStr "BRL";
       raw_companhia := airlineName ||| airlineIata ||| JStr "N/A";
       raw_origem := depIata ||| origemCode;
       raw_destino := arrIata ||| destinoCode;
       raw_dataIda := match depAt with Some t => t | None => "" end;
       raw_dataVolta := JNull;
       raw_duracaoIda := JStr "N/A";
       raw_duracaoVolta := JNull;
       raw_escalasIda := JNum 0;
       raw_escalasVolta := JNull;
       raw_detalhes :=
         Some {| ida :=
                   Some [ {| leg_origem := depIata;
                             leg_destino := arrIata;
                             leg_partida := of_option depAt;
                             leg_chegada := of_option arrAt;
                             leg_duracao := JStr "N/A";
                             leg_companhia := airlineName;
                             leg_numeroVoo :=
                               opt_js (option_map Aviationstack.number
                                         (Aviationstack.flight flight)) |} ];
                 volta := None |};
       raw_linkReserva := JStr "AVIATIONSTACK";
       raw_originalOffer := None |}
    "AVIATIONSTACK".

Definition searchAviationStack (cfg : Config) (w : World) (req : Request)
  : Exc (list Offer) :=
  if negb (aviationstack_enabled cfg) then Ok []
  else
    try_catch
      (let origemCode := getCityCode (req_origem req) in
       let destinoCode := getCityCode (req_destino req) in
       dataIdaFormatted <- isoDay w (req_dataIda req) ;;
       data <- getFlights w
                 {| Aviationstack.access_key := aviationstack_key cfg;
                    Aviationstack.dep_iata := origemCode;
                    Aviationstack.arr_iata := destinoCode;
                    Aviationstack.flight_date := dataIdaFormatted |} ;;
       match data with
       | None | Some [] => Ok []
       | Some flights =>
           Ok (mapi (formatAviationstack w origemCode destinoCode) (firstn 10 flights))
       end)
      (fun error => Ok []).

(** ** The multi-API search *)

Definition sourceName (p : Provider) : string :=
  match p with
  | TRAVELLINK => "TRAVELLINK"
  | AMADEUS => "AMADEUS"
  | AVIATIONSTACK => "AVIATIONSTACK"
  end.

Definition enabled (cfg : Config) (p : Provider) : bool :=
  match p with
  | TRAVELLINK => travellink_enabled cfg
  | AMADEUS => amadeus_enabled cfg
  | AVIATIONSTACK => aviationstack_enabled cfg
  end.

Definition searchTask (cfg : Config) (w : World) (req : Request) (p : Provider)
  : Exc (list Offer) :=
  match p with
  | TRAVELLINK => searchTravelLink cfg w req
  | AMADEUS => searchAmadeus cfg w req
  | AVIATIONSTACK => searchAviationStack cfg w req
  end.

Record ErrorRecord : Type := mkErrorRecord {
  source : string;
  error : string
}.

(** What a settled task does to [results] and [errors]:
    [.then(flights => results.push(...flights))]
    [.catch(err => errors.push({ source, error: err.message }))] *)
Definition settle (p : Provider) (outcome : Exc (list Offer))
    (st : list Offer * list ErrorRecord) : list Offer * list ErrorRecord :=
  match outcome with
  | Ok flights => ((fst st ++ flights)%list, snd st)
  | Throw err =>
      (fst st, (snd st ++ [ {| source := sourceName p; error := message err |} ])%list)
  end.

(** [await Promise.allSettled(promises)]: the handlers of the tasks that
    were started have run, in the order in which the tasks settled. *)
Definition joinTasks (cfg : Config) (task : Provider -> Exc (list Offer))
    (order : list Provider) : list Offer * list ErrorRecord :=
  fold_left (fun st p => if enabled cfg p then settle p (task p) st else st)
            order ([], []).

Record Fontes : Type := mkFontes {
  travellink : nat;
  amadeus : nat;
  aviationstack : nat
}.

Record Estatisticas : Type := mkEstatisticas {
  total : nat;
  fontes : Fontes;
  erros : list ErrorRecord
}.

Record Resultado : Type := mkResultado {
  voos : list Offer;
  estatisticas : Estatisticas
}.

Definition summarize (results : list Offer) (errors : list ErrorRecord) : Resultado :=
  let uniqueFlights := sort compareFlights (deduplicateFlights results) in
  {| voos := uniqueFlights;
     estatisticas :=
       {| total := length uniqueFlights;
          fontes :=
            {| travellink :=
                 length (filter (fun f => fonte f =? "TRAVELLINK") uniqueFlights);
               amadeus :=
                 length (filter (fun f => fonte f =? "AMADEUS") uniqueFlights);
               aviationstack :=
                 length (filter (fun f => fonte f =? "AVIATIONSTACK") uniqueFlights) |};
          erros := errors |} |}.

(** The body of [searchFlightsMultiAPI] around the three calls: [task p]
    is the outcome of the search task started for provider [p], and [i]
    the order in which the tasks settle. *)
Definition searchFlightsWith (cfg : Config) (task : Provider -> Exc (list Offer))
    (i : Interleaving) : Exc Resultado :=
  let '(results, errors) := joinTasks cfg task (order_of i) in
  Ok (summarize results errors).

Definition searchFlightsMultiAPI (cfg : Config) (w : World) (req : Request)
  : Exc Resultado :=
  searchFlightsWith cfg (searchTask cfg w req) (completion w).

(** ** Price confirmation *)

Module Pricing.

Record ConfirmedPrice : Type := mkConfirmedPrice {
  id : JsVal;
  preco : JsVal;
  precoBase : JsVal;
  moeda : JsVal;
  grandTotal : JsVal;
  taxas : JsVal;
  ultimaDataEmissao : JsVal;
  assentosDisponiveis : JsVal;
  requerEmissaoImediata : JsVal;
  detalhesPreco : JsVal;
  opcoesBolsas : JsVal;
  confirmado : bool;
  timestamp : string
}.

(** [{ ...flightOffers[index], precoConfirmado, precoOriginal }] *)
Record ConfirmedOffer : Type := mkConfirmedOffer {
  offer : Amadeus.FlightOffer;
  precoConfirmado : ConfirmedPrice;
  precoOriginal : JsVal
}.

(** What each promise of the batch resolves to:
    [{ index, result, success: true }] or [{ index, error, success: false }]. *)
Inductive Attempt : Type :=
| Succeeded (index : nat) (result : ConfirmedPrice)
| Failed (index : nat) (error : string).

(** An entry of [Promise.allSettled]. *)
Inductive Settled (A : Type) : Type :=
| fulfilled (value : A)
| rejected (reason : JsError).
Arguments fulfilled {A} value.
Arguments rejected {A} reason.

End Pricing.

(** [offer.price?.f] *)
Definition priceField (f : Amadeus.Price -> JsVal) (o : Amadeus.FlightOffer) : JsVal :=
  match Amadeus.price o with
  | Some p => f p
  | None => JUndefined
  end.

(** The outcome of one confirmation, and the pricing requests that were
    sent to the provider on the way. *)
Definition confirmFlightPrice (cfg : Config) (w : World)
    (flightOffer : Amadeus.FlightOffer)
  : Exc Pricing.ConfirmedPrice * list Amadeus.FlightOffer :=
  if negb (amadeus_enabled cfg)
  then (Throw (Error "API Amadeus não configurada"), [])
  else
    let attempt : Exc Pricing.ConfirmedPrice * list Amadeus.FlightOffer :=
      match getAmadeusToken cfg w with
      | Throw e => (Throw e, [])
      | Ok token =>
          (flightOffers <- postPricing w (apiBaseUrl cfg) token flightOffer ;;
           match flightOffers with
           | None | Some [] =>
               Throw (Error "Nenhuma oferta de preço confirmada retornada")
           | Some (confirmedOffer :: _) =>
               Ok {| Pricing.id := Amadeus.id confirmedOffer;
                     Pricing.preco :=
                       priceField Amadeus.total confirmedOffer |||
                       priceField Amadeus.total flightOffer;
                     Pricing.precoBase :=
                       priceField Amadeus.base confirmedOffer |||
                       priceField Amadeus.base flightOffer;
                     Pricing.moeda :=
                       priceField Amadeus.currency confirmedOffer |||
                       priceField Amadeus.currency flightOffer;
                     Pricing.grandTotal :=
                       priceField Amadeus.grandTotal confirmedOffer |||
                       priceField Amadeus.total confirmedOffer;
                     Pricing.taxas :=
                       priceField Amadeus.fees confirmedOffer ||| JArr [];
                     Pricing.ultimaDataEmissao :=
                       Amadeus.lastTicketingDate confirmedOffer;
                     Pricing.assentosDisponiveis :=
                       Amadeus.numberOfBookableSeats confirmedOffer;
                     Pricing.requerEmissaoImediata :=
                       Amadeus.instantTicketingRequired confirmedOffer ||| JBool false;
                     Pricing.detalhesPreco :=
                       Amadeus.travelerPricings confirmedOffer ||| JArr [];
                     Pricing.opcoesBolsas :=
                       get (index (Amadeus.travelerPricings confirmedOffer) 0)
                           "fareDetailsBySegment" ||| JArr [];
                     Pricing.confirmado := true;
                     Pricing.timestamp := nowISO w |}
           end,
           [flightOffer])
      end in
    (try_catch (fst attempt)
       (fun error =>
          match status error with
          | Some 400%Z =>
              Throw (Error ("Erro ao confirmar preço: " ++
                            match detail error with
                            | Some d => if d =? "" then "Parâmetros inválidos" else d
                            | None => "Parâmetros inválidos"
                            end))
          | Some 404%Z => Throw (Error "Oferta de voo não encontrada ou expirada")
          | Some 429%Z =>
              Throw (Error "Limite de requisições excedido. Tente novamente mais tarde.")
          | _ => Throw (Error ("Erro ao confirmar preço: " ++ message error))
          end),
     snd attempt).

(** [confirmFlightPrice(offer).then(...).catch(...)]: never rejected. *)
Definition attemptConfirm (cfg : Config) (w : World)
    (offer : Amadeus.FlightOffer) (index : nat)
  : Exc Pricing.Attempt * list Amadeus.FlightOffer :=
  let '(outcome, sent) := confirmFlightPrice cfg w offer in
  (match outcome with
   | Ok result => Ok (Pricing.Succeeded index result)
   | Throw error => Ok (Pricing.Failed index (message error))
   end,
   sent).

Definition allSettled {A : Type} (promises : list (Exc A)) : list (Pricing.Settled A) :=
  map (fun p => match p with
                | Ok v => Pricing.fulfilled v
                | Throw e => Pricing.rejected e
                end)
      promises.

(** One turn of [results.forEach((result, index) => ...)]. *)
Definition pushConfirmed (flightOffers : list Amadeus.FlightOffer)
    (acc : Exc (list Pricing.ConfirmedOffer))
    (entry : Pricing.Settled Pricing.Attempt * nat)
  : Exc (list Pricing.ConfirmedOffer) :=
  confirmed <- acc ;;
  match fst entry with
  | Pricing.fulfilled (Pricing.Succeeded _ result) =>
      match nth_error flightOffers (snd entry) with
      | Some original =>
          Ok (confirmed ++
              [ {| Pricing.offer := original;
                   Pricing.precoConfirmado := result;
                   Pricing.precoOriginal := priceField Amadeus.total original |} ])%list
      | None => Throw (Error "Cannot read properties of undefined (reading 'price')")
      end
  | _ => Ok confirmed
  end.

Definition confirmMultipleFlightPrices (cfg : Config) (w : World)
    (flightOffers : list Amadeus.FlightOffer)
  : Exc (list Pricing.ConfirmedOffer) * list Amadeus.FlightOffer :=
  match flightOffers with
  | [] => (Ok [], [])
  | _ =>
      let offersToConfirm := firstn 5 flightOffers in
      let promises := mapi (attemptConfirm cfg w) offersToConfirm in
      let results := allSettled (map fst promises) in
      (fold_left (pushConfirmed flightOffers)
                 (mapi (fun result index => (result, index)) results)
                 (Ok []),
       concat (map snd promises))
  end.

End MultiAPI.

(* ================================================================== *)
(** * The flights service                                              *)
(* ================================================================== *)

Module FlightsService.

Definition cityMap : list (string * string) :=
  [ ("são paulo", "SAO"); ("sao paulo", "SAO");
    ("rio de janeiro", "RIO"); ("rio", "RIO");
    ("brasília", "BSB"); ("brasilia", "BSB");
    ("salvador", "SSA"); ("fortaleza", "FOR");
    ("belo horizonte", "CNF"); ("manaus", "MAO");
    ("curitiba", "CWB"); ("porto alegre", "POA");
    ("recife", "REC"); ("belém", "BEL"); ("belem", "BEL");
    ("goiânia", "GYN"); ("goiania", "GYN");
    ("vitória", "VIX"); ("vitoria", "VIX");
    ("florianópolis", "FLN"); ("florianopolis", "FLN");
    ("campinas", "VCP"); ("guarulhos", "GRU");
    ("congonhas", "CGH"); ("santos dumont", "SDU");
    ("roma", "FCO"); ("rome", "FCO"); ("paris", "CDG");
    ("londres", "LHR"); ("london", "LHR");
    ("nova york", "JFK"); ("new york", "JFK");
    ("miami", "MIA"); ("orlando", "MCO");
    ("lisboa", "LIS"); ("lisbon", "LIS");
    ("madrid", "MAD"); ("barcelona", "BCN");
    ("amsterdam", "AMS"); ("frankfurt", "FRA");
    ("munique", "MUC"); ("munich", "MUC");
    ("zurich", "ZRH"); ("viena", "VIE"); ("vienna", "VIE");
    ("atenas", "ATH"); ("athens", "ATH");
    ("dubai", "DXB"); ("doha", "DOH");
    ("singapura", "SIN"); ("singapore", "SIN");
    ("tokyo", "NRT"); ("hong kong", "HKG");
    ("sydney", "SYD"); ("melbourne", "MEL");
    ("buenos aires", "EZE"); ("santiago", "SCL"); ("lima", "LIM");
    ("bogotá", "BOG"); ("bogota", "BOG");
    ("cidade do méxico", "MEX"); ("mexico city", "MEX") ].

Definition getCityCode (city : string) : JsVal :=
  if is_iata (toUpperCase (trim city)) then JStr (toUpperCase (trim city))
  else
    let normalized := trim (toLowerCase city) in
    let code := literal_get cityMap normalized in
    if truthy code then code
    else
      match match_token false city with
      | Some m => JStr (toUpperCase m)
      | None => JStr (toUpperCase (substring 0 3 city))
      end.

(** ** Configuration *)

Definition USE_MOCK_FLIGHTS (e : Env) : bool := USE_MOCK_FLIGHTS_var e =? "true".

(** [USE_MOCK_FLIGHTS === 'true'] compares the boolean above with a
    string, which is never equal. *)
Definition USE_MOCK_DATA (e : Env) : bool := false.

Definition apiBaseUrl (e : Env) : string :=
  if AMADEUS_ENV e =? "production" then "https://api.amadeus.com"
  else "https://test.api.amadeus.com".

(** ** Amadeus, asked directly *)

Definition getAmadeusToken (e : Env) (w : World) : Exc string :=
  let fetch :=
    try_catch
      (_ <- (if (AMADEUS_API_KEY e =? "") || (AMADEUS_API_SECRET e =? "")
             then Throw (Error "Credenciais da API Amadeus não configuradas. Verifique AMADEUS_API_KEY e AMADEUS_API_SECRET no arquivo .env")
             else Ok tt) ;;
       response <- postToken w (apiBaseUrl e) (AMADEUS_API_KEY e) (AMADEUS_API_SECRET e) ;;
       Ok (Amadeus.access_token response))
      (fun error =>
         match status error with
         | Some 401%Z =>
             Throw (Error "Credenciais inválidas. Verifique AMADEUS_API_KEY e AMADEUS_API_SECRET no arquivo .env")
         | _ =>
             if (code error =? "ENOTFOUND") || (code error =? "ECONNREFUSED") then
               Throw (Error "Não foi possível conectar à API do Amadeus. Verifique sua conexão com a internet.")
             else if (code error =? "ETIMEDOUT") || includes "timeout" (message error) then
               Throw (Error "Tempo de espera esgotado ao conectar com a API do Amadeus.")
             else
               Throw (Error ("Erro ao autenticar com Amadeus API: " ++ message error))
         end) in
  match serviceTokenCache w with
  | Some (token, expiry) =>
      if negb (token =? "") && negb (expiry =? 0)%Z && (now w <? expiry)%Z
      then Ok token
      else fetch
  | None => fetch
  end.

Definition companhiaMap : list (string * string) :=
  [ ("LA", "LATAM"); ("G3", "GOL"); ("AD", "Azul"); ("JJ", "LATAM");
    ("TP", "TAP"); ("AF", "Air France"); ("KL", "KLM"); ("LH", "Lufthansa");
    ("EK", "Emirates"); ("QR", "Qatar Airways"); ("AA", "American Airlines");
    ("DL", "Delta"); ("UA", "United") ].

(** [data] is [response.data.data]. *)
Definition formatAmadeusResults (data : option (list Amadeus.FlightOffer))
  : list RawFlight :=
  match data with
  | None | Some [] => []
  | Some offers =>
      mapi (AmadeusFormat.formatOffer companhiaMap "flight-"
              (fun offer => Amadeus.source offer ||| JStr "AMADEUS") false)
           offers
  end.

Definition searchFlightsAmadeus (e : Env) (w : World) (req : Request)
  : Exc (list RawFlight) :=
  try_catch
    (token <- getAmadeusToken e w ;;
     let origemCode := getCityCode (req_origem req) in
     let destinoCode := getCityCode (req_destino req) in
     dataIdaFormatted <- isoDay w (req_dataIda req) ;;
     dataVoltaFormatted <- isoDay_opt w (req_dataVolta req) ;;
     let params :=
       {| Amadeus.originLocationCode := origemCode;
          Amadeus.destinationLocationCode := destinoCode;
          Amadeus.departureDate := dataIdaFormatted;
          Amadeus.adults := 1;
          Amadeus.max := 15;
          Amadeus.returnDate := dataVoltaFormatted |} in
     data <- getFlightOffers w (apiBaseUrl e) token params ;;
     Ok (formatAmadeusResults data))
    (fun error =>
       match status error with
       | Some 401%Z =>
           Throw (Error "Token de autenticação inválido ou expirado. Tente novamente.")
       | Some 400%Z =>
           Throw (Error ("Parâmetros inválidos: " ++
                         match detail error with
                         | Some d => if d =? "" then "Parâmetros inválidos" else d
                         | None => "Parâmetros inválidos"
                         end ++ ". Verifique origem, destino e datas."))
       | Some 429%Z =>
           Throw (Error "Limite de requisições excedido. Tente novamente mais tarde.")
       | Some 404%Z =>
           Throw (Error "Nenhum voo encontrado para os critérios informados.")
       | _ =>
           if (code error =? "ENOTFOUND") || (code error =? "ECONNREFUSED") then
             Throw (Error "Não foi possível conectar à API do Amadeus. Verifique sua conexão.")
           else if (code error =? "ETIMEDOUT") || includes "timeout" (message error) then
             Throw (Error "Tempo de espera esgotado ao buscar voos.")
           else
             Throw (Error ("Erro ao buscar voos: " ++
                           match detail error with
                           | Some d => if d =? "" then message error else d
                           | None => message error
                           end))
       end).

(** ** Mock flights *)

Definition companhias : list string :=
  [ "LATAM"; "GOL"; "Azul"; "TAM"; "Emirates"; "Air France"; "KLM"; "Lufthansa";
    "TAP"; "Qatar Airways"; "American Airlines"; "Delta"; "United";
    "British Airways"; "Iberia" ].

(** [`${Math.floor(a * 8) + 2}h ${Math.floor(b * 60)}m`] *)
Definition mockDuration (a b : Q) (h m : string) : string :=
  show_Z (floor (a * 8) + 2) ++ h ++ show_Z (floor (b * 60)) ++ m.

(** The [i]-th turn of the loop.  [n] counts the calls of [Math.random]
    made so far; the turn makes 11 of them for a one-way search and 17
    when there is a return date. *)
Definition mockFlight (w : World) (origem destino : string) (dataIda : JsDate)
    (dataVolta : option JsDate) (i n : nat) : Exc RawFlight :=
  let r (k : nat) : Q := random w (n + k) in
  let companhia := nth (Z.to_nat (floor (r 0%nat * 15))) companhias "" in
  let precoBase := (800 + r 1%nat * 2000)%Q in
  let escalas := if Qltb 0.6 (r 2%nat) then 0%Z else 1%Z in
  let horaPartida := (6 + floor (r 3%nat * 14))%Z in
  let minutoPartida := floor (r 4%nat * 60) in
  partidaAt <- match dataIda with
               | ValidDate t => Ok (setHours w t horaPartida minutoPartida)
               | InvalidDate => Throw (Error "Invalid time value")
               end ;;
  voltaISO <- match dataVolta with
              | Some d => iso <- isoString w d ;; Ok (Some iso)
              | None => Ok None
              end ;;
  let hasVolta := match dataVolta with Some _ => true | None => false end in
  let k := if hasVolta then 9%nat else 7%nat in
  let codigo := substring 0 2 companhia in
  Ok {| raw_id := JStr ("mock-flight-" ++ show_Z (Z.of_nat i));
        raw_preco := JStr (toFixed2 precoBase);
        raw_moeda := JStr "BRL";
        raw_companhia := JStr companhia;
        raw_origem := JStr (toUpperCase (substring 0 3 origem));
        raw_destino := JStr (toUpperCase (substring 0 3 destino));
        raw_dataIda := toISOString w partidaAt;
        raw_dataVolta := match voltaISO with Some iso => JStr iso | None => JNull end;
        raw_duracaoIda := JStr (mockDuration (r 5%nat) (r 6%nat) "h " "m");
        raw_duracaoVolta :=
          if hasVolta then JStr (mockDuration (r 7%nat) (r 8%nat) "h " "m") else JNull;
        raw_escalasIda := JNum (inject_Z escalas);
        raw_escalasVolta := if hasVolta then JNum (inject_Z escalas) else JNull;
        raw_detalhes :=
          Some {| ida :=
                    Some [ {| leg_origem := JStr (toUpperCase (substring 0 3 origem));
                              leg_destino := JStr (toUpperCase (substring 0 3 destino));
                              leg_partida := JStr (toISOString w partidaAt);
                              leg_chegada :=
                                JStr (toISOString w
                                        (partidaAt + floor ((2 + r k * 6) * 3600000)));
                              leg_duracao :=
                                JStr (mockDuration (r (k + 1)%nat) (r (k + 2)%nat) "H" "M");
                              leg_companhia := JStr (toUpperCase codigo);
                              leg_numeroVoo :=
                                JStr (codigo ++
                                      show_Z (floor (r (k + 3)%nat * 9000) + 1000)) |} ];
                  volta :=
                    match dataVolta, voltaISO with
                    | Some (ValidDate tv), Some iso =>
                        Some [ {| leg_origem := JStr (toUpperCase (substring 0 3 destino));
                                  leg_destino := JStr (toUpperCase (substring 0 3 origem));
                                  leg_partida := JStr iso;
                                  leg_chegada :=
                                    JStr (toISOString w
                                            (tv + floor ((2 + r (k + 4)%nat * 6) * 3600000)));
                                  leg_duracao :=
                                    JStr (mockDuration (r (k + 5)%nat) (r (k + 6)%nat) "H" "M");
                                  leg_companhia := JStr (toUpperCase codigo);
                                  leg_numeroVoo :=
                                    JStr (codigo ++
                                          show_Z (floor (r (k + 7)%nat * 9000) + 1000)) |} ]
                    | _, _ => None
                    end |};
        raw_linkReserva := JStr "MOCK";
        raw_originalOffer := None |}.

(** [for (let i = 0; i < 15; i++) { ... voos.push(...) }], from turn [i]
    on, with [turns] turns left. *)
Fixpoint mockLoop (w : World) (origem destino : string) (dataIda : JsDate)
    (dataVolta : option JsDate) (turns i n : nat) : Exc (list RawFlight) :=
  match turns with
  | O => Ok []
  | S turns' =>
      voo <- mockFlight w origem destino dataIda dataVolta i n ;;
      rest <- mockLoop w origem destino dataIda dataVolta turns' (S i)
                (n + match dataVolta with Some _ => 17 | None => 11 end) ;;
      Ok (voo :: rest)
  end.

Definition generateMockFlights (w : World) (origem destino : string)
    (dataIda : JsDate) (dataVolta : option JsDate) : Exc (list RawFlight) :=
  voos <- mockLoop w origem destino dataIda dataVolta 15 0 0 ;;
  Ok (sort (fun a b =>
              (match parseFloat (raw_preco a) with Some x => x | None => 0 end -
               match parseFloat (raw_preco b) with Some x => x | None => 0 end)%Q)
           voos).

(** ** The search entry point *)

(** What [searchFlights] hands out: flights of the multi-API search, or
    flight literals of the direct search and of the mock generator. *)
Inductive ServiceFlight : Type :=
| Normalized (o : Offer)
| Plain (f : RawFlight).



Definition mockFallback (w : World) (req : Request) : Exc (list ServiceFlight) :=
  voos <- generateMockFlights w (req_origem req) (req_destino req)
            (req_dataIda req) (req_dataVolta req) ;;
  Ok (map Plain voos).

Definition searchFlights (e : Env) (cfg : MultiAPI.Config) (w : World) (req : Request)
  : Exc (list ServiceFlight) :=
  let useMultiAPI :=
    MultiAPI.travellink_enabled cfg || MultiAPI.amadeus_enabled cfg ||
    MultiAPI.aviationstack_enabled cfg in
  if USE_MOCK_DATA e && negb useMultiAPI then mockFallback w req
  else if useMultiAPI then
    try_catch
      (resultado <- MultiAPI.searchFlightsMultiAPI cfg w req ;;
       match MultiAPI.voos resultado with
       | [] => if USE_MOCK_FLIGHTS e then mockFallback w req else Ok []
       | _ :: _ => Ok (map Normalized (MultiAPI.voos resultado))
       end)
      (fun error =>
         direct <-
           (if MultiAPI.amadeus_enabled cfg then
              try_catch
                (voos <- searchFlightsAmadeus e w req ;;
                 match voos with
                 | _ :: _ => Ok (Return (map Plain voos))
                 | [] => Ok (Next tt)
                 end)
                (fun amadeusError => Ok (Next tt))
            else Ok (Next tt)) ;;
         match direct with
         | Return voos => Ok voos
         | Next _ => if USE_MOCK_FLIGHTS e then mockFallback w req else Throw error
         end)
  else
    try_catch
      (voos <- searchFlightsAmadeus e w req ;;
       match voos with
       | [] => Throw (Error "Nenhum voo encontrado para os critérios informados.")
       | _ :: _ => Ok (map Plain voos)
       end)
      (fun error => if USE_MOCK_FLIGHTS e then mockFallback w req else Throw error).

End FlightsService.

(* ================================================================== *)
(** * City codes of arbitrary strings                                  *)
(* ================================================================== *)

(** A string of the language is a sequence of UTF-16 code units.  Both
    versions of [getCityCode] are embedded here on such sequences.  The
    case mapping of the language, which follows the Unicode tables, is a
    parameter ([Casing]); the claims fix only what it does to ASCII
    text.  Trimming, the regular expressions and the table lookup are as
    the language defines them for every string. *)
Module Wide.

Definition Units : Type := list N.

(** The code units of a string of this file, which is written in UTF-8.
    A byte sequence that is no UTF-8 gives U+FFFD. *)
Fixpoint units_of (s : string) : Units :=
  match s with
  | EmptyString => []
  | String a r1 =>
      let x := N_of_ascii a in
      if (x <? 128)%N then x :: units_of r1
      else
        match r1 with
        | EmptyString => [65533%N]
        | String b r2 =>
            let y := N_of_ascii b in
            if (192 <=? x)%N && (x <? 224)%N && (128 <=? y)%N && (y <? 192)%N
            then ((x - 192) * 64 + (y - 128))%N :: units_of r2
            else
              match r2 with
              | EmptyString => 65533%N :: units_of r1
              | String c r3 =>
                  let z := N_of_ascii c in
                  if (224 <=? x)%N && (x <? 240)%N && (128 <=? y)%N && (y <? 192)%N &&
                     (128 <=? z)%N && (z <? 192)%N
                  then ((x - 224) * 4096 + (y - 128) * 64 + (z - 128))%N :: units_of r3
                  else
                    match r3 with
                    | EmptyString => 65533%N :: units_of r1
                    | String d r4 =>
                        let t := N_of_ascii d in
                        if (240 <=? x)%N && (x <? 248)%N &&
                           (128 <=? y)%N && (y <? 192)%N &&
                           (128 <=? z)%N && (z <? 192)%N &&
                           (128 <=? t)%N && (t <? 192)%N
                        then
                          let cp := ((x - 240) * 262144 + (y - 128) * 4096 +
                                     (z - 128) * 64 + (t - 128) - 65536)%N in
                          (55296 + cp / 1024)%N :: (56320 + cp mod 1024)%N :: units_of r4
                        else 65533%N :: units_of r1
                    end
              end
        end
  end.

(** [s.toUpperCase()] and [s.toLowerCase()], as the language has them. *)
Record Casing : Type := mkCasing {
  toUpperCase : Units -> Units;
  toLowerCase : Units -> Units
}.

Definition in_range (lo hi u : N) : bool := (lo <=? u)%N && (u <=? hi)%N.

Definition is_upper : N -> bool := in_range 65 90.
Definition is_lower : N -> bool := in_range 97 122.
Definition is_digit : N -> bool := in_range 48 57.
Definition is_letter (u : N) : bool := is_upper u || is_lower u.

(** [\w] *)
Definition is_word (u : N) : bool := is_letter u || is_digit u || (u =? 95)%N.

(** White space and line terminators, which [trim] removes: TAB, LF, VT,
    FF, CR, the space, the no-break space, the other space separators
    (U+1680, U+2000 to U+200A, U+202F, U+205F, U+3000), the line and
    paragraph separators, and U+FEFF. *)
Definition is_space (u : N) : bool :=
  in_range 9 13 u || (u =? 32)%N || (u =? 160)%N || (u =? 5760)%N ||
  in_range 8192 8202 u || (u =? 8232)%N || (u =? 8233)%N || (u =? 8239)%N ||
  (u =? 8287)%N || (u =? 12288)%N || (u =? 65279)%N.

Fixpoint trimStart (s : Units) : Units :=
  match s with
  | [] => []
  | u :: s' => if is_space u then trimStart s' else s
  end.

Definition trimEnd (s : Units) : Units := rev (trimStart (rev s)).

Definition trim (s : Units) : Units := trimEnd (trimStart s).

Fixpoint eqb (a b : Units) : bool :=
  match a, b with
  | [], [] => true
  | x :: a', y :: b' => (x =? y)%N && eqb a' b'
  | _, _ => false
  end.

Fixpoint assoc (k : Units) (l : list (Units * Units)) : option Units :=
  match l with
  | [] => None
  | (k', v) :: rest => if eqb k k' then Some v else assoc k rest
  end.

Definition inherited (k : Units) : bool :=
  existsb (eqb k) (map units_of object_prototype_keys).

(** What [getCityCode] can return: a string, or a member that the table
    inherits from [Object.prototype]. *)
Inductive Value : Type :=
| Str (s : Units)
| Builtin (name : Units).

(** [table[k]], [None] for [undefined]. *)
Definition literal_get (table : list (Units * Units)) (k : Units) : option Value :=
  match assoc k table with
  | Some v => Some (Str v)
  | None => if inherited k then Some (Builtin k) else None
  end.

Definition truthy (v : option Value) : bool :=
  match v with
  | None | Some (Str []) => false
  | _ => true
  end.

(** [/^[A-Z]{3}$/.test(s)] *)
Definition is_iata (s : Units) : bool :=
  match s with
  | [a; b; c] => is_upper a && is_upper b && is_upper c
  | _ => false
  end.

(** Does [/([A-Z]{3})\b/i] match at the head of [s]?  Without the flag
    [u] only the ASCII letters match [[A-Z]] when case is ignored. *)
Definition token_here (s : Units) : bool :=
  match s with
  | a :: b :: c :: rest =>
      is_letter a && is_letter b && is_letter c &&
      match rest with
      | [] => true
      | d :: _ => negb (is_word d)
      end
  | _ => false
  end.

(** [s.match(/\b([A-Z]{3})\b/i)]: the leftmost match, as group 1. *)
Fixpoint match_token (prev_word : bool) (s : Units) : option Units :=
  match s with
  | [] => None
  | a :: rest =>
      if negb prev_word && token_here s then Some (firstn 3 s)
      else match_token (is_word a) rest
  end.

Definition table_of (table : list (string * string)) : list (Units * Units) :=
  map (fun kv => (units_of (fst kv), units_of (snd kv))) table.

(** [getCityCode] of multiAPI.js *)
Module OfMultiAPI.

Definition cityMap : list (Units * Units) := table_of MultiAPI.cityMap.

Definition getCityCode (c : Casing) (city : Units) : Value :=
  if is_iata (toUpperCase c (trim city)) then Str (toUpperCase c (trim city))
  else
    let normalized := trim (toLowerCase c city) in
    match literal_get cityMap normalized with
    | Some code => if truthy (Some code) then code
                   else Str (toUpperCase c (firstn 3 city))
    | None => Str (toUpperCase c (firstn 3 city))
    end.

End OfMultiAPI.

(** [getCityCode] of the flights service *)
Module OfFlightsService.

Definition cityMap : list (Units * Units) := table_of FlightsService.cityMap.

Definition getCityCode (c : Casing) (city : Units) : Value :=
  if is_iata (toUpperCase c (trim city)) then Str (toUpperCase c (trim city))
  else
    let normalized := trim (toLowerCase c city) in
    let code := literal_get cityMap normalized in
    match code with
    | Some v =>
        if truthy code then v
        else
          match match_token false city with
          | Some m => Str (toUpperCase c m)
          | None => Str (toUpperCase c (firstn 3 city))
          end
    | None =>
        match match_token false city with
        | Some m => Str (toUpperCase c m)
        | None => Str (toUpperCase c (firstn 3 city))
        end
    end.

End OfFlightsService.

End Wide.

(* ================================================================== *)
(** * The specification's vocabulary                                   *)
(* ================================================================== *)

Module Spec.

Import MultiAPI.

(** [clamp(x, lo, hi)] *)
Definition clamp (x lo hi : Q) : Q := Qmax lo (Qmin hi x).

(** The weight of a source tag: 0.4 for the SOAP provider, 0.3 for the
    OAuth REST provider, 0.2 for the secondary provider. *)
Definition sourceWeight (source : string) : Q :=
  if source =? "TRAVELLINK" then 0.4%Q
  else if source =? "AMADEUS" then 0.3%Q
  else if source =? "AVIATIONSTACK" then 0.2%Q
  else 0%Q.

(** The price of a flight literal as a number, zero when it has none. *)
Definition priceOf (flight : RawFlight) : Q := num_or0 (parseFloat (raw_preco flight)).

Definition outboundDetail (flight : RawFlight) : list Leg :=
  match raw_detalhes flight with
  | Some d => match ida d with Some legs => legs | None => [] end
  | None => []
  end.

(** +0.1 if the outbound segment detail is non-empty, +0.1 if price > 0. *)
Definition completenessBonus (flight : RawFlight) : Q :=
  ((match outboundDetail flight with [] => 0 | _ :: _ => 0.1 end) +
   (if Qltb 0 (priceOf flight) then 0.1 else 0))%Q.

Definition score (flight : RawFlight) (source : string) : Q :=
  clamp (0.5 + sourceWeight source + completenessBonus flight)%Q 0 1.

(** The replacement rule in the specification's words: strictly higher
    reliability, or equal reliability and a longer outbound segment list. *)
Definition replacesByRank (incoming stored : Offer) : Prop :=
  (confiabilidade stored < confiabilidade incoming)%Q \/
  ((confiabilidade incoming == confiabilidade stored)%Q /\
   (idaLength stored < idaLength incoming)%nat).

(** Reliability descending, then price ascending. *)
Definition ranked (a b : Offer) : Prop :=
  (confiabilidade b < confiabilidade a)%Q \/
  ((confiabilidade a == confiabilidade b)%Q /\ (preco a <= preco b)%Q).

(** The offers a task has delivered. *)
Definition delivered (outcome : Exc (list Offer)) : list Offer :=
  match outcome with
  | Ok flights => flights
  | Throw _ => []
  end.

(** [post] holds of the value, if the computation delivers one. *)
Definition ExcSat {A : Type} (post : A -> Prop) (c : Exc A) : Prop :=
  match c with
  | Ok a => post a
  | Throw _ => True
  end.

(** The source tags that [searchFlightsMultiAPI] counts. *)
Definition knownSource (f : Offer) : Prop :=
  fonte f = "TRAVELLINK" \/ fonte f = "AMADEUS" \/ fonte f = "AVIATIONSTACK".

(** The error records that the tasks of [ps] leave behind. *)
Definition errorsOf (task : Provider -> Exc (list Offer)) (ps : list Provider)
  : list ErrorRecord :=
  flat_map (fun p => match task p with
                     | Ok _ => []
                     | Throw e => [ {| source := sourceName p; error := message e |} ]
                     end)
           ps.

(** The offers that the tasks of [ps] deliver, one task after the other. *)
Definition offersOf (task : Provider -> Exc (list Offer)) (ps : list Provider)
  : list Offer :=
  concat (map (fun p => delivered (task p)) ps).




Definition otherThan (p q : Provider) : bool :=
  match p, q with
  | TRAVELLINK, TRAVELLINK | AMADEUS, AMADEUS | AVIATIONSTACK, AVIATIONSTACK => false
  | _, _ => true
  end.



(** A confirmed offer: the offer, its original price and the confirmed
    price. *)
Definition annotate (cfg : Config) (w : World) (offer : Amadeus.FlightOffer)
  : list Pricing.ConfirmedOffer :=
  match fst (confirmFlightPrice cfg w offer) with
  | Ok result =>
      [ {| Pricing.offer := offer;
           Pricing.precoConfirmado := result;
           Pricing.precoOriginal := priceField Amadeus.total offer |} ]
  | Throw _ => []
  end.

(** A table entry maps a name of three or more characters to a code of
    exactly three. *)
Definition codeEntry (kv : string * string) : bool :=
  (String.length (snd kv) =? 3)%nat && (3 <=? String.length (fst kv))%nat.

End Spec.

(* ================================================================== *)
(** * Sample data                                                      *)
(* ================================================================== *)

Module Examples.

Import MultiAPI.

Definition leg (from to : string) : Leg :=
  {| leg_origem := JStr from; leg_destino := JStr to;
     leg_partida := JUndefined; leg_chegada := JUndefined;
     leg_duracao := JUndefined; leg_companhia := JStr "LATAM";
     leg_numeroVoo := JUndefined |}.

(** A flight from GRU to SDU on 25 December 2025. *)
Definition sample (name source airline : string) (price reliability : Q)
    (legs : list Leg) : Offer :=
  {| id := JStr name; preco := price; moeda := JStr "BRL";
     companhia := JStr airline; origem := JStr "GRU"; destino := JStr "SDU";
     dataIda := "2025-12-25T08:00:00"; dataVolta := JNull;
     duracaoIda := JStr "N/A"; duracaoVolta := JNull;
     escalasIda := JNum 0; escalasVolta := JNull;
     detalhes := {| ida := Some legs; volta := None |};
     linkReserva := JStr source; fonte := source;
     confiabilidade := reliability; _originalOffer := None |}.

(** A priced direct TravelLink flight, and the same itinerary from
    Amadeus in two legs and without a price. *)
Definition direct : Offer :=
  sample "travellink-0" "TRAVELLINK" "LATAM" 900 1.0 [leg "GRU" "SDU"].

Definition viaCGH : Offer :=
  sample "amadeus-0" "AMADEUS" "LATAM" 0 0.9 [leg "GRU" "CGH"; leg "CGH" "SDU"].

(** Reliabilities 0.9, 0.9, 0.5 with prices 800, 500, 100. *)
Definition at800 : Offer := sample "a" "AMADEUS" "GOL" 800 0.9 [leg "GRU" "SDU"].
Definition at500 : Offer := sample "b" "AMADEUS" "Azul" 500 0.9 [leg "GRU" "SDU"].
Definition at100 : Offer := sample "c" "AMADEUS" "LATAM" 100 0.5 [].

Definition cfg3 : Config :=
  {| amadeus_enabled := true; amadeus_key := "key"; amadeus_secret := "secret";
     amadeus_env := "test"; aviationstack_enabled := true;
     aviationstack_key := "key"; travellink_enabled := true |}.

Definition env (mock : string) : Env :=
  {| AMADEUS_API_KEY := "key"; AMADEUS_API_SECRET := "secret"; AMADEUS_ENV := "";
     AVIATIONSTACK_API_KEY := "key"; USE_MOCK_FLIGHTS_var := mock |}.

Definition request : Request :=
  {| req_origem := "GRU"; req_destino := "SDU";
     req_dataIda := ValidDate 1766649600000; req_dataVolta := None |}.

Definition timeout : JsError :=
  mkError "timeout of 15000ms exceeded" None "ECONNABORTED" None.

(** A TravelLink answer with one flight, and a client that gives it. *)
Definition tlAnswer : JsVal :=
  JObj [ ("DisponibilidadeResult",
          JArr [ JObj [ ("Companhia", JStr "LA"); ("Preco", JStr "812.35");
                        ("DataPartida", JStr "2025-12-25");
                        ("HoraPartida", JStr "08:00") ] ]) ].

Definition client (answer : Exc JsVal) : TravelLink.Client :=
  {| TravelLink.DisponibilidadeAsync := Some (fun _ => answer);
     TravelLink.Disponibilidade := None |}.

Definition avFlight : Aviationstack.Flight :=
  {| Aviationstack.airline :=
       Some {| Aviationstack.name := JStr "GOL"; Aviationstack.airline_iata := JStr "G3" |};
     Aviationstack.departure :=
       Some {| Aviationstack.iata := JStr "GRU";
               Aviationstack.scheduled := Some "2025-12-25T10:00:00+00:00" |};
     Aviationstack.arrival :=
       Some {| Aviationstack.iata := JStr "SDU";
               Aviationstack.scheduled := Some "2025-12-25T11:00:00+00:00" |};
     Aviationstack.flight := Some {| Aviationstack.number := JStr "1234" |} |}.

Definition amOffer (name total : string) : Amadeus.FlightOffer :=
  {| Amadeus.id := JStr name; Amadeus.source := JStr "GDS";
     Amadeus.price :=
       Some {| Amadeus.total := JStr total; Amadeus.base := JStr total;
               Amadeus.currency := JStr "BRL"; Amadeus.grandTotal := JStr total;
               Amadeus.fees := JArr [] |};
     Amadeus.itineraries := None;
     Amadeus.lastTicketingDate := JStr "2025-12-20";
     Amadeus.numberOfBookableSeats := JNum 4;
     Amadeus.instantTicketingRequired := JBool false;
     Amadeus.travelerPricings := JArr [] |}.

(** A world in which the three providers answer as given.  The pricing
    service confirms every offer except the one called "gone". *)
Definition world (amadeusAnswer : Exc (option (list Amadeus.FlightOffer)))
    (travellinkClient : Exc TravelLink.Client)
    (aviationstackAnswer : Exc (option (list Aviationstack.Flight))) : World :=
  {| now := 1766000000000;
     nowISO := "2025-12-17T19:33:20.000Z";
     toISOString := fun _ => "2025-12-25T08:00:00.000Z";
     setHours := fun t h m => (t + h * 3600000 + m * 60000)%Z;
     random := fun _ => 0.5%Q;
     tokenCache := None;
     serviceTokenCache := None;
     postToken := fun _ _ _ => Ok {| Amadeus.access_token := "token";
                                     Amadeus.expires_in := 1799 |};
     getFlightOffers := fun _ _ _ => amadeusAnswer;
     postPricing :=
       fun _ _ o =>
         if strict_eq (Amadeus.id o) (JStr "gone")
         then Throw (mkError "Request failed with status code 404" (Some 404%Z) "" None)
         else Ok (Some [o]);
     createClientAsync := travellinkClient;
     getFlights := fun _ => aviationstackAnswer;
     completion := TL_AM_AV |}.

(** Amadeus times out; TravelLink and Aviationstack have one flight each. *)
Definition amadeusDown : World :=
  world (Throw timeout) (Ok (client (Ok tlAnswer))) (Ok (Some [avFlight])).


(** Every provider answers, with no flight. *)
Definition allEmpty : World :=
  world (Ok (Some [])) (Ok (client (Ok (JArr [])))) (Ok (Some [])).



(** Seven offers for a batch confirmation; the pricing of the third has
    expired. *)
Definition sevenOffers : list Amadeus.FlightOffer :=
  [ amOffer "1" "500.00"; amOffer "2" "510.00"; amOffer "gone" "520.00";
    amOffer "4" "530.00"; amOffer "5" "540.00"; amOffer "6" "550.00";
    amOffer "7" "560.00" ].

End Examples.

(* ================================================================== *)
(** * Further vocabulary                                               *)
(* ================================================================== *)

Module Notions.

Import MultiAPI.

(** A table value is a code of at most three characters in upper case; a
    table name of three characters consists of letters; no inherited name
    is that short. *)
Definition stableEntry (kv : string * string) : bool :=
  (String.length (snd kv) <=? 3)%nat && (toUpperCase (snd kv) =? snd kv) &&
  (negb (String.length (fst kv) =? 3)%nat || is_iata (toUpperCase (fst kv))).

Definition longName (k : string) : bool := (4 <=? String.length k)%nat.

(** The names under which [processarResultadosTravelLink] looks for the
    payload of an answer, and the names under which it looks for a list
    of flights inside a payload that is an object. *)
Definition outerWrappers : list string :=
  [ "DisponibilidadeResult"; "disponibilidadeResult"; "return"; "data";
    "Voos"; "voos"; "Flights"; "flights" ].

Definition innerWrappers : list string :=
  [ "Voos"; "voos"; "flights"; "resultado"; "ListaVoos"; "listaVoos" ].


(** The same world, with the provider tasks settling in the order [i]. *)
Definition withCompletion (i : Interleaving) (w : World) : World :=
  {| now := now w; nowISO := nowISO w; toISOString := toISOString w;
     setHours := setHours w; random := random w;
     tokenCache := tokenCache w; serviceTokenCache := serviceTokenCache w;
     postToken := postToken w; getFlightOffers := getFlightOffers w;
     postPricing := postPricing w; createClientAsync := createClientAsync w;
     getFlights := getFlights w; completion := i |}.



(** No character of [s] is a capital H. *)
Definition noHours (s : string) : bool :=
  forall_string (fun c => negb (nat_of_ascii c =? 72)%nat) s.

(** The message of the error that the flights service raises for missing
    credentials, as the caller of [getAmadeusToken] sees it. *)
Definition missingCredentials : string :=
  "Erro ao autenticar com Amadeus API: Credenciais da API Amadeus não configuradas. Verifique AMADEUS_API_KEY e AMADEUS_API_SECRET no arquivo .env".

(** ** City codes of arbitrary strings *)

Definition is_ascii_units (s : Wide.Units) : bool := forallb (fun u => (u <? 128)%N) s.

Definition upper_unit (u : N) : N := if Wide.is_lower u then (u - 32)%N else u.
Definition lower_unit (u : N) : N := if Wide.is_upper u then (u + 32)%N else u.

(** What the claims ask of the case mapping: on ASCII text it maps the
    letters a to z and A to Z onto one another and leaves the rest. *)
Definition lawful (c : Wide.Casing) : Prop :=
  forall s, is_ascii_units s = true ->
            Wide.toUpperCase c s = map upper_unit s /\
            Wide.toLowerCase c s = map lower_unit s.



(** The value of the string version, on code units. *)
Definition wide (v : JsVal) : option Wide.Value :=
  match v with
  | JStr s => Some (Wide.Str (Wide.units_of s))
  | JBuiltin k => Some (Wide.Builtin (Wide.units_of k))
  | _ => None
  end.

(** A table entry maps a name of three or more code units to a code of
    exactly three; a name that is not ASCII has a code unit above 127. *)
Definition wideEntry (kv : string * string) : bool :=
  (length (Wide.units_of (snd kv)) =? 3)%nat &&
  (3 <=? length (Wide.units_of (fst kv)))%nat &&
  (is_ascii (fst kv) || negb (is_ascii_units (Wide.units_of (fst kv)))) &&
  is_ascii (snd kv).


(** A GOL flight and a LATAM flight that two providers both call "1", and
    the LATAM flight again in two legs. *)
Definition golOne : Offer :=
  Examples.sample "1" "AMADEUS" "GOL" 800 0.9 [Examples.leg "GRU" "SDU"].

Definition latamOne : Offer :=
  Examples.sample "1" "TRAVELLINK" "LATAM" 900 1.0 [Examples.leg "GRU" "SDU"].

Definition latamTwo : Offer :=
  Examples.sample "2" "AMADEUS" "LATAM" 0 0.9
    [Examples.leg "GRU" "CGH"; Examples.leg "CGH" "SDU"].

End Notions.

Import Spec.
Import Notions.

(* ================================================================== *)
(** * Properties                                                       *)
(* ================================================================== *)

Example city_examples :
  MultiAPI.getCityCode "RIO" = JStr "RIO" /\
  MultiAPI.getCityCode "rio" = JStr "RIO" /\
  FlightsService.getCityCode "São Paulo" = JStr "SAO" /\
  FlightsService.getCityCode "Unknown City" = JStr "UNK" /\
  FlightsService.getCityCode "aeroporto gru" = JStr "GRU" /\
  MultiAPI.getCityCode "Constructor" = JBuiltin "constructor".
Proof. repeat split; reflexivity. Qed.

(** ** Strings *)

Lemma length_map_string (f : ascii -> ascii) (s : string) :
  String.length (map_string f s) = String.length s.
Proof. induction s as [|c s IH]; simpl; congruence. Qed.

Lemma length_trimStart (s : string) :
  (String.length (trimStart s) <= String.length s)%nat.
Proof.
  induction s as [|c s IH]; simpl; [lia|].
  destruct (is_space c); simpl; lia.
Qed.

Lemma length_trimEnd (s : string) :
  (String.length (trimEnd s) <= String.length s)%nat.
Proof.
  induction s as [|c s IH]; simpl; [lia|].
  destruct (is_space c && (trimEnd s =? "")); simpl; lia.
Qed.

Lemma length_trim (s : string) : (String.length (trim s) <= String.length s)%nat.
Proof.
  unfold trim. pose proof (length_trimEnd (trimStart s)).
  pose proof (length_trimStart s). lia.
Qed.

Lemma length_substring_0 (n : nat) (s : string) :
  String.length (substring 0 n s) = Nat.min n (String.length s).
Proof.
  revert s; induction n as [|n IH]; intros s.
  - destruct s; reflexivity.
  - destruct s as [|c s]; simpl; [reflexivity|]. now rewrite IH.
Qed.

Lemma is_iata_length (s : string) : is_iata s = true -> String.length s = 3%nat.
Proof.
  destruct s as [|a [|b [|c [|d s]]]]; simpl; try discriminate; reflexivity.
Qed.

Lemma token_here_length (s : string) :
  token_here s = true -> (3 <= String.length s)%nat.
Proof.
  destruct s as [|a [|b [|c s]]]; simpl; try discriminate. intros _; lia.
Qed.

Lemma match_token_length (s : string) :
  forall prev m, match_token prev s = Some m ->
                 String.length m = 3%nat /\ (3 <= String.length s)%nat.
Proof.
  induction s as [|a s IH]; intros prev m; cbn [match_token]; [discriminate|].
  destruct (negb prev && token_here (String a s)) eqn:E.
  - intros H; injection H as <-.
    apply andb_true_iff in E as [_ E]. apply token_here_length in E.
    change (String.length (substring 0 3 (String a s)) = 3%nat /\
            (3 <= String.length (String a s))%nat).
    rewrite length_substring_0. split; lia.
  - intros H. apply IH in H as [H1 H2]. split; [exact H1 | simpl; lia].
Qed.

(** ** Object literals *)

Lemma assoc_forallb {V : Type} (p : string * V -> bool) (l : list (string * V))
    (k : string) (v : V) :
  forallb p l = true -> assoc k l = Some v -> p (k, v) = true.
Proof.
  induction l as [|[k' v'] l IH]; simpl; [discriminate|].
  intros H; apply andb_true_iff in H as [H1 H2].
  destruct (String.eqb_spec k k') as [->|_].
  - intros E; injection E as <-; exact H1.
  - now apply IH.
Qed.

Lemma cityMap_entries :
  forallb codeEntry MultiAPI.cityMap = true /\
  forallb codeEntry FlightsService.cityMap = true.
Proof. split; reflexivity. Qed.

Lemma literal_get_cases (table : list (string * string)) (k : string) :
  (exists c, assoc k table = Some c /\ literal_get table k = JStr c) \/
  (assoc k table = None /\ inherited k = true /\ literal_get table k = JBuiltin k) \/
  (assoc k table = None /\ inherited k = false /\ literal_get table k = JUndefined).
Proof.
  unfold literal_get. destruct (assoc k table) as [c|].
  - left; now exists c.
  - right. destruct (inherited k); [left | right]; repeat split.
Qed.

Lemma city_code_fallback (city : string) :
  String.length (toUpperCase (substring 0 3 city)) = Nat.min 3 (String.length city).
Proof. unfold toUpperCase. now rewrite length_map_string, length_substring_0. Qed.

(** ** City codes *)

Lemma token_fallback_length (city : string) :
  String.length
    (toUpperCase match match_token false city with
                 | Some m => m
                 | None => substring 0 3 city
                 end) = Nat.min 3 (String.length city).
Proof.
  destruct (match_token false city) as [m|] eqn:E.
  - apply match_token_length in E as [E1 E2].
    unfold toUpperCase. rewrite length_map_string. lia.
  - apply city_code_fallback.
Qed.

Lemma FlightsService_getCityCode_unfold (city : string) :
  FlightsService.getCityCode city =
  if is_iata (toUpperCase (trim city)) then JStr (toUpperCase (trim city))
  else
    let code := literal_get FlightsService.cityMap (trim (toLowerCase city)) in
    if truthy code then code
    else JStr (toUpperCase match match_token false city with
                           | Some m => m
                           | None => substring 0 3 city
                           end).
Proof.
  unfold FlightsService.getCityCode.
  destruct (is_iata _); [reflexivity|]. cbv zeta.
  destruct (truthy _); [reflexivity|].
  now destruct (match_token false city).
Qed.


(** *** Every string *)








Lemma Wide_eqb_eq (a b : Wide.Units) : Wide.eqb a b = true <-> a = b.
Proof.
  revert b. induction a as [|x a IH]; intros [|y b]; cbn [Wide.eqb].
  - split; reflexivity.
  - split; discriminate.
  - split; discriminate.
  - rewrite andb_true_iff, N.eqb_eq, IH.
    split; [intros [-> ->]; reflexivity | intros E; injection E; auto].
Qed.








Lemma wide_tables :
  forallb wideEntry MultiAPI.cityMap = true /\
  forallb wideEntry FlightsService.cityMap = true.
Proof. split; vm_compute; reflexivity. Qed.




(** *** The two embeddings agree on ASCII text *)

Lemma ascii_char_units (a : ascii) :
  is_ascii_char a = true ->
  (N_of_ascii a <? 128)%N = true /\
  Wide.is_space (N_of_ascii a) = is_space a /\
  Wide.is_upper (N_of_ascii a) = is_upper a /\
  Wide.is_lower (N_of_ascii a) = is_lower a /\
  Wide.is_word (N_of_ascii a) = is_word a /\
  N_of_ascii (upper_char a) = upper_unit (N_of_ascii a) /\
  N_of_ascii (lower_char a) = lower_unit (N_of_ascii a) /\
  is_ascii_char (upper_char a) = true /\
  is_ascii_char (lower_char a) = true.
Proof.
  destruct a as [[] [] [] [] [] [] [] []]; intros H; try discriminate H;
    vm_compute; repeat split.
Qed.

Lemma units_of_cons (a : ascii) (r : string) :
  is_ascii_char a = true ->
  Wide.units_of (String a r) = N_of_ascii a :: Wide.units_of r.
Proof.
  intros H. destruct (ascii_char_units a H) as [L _].
  cbn [Wide.units_of]. cbv zeta. now rewrite L.
Qed.

Lemma is_ascii_cons (a : ascii) (r : string) :
  is_ascii (String a r) = true <-> is_ascii_char a = true /\ is_ascii r = true.
Proof. unfold is_ascii. cbn [forall_string]. apply andb_true_iff. Qed.

Lemma units_of_ascii (s : string) :
  is_ascii s = true -> is_ascii_units (Wide.units_of s) = true.
Proof.
  induction s as [|a s IH]; [reflexivity|].
  intros H. apply is_ascii_cons in H as [Ha Hs].
  rewrite (units_of_cons a s Ha). cbn [is_ascii_units forallb].
  destruct (ascii_char_units a Ha) as [-> _]. now apply IH.
Qed.

Lemma units_of_inj (a b : string) :
  is_ascii a = true -> is_ascii b = true ->
  Wide.units_of a = Wide.units_of b -> a = b.
Proof.
  revert b. induction a as [|x a IH]; intros [|y b] Ha Hb.
  - reflexivity.
  - apply is_ascii_cons in Hb as [Hy _]. rewrite (units_of_cons y b Hy). discriminate.
  - apply is_ascii_cons in Ha as [Hx _]. rewrite (units_of_cons x a Hx). discriminate.
  - apply is_ascii_cons in Ha as [Hx Ha]. apply is_ascii_cons in Hb as [Hy Hb].
    rewrite (units_of_cons x a Hx), (units_of_cons y b Hy).
    intros E. injection E as E1 E2.
    apply (f_equal ascii_of_N) in E1. rewrite !ascii_N_embedding in E1.
    subst y. f_equal. now apply IH.
Qed.

Lemma units_of_eqb (a b : string) :
  is_ascii a = true -> is_ascii b = true ->
  Wide.eqb (Wide.units_of a) (Wide.units_of b) = (a =? b).
Proof.
  intros Ha Hb. destruct (String.eqb_spec a b) as [->|N].
  - now apply Wide_eqb_eq.
  - destruct (Wide.eqb _ _) eqn:E; [|reflexivity].
    apply Wide_eqb_eq in E. exfalso. apply N. now apply units_of_inj.
Qed.

Lemma units_of_case (s : string) :
  is_ascii s = true ->
  Wide.units_of (toUpperCase s) = map upper_unit (Wide.units_of s) /\
  Wide.units_of (toLowerCase s) = map lower_unit (Wide.units_of s) /\
  is_ascii (toUpperCase s) = true /\ is_ascii (toLowerCase s) = true.
Proof.
  induction s as [|a s IH]; [repeat split|].
  intros H. apply is_ascii_cons in H as [Ha Hs].
  destruct (IH Hs) as (U & L & AU & AL).
  destruct (ascii_char_units a Ha) as (_ & _ & _ & _ & _ & Eu & El & Au & Al).
  unfold toUpperCase, toLowerCase in *. cbn [map_string].
  rewrite (units_of_cons _ _ Au), (units_of_cons _ _ Al), (units_of_cons _ _ Ha).
  cbn [map]. rewrite U, L, Eu, El.
  repeat split; apply is_ascii_cons; split; assumption.
Qed.

Lemma units_of_trimStart (s : string) :
  is_ascii s = true ->
  Wide.units_of (trimStart s) = Wide.trimStart (Wide.units_of s) /\
  is_ascii (trimStart s) = true.
Proof.
  induction s as [|a s IH]; [repeat split|].
  intros H. pose proof H as H0. apply is_ascii_cons in H as [Ha Hs].
  destruct (ascii_char_units a Ha) as (_ & Es & _).
  rewrite (units_of_cons a s Ha). cbn [trimStart Wide.trimStart]. rewrite Es.
  destruct (is_space a); [now apply IH|].
  split; [now rewrite (units_of_cons a s Ha) | exact H0].
Qed.

Lemma Wide_trimStart_snoc (l : Wide.Units) (u : N) :
  Wide.trimStart (l ++ [u])%list =
  match Wide.trimStart l with
  | [] => if Wide.is_space u then [] else [u]
  | x :: t => ((x :: t) ++ [u])%list
  end.
Proof.
  induction l as [|y l IH]; cbn [app Wide.trimStart]; [reflexivity|].
  destruct (Wide.is_space y); [exact IH | reflexivity].
Qed.

Lemma Wide_trimEnd_cons (u : N) (s : Wide.Units) :
  Wide.trimEnd (u :: s) =
  if Wide.is_space u && match Wide.trimEnd s with [] => true | _ => false end
  then [] else u :: Wide.trimEnd s.
Proof.
  unfold Wide.trimEnd. cbn [rev]. rewrite Wide_trimStart_snoc.
  destruct (Wide.trimStart (rev s)) as [|x t] eqn:E.
  - cbn [rev]. now destruct (Wide.is_space u).
  - rewrite rev_app_distr. cbn [rev app].
    destruct (rev t ++ [x])%list eqn:R.
    + now apply app_eq_nil in R as [_ R].
    + now rewrite andb_false_r.
Qed.

Lemma units_of_empty (s : string) :
  is_ascii s = true ->
  (s =? "") = match Wide.units_of s with [] => true | _ => false end.
Proof.
  destruct s as [|a s]; [reflexivity|].
  intros H. apply is_ascii_cons in H as [Ha _]. now rewrite (units_of_cons a s Ha).
Qed.

Lemma units_of_trimEnd (s : string) :
  is_ascii s = true ->
  Wide.units_of (trimEnd s) = Wide.trimEnd (Wide.units_of s) /\
  is_ascii (trimEnd s) = true.
Proof.
  induction s as [|a s IH]; [repeat split|].
  intros H. apply is_ascii_cons in H as [Ha Hs].
  destruct (IH Hs) as [E A].
  destruct (ascii_char_units a Ha) as (_ & Es & _).
  rewrite (units_of_cons a s Ha), Wide_trimEnd_cons. cbn [trimEnd]. cbv zeta.
  rewrite (units_of_empty _ A), E, Es.
  destruct (is_space a && _); [repeat split|].
  rewrite (units_of_cons _ _ Ha), E. split; [reflexivity|].
  apply is_ascii_cons. now split.
Qed.

Lemma units_of_trim (s : string) :
  is_ascii s = true ->
  Wide.units_of (trim s) = Wide.trim (Wide.units_of s) /\ is_ascii (trim s) = true.
Proof.
  intros H. unfold trim, Wide.trim.
  destruct (units_of_trimStart s H) as [E1 A1].
  destruct (units_of_trimEnd _ A1) as [E2 A2].
  now rewrite E2, E1.
Qed.

Lemma units_of_substring (n : nat) (s : string) :
  is_ascii s = true ->
  Wide.units_of (substring 0 n s) = firstn n (Wide.units_of s) /\
  is_ascii (substring 0 n s) = true.
Proof.
  revert s. induction n as [|n IH]; intros [|a s] H; try (repeat split; fail).
  apply is_ascii_cons in H as [Ha Hs]. destruct (IH s Hs) as [E A].
  cbn [substring]. rewrite (units_of_cons _ _ Ha), (units_of_cons _ _ Ha).
  cbn [firstn]. rewrite E. split; [reflexivity|].
  apply is_ascii_cons. now split.
Qed.

Lemma units_of_is_iata (s : string) :
  is_ascii s = true -> Wide.is_iata (Wide.units_of s) = is_iata s.
Proof.
  destruct s as [|a [|b [|c [|d s]]]]; intros H; try reflexivity.
  - apply is_ascii_cons in H as [Ha _]. now rewrite (units_of_cons _ _ Ha).
  - apply is_ascii_cons in H as [Ha H]. apply is_ascii_cons in H as [Hb _].
    now rewrite (units_of_cons _ _ Ha), (units_of_cons _ _ Hb).
  - apply is_ascii_cons in H as [Ha H]. apply is_ascii_cons in H as [Hb H].
    apply is_ascii_cons in H as [Hc _].
    rewrite (units_of_cons _ _ Ha), (units_of_cons _ _ Hb), (units_of_cons _ _ Hc).
    cbn [Wide.units_of Wide.is_iata is_iata].
    destruct (ascii_char_units a Ha) as (_ & _ & -> & _).
    destruct (ascii_char_units b Hb) as (_ & _ & -> & _).
    destruct (ascii_char_units c Hc) as (_ & _ & -> & _).
    reflexivity.
  - apply is_ascii_cons in H as [Ha H]. apply is_ascii_cons in H as [Hb H].
    apply is_ascii_cons in H as [Hc H]. apply is_ascii_cons in H as [Hd _].
    now rewrite (units_of_cons _ _ Ha), (units_of_cons _ _ Hb), (units_of_cons _ _ Hc),
      (units_of_cons _ _ Hd).
Qed.

Lemma units_of_letter (a : ascii) :
  is_ascii_char a = true -> Wide.is_letter (N_of_ascii a) = is_letter a.
Proof.
  intros H. destruct (ascii_char_units a H) as (_ & _ & U & L & _).
  unfold Wide.is_letter, is_letter. now rewrite U, L.
Qed.

Lemma units_of_token_here (s : string) :
  is_ascii s = true -> Wide.token_here (Wide.units_of s) = token_here s.
Proof.
  destruct s as [|a [|b [|c s]]]; intros H; try reflexivity.
  - apply is_ascii_cons in H as [Ha _]. now rewrite (units_of_cons _ _ Ha).
  - apply is_ascii_cons in H as [Ha H]. apply is_ascii_cons in H as [Hb _].
    now rewrite (units_of_cons _ _ Ha), (units_of_cons _ _ Hb).
  - apply is_ascii_cons in H as [Ha H]. apply is_ascii_cons in H as [Hb H].
    apply is_ascii_cons in H as [Hc Hs].
    rewrite (units_of_cons _ _ Ha), (units_of_cons _ _ Hb), (units_of_cons _ _ Hc).
    cbn [Wide.token_here token_here].
    rewrite (units_of_letter a Ha), (units_of_letter b Hb), (units_of_letter c Hc).
    f_equal. destruct s as [|d s]; [reflexivity|].
    apply is_ascii_cons in Hs as [Hd _]. rewrite (units_of_cons _ _ Hd).
    destruct (ascii_char_units d Hd) as (_ & _ & _ & _ & -> & _). reflexivity.
Qed.

Lemma units_of_match_token (s : string) :
  forall prev,
    is_ascii s = true ->
    Wide.match_token prev (Wide.units_of s) =
      option_map Wide.units_of (match_token prev s) /\
    (forall m, match_token prev s = Some m -> is_ascii m = true).
Proof.
  induction s as [|a s IH]; intros prev H; [split; [reflexivity | discriminate]|].
  pose proof H as H0. apply is_ascii_cons in H as [Ha Hs].
  pose proof (units_of_token_here _ H0) as T.
  rewrite (units_of_cons _ _ Ha) in T |- *.
  cbn [Wide.match_token match_token]. rewrite T.
  destruct (negb prev && token_here (String a s)).
  - destruct (units_of_substring 3 (String a s) H0) as [E A].
    rewrite (units_of_cons _ _ Ha) in E. cbn [option_map]. rewrite E.
    split; [reflexivity|]. intros m M; injection M as <-. exact A.
  - destruct (ascii_char_units a Ha) as (_ & _ & _ & _ & -> & _). now apply IH.
Qed.

Lemma units_of_assoc (table : list (string * string)) (k : string) :
  forallb wideEntry table = true ->
  is_ascii k = true ->
  Wide.assoc (Wide.units_of k) (Wide.table_of table) =
    option_map Wide.units_of (assoc k table).
Proof.
  intros Ht Hk. induction table as [|[k' v'] table IH]; [reflexivity|].
  cbn [forallb] in Ht. apply andb_true_iff in Ht as [H1 H2].
  cbn [Wide.table_of map Wide.assoc assoc fst snd].
  assert (E : Wide.eqb (Wide.units_of k) (Wide.units_of k') = (k =? k')).
  { unfold wideEntry in H1. cbn [fst snd] in H1.
    apply andb_true_iff in H1 as [H1 _]. apply andb_true_iff in H1 as [_ H1].
    apply orb_true_iff in H1 as [A | A]; [now apply units_of_eqb|].
    apply negb_true_iff in A.
    destruct (String.eqb_spec k k') as [->|_].
    - now rewrite (units_of_ascii _ Hk) in A.
    - destruct (Wide.eqb _ _) eqn:Q; [|reflexivity].
      apply Wide_eqb_eq in Q. rewrite <- Q, (units_of_ascii _ Hk) in A. discriminate. }
  rewrite E. destruct (k =? k'); [reflexivity | now apply IH].
Qed.

Lemma units_of_inherited (k : string) :
  is_ascii k = true -> Wide.inherited (Wide.units_of k) = inherited k.
Proof.
  intros Hk. unfold Wide.inherited, inherited.
  assert (A : forallb is_ascii object_prototype_keys = true) by reflexivity.
  induction object_prototype_keys as [|x l IH]; [reflexivity|].
  cbn [forallb] in A. apply andb_true_iff in A as [Ax Al].
  cbn [map existsb]. now rewrite (units_of_eqb k x Hk Ax), IH.
Qed.

Lemma entry_is_ascii (table : list (string * string)) (k v : string) :
  forallb wideEntry table = true -> assoc k table = Some v ->
  is_ascii v = true /\ v <> "".
Proof.
  intros Ht Ha. pose proof (assoc_forallb wideEntry _ _ _ Ht Ha) as E.
  unfold wideEntry in E. cbn [fst snd] in E.
  apply andb_true_iff in E as [E A]. apply andb_true_iff in E as [E _].
  apply andb_true_iff in E as [E _]. split; [exact A|].
  intros ->. discriminate E.
Qed.

(** On an ASCII input the two embeddings of [getCityCode] give the same
    result, for every case mapping that maps ASCII text as the language
    does. *)
Lemma getCityCode_on_ascii (c : Wide.Casing) (city : string) :
  lawful c ->
  is_ascii city = true ->
  wide (MultiAPI.getCityCode city) =
    Some (Wide.OfMultiAPI.getCityCode c (Wide.units_of city)) /\
  wide (FlightsService.getCityCode city) =
    Some (Wide.OfFlightsService.getCityCode c (Wide.units_of city)).
Proof.
  intros L H.
  destruct (units_of_trim city H) as [Et At].
  destruct (units_of_case (trim city) At) as (Eu & _ & Au & _).
  destruct (units_of_case city H) as (_ & El & _ & Al).
  destruct (units_of_trim (toLowerCase city) Al) as [En An].
  destruct (units_of_substring 3 city H) as [Es As].
  destruct (units_of_case (substring 0 3 city) As) as (Ef & _ & _ & _).
  destruct (units_of_match_token city false H) as [Em Am].
  assert (U1 : Wide.toUpperCase c (Wide.trim (Wide.units_of city)) =
               Wide.units_of (toUpperCase (trim city))).
  { rewrite Eu, Et. apply L. rewrite <- Et. now apply units_of_ascii. }
  assert (U2 : Wide.trim (Wide.toLowerCase c (Wide.units_of city)) =
               Wide.units_of (trim (toLowerCase city))).
  { rewrite En, El. f_equal. apply L. now apply units_of_ascii. }
  assert (U3 : Wide.toUpperCase c (firstn 3 (Wide.units_of city)) =
               Wide.units_of (toUpperCase (substring 0 3 city))).
  { rewrite Ef, Es. apply L. rewrite <- Es. now apply units_of_ascii. }
  assert (I : Wide.is_iata (Wide.units_of (toUpperCase (trim city))) =
              is_iata (toUpperCase (trim city)))
    by now apply units_of_is_iata.
  split.
  - unfold Wide.OfMultiAPI.getCityCode, Wide.OfMultiAPI.cityMap, MultiAPI.getCityCode.
    cbv zeta. rewrite U1, U2, U3, I.
    destruct (is_iata (toUpperCase (trim city))); [reflexivity|].
    unfold Wide.literal_get, literal_get.
    rewrite (units_of_assoc _ _ (proj1 wide_tables) An), (units_of_inherited _ An).
    destruct (assoc (trim (toLowerCase city)) MultiAPI.cityMap) as [v|] eqn:Ea;
      cbn [option_map].
    + destruct (entry_is_ascii _ _ _ (proj1 wide_tables) Ea) as [Av Nv].
      destruct v as [|x v]; [contradiction|].
      apply is_ascii_cons in Av as [Ax _].
      unfold or_else. cbn [truthy String.eqb negb wide].
      rewrite (units_of_cons _ _ Ax). reflexivity.
    + destruct (inherited (trim (toLowerCase city))); reflexivity.
  - rewrite FlightsService_getCityCode_unfold.
    unfold Wide.OfFlightsService.getCityCode, Wide.OfFlightsService.cityMap.
    cbv zeta. rewrite U1, U2, U3, I, Em.
    destruct (is_iata (toUpperCase (trim city))); [reflexivity|].
    unfold Wide.literal_get, literal_get.
    rewrite (units_of_assoc _ _ (proj2 wide_tables) An), (units_of_inherited _ An).
    assert (F : wide (JStr (toUpperCase match match_token false city with
                                         | Some m => m
                                         | None => substring 0 3 city
                                         end)) =
                Some match option_map Wide.units_of (match_token false city) with
                     | Some m => Wide.Str (Wide.toUpperCase c m)
                     | None => Wide.Str (Wide.units_of (toUpperCase (substring 0 3 city)))
                     end).
    { destruct (match_token false city) as [m|] eqn:M; cbn [option_map wide];
        [|reflexivity].
      destruct (units_of_case m (Am m eq_refl)) as (Eum & _).
      rewrite Eum. do 2 f_equal. symmetry. apply L.
      now apply units_of_ascii, Am. }
    destruct (assoc (trim (toLowerCase city)) FlightsService.cityMap) as [v|] eqn:Ea;
      cbn [option_map].
    + destruct (entry_is_ascii _ _ _ (proj2 wide_tables) Ea) as [Av Nv].
      destruct v as [|x v]; [contradiction|].
      apply is_ascii_cons in Av as [Ax _].
      cbn [truthy String.eqb negb wide].
      rewrite (units_of_cons _ _ Ax). reflexivity.
    + destruct (inherited (trim (toLowerCase city))); [reflexivity|].
      cbn [truthy Wide.truthy]. exact F.
Qed.

(** ** Reliability *)

Lemma Qltb_lt (a b : Q) : Qltb a b = true <-> (a < b)%Q.
Proof.
  unfold Qltb. rewrite Qlt_alt. destruct (a ?= b)%Q; split; congruence.
Qed.

Lemma Qltb_num_or0 (o : option Q) :
  Qltb 0 (num_or0 o) = match o with Some x => Qltb 0 x | None => false end.
Proof.
  destruct o as [x|]; [|reflexivity]. unfold num_or0.
  destruct (Qeq_bool x 0) eqn:E; [|reflexivity].
  apply Qeq_bool_eq in E. unfold Qltb.
  assert (H : (0 ?= x)%Q = Eq) by (apply Qeq_alt; now symmetry).
  rewrite H. reflexivity.
Qed.

Lemma price_test (v : JsVal) :
  truthy v && match parseFloat v with Some x => Qltb 0 x | None => false end =
  Qltb 0 (num_or0 (parseFloat v)).
Proof.
  rewrite Qltb_num_or0.
  destruct v as [ | |[|]|q|s|items|fields|k]; try reflexivity.
  - cbn [truthy parseFloat]. destruct (Qeq_bool q 0) eqn:E; [|reflexivity].
    apply Qeq_bool_eq in E. cbn [negb andb]. symmetry.
    destruct (Qltb 0 q) eqn:L; [|reflexivity].
    apply Qltb_lt in L. rewrite E in L. now apply Qlt_irrefl in L.
  - destruct s; reflexivity.
Qed.

Lemma detail_test (flight : RawFlight) :
  match raw_detalhes flight with
  | Some d => match ida d with
              | Some legs => (0 <? length legs)%nat
              | None => false
              end
  | None => false
  end = match outboundDetail flight with [] => false | _ :: _ => true end.
Proof.
  unfold outboundDetail. destruct (raw_detalhes flight) as [d|]; [|reflexivity].
  destruct (ida d) as [[|l ls]|]; reflexivity.
Qed.



(** ** Duplicates *)

Lemma map_get_set_same {V : Type} (k : string) (v : V) (m : Map V) :
  map_get k (map_set k v m) = Some v.
Proof.
  unfold map_get. induction m as [|[k' v'] m IH]; simpl.
  - now rewrite String.eqb_refl.
  - destruct (String.eqb_spec k k') as [->|N]; simpl.
    + now rewrite String.eqb_refl.
    + destruct (String.eqb_spec k k'); [contradiction | exact IH].
Qed.

Lemma replaces_iff (flight existing : Offer) :
  MultiAPI.replaces flight existing = true <->
  (confiabilidade existing < confiabilidade flight)%Q \/
  (MultiAPI.idaLength existing < MultiAPI.idaLength flight)%nat.
Proof.
  unfold MultiAPI.replaces. rewrite orb_true_iff, Qltb_lt, Nat.ltb_lt. tauto.
Qed.

Lemma strict_eq_refl : forall v : JsVal, strict_eq v v = true.
Proof.
  fix IH 1. intros [ | |b|q|s|items|fields|k]; cbn [strict_eq]; try reflexivity.
  - apply Bool.eqb_reflx.
  - apply Qeq_bool_refl.
  - apply String.eqb_refl.
  - induction items as [|x xs IHxs]; [reflexivity|]. now rewrite IH, IHxs.
  - induction fields as [|[k v] fs IHfs]; [reflexivity|].
    now rewrite String.eqb_refl, IH, IHfs.
  - apply String.eqb_refl.
Qed.

(** Two offers with one key collapse to one of them. *)
Lemma deduplicateFlights_pair (a b : Offer) :
  MultiAPI.dedupKey b = MultiAPI.dedupKey a ->
  MultiAPI.deduplicateFlights [a; b] = [if MultiAPI.replaces b a then b else a].
Proof.
  intros K. unfold MultiAPI.deduplicateFlights. cbn [fold_left].
  unfold MultiAPI.dedupStep at 2. cbn [map_get assoc map_set app].
  unfold MultiAPI.dedupStep. rewrite K. cbn [map_get assoc].
  rewrite String.eqb_refl.
  destruct (MultiAPI.replaces b a); [|reflexivity].
  cbn [findIndex]. rewrite strict_eq_refl. reflexivity.
Qed.

Example dedup_keeps_more_reliable :
  MultiAPI.deduplicateFlights
    [ Examples.sample "x" "AMADEUS" "LATAM" 500 0.9 [];
      Examples.sample "y" "AVIATIONSTACK" "LATAM" 0 0.6 [] ] =
  [ Examples.sample "x" "AMADEUS" "LATAM" 500 0.9 [] ].
Proof. reflexivity. Qed.

(** C3, as stated, fails.  A stored offer of reliability 1.0 with one
    outbound leg is replaced by an incoming offer with the same key, the
    lower reliability 0.9 and two outbound legs, although the incoming
    offer has neither a higher reliability nor an equal one. *)
Lemma dedup_replaces_more_reliable :
  MultiAPI.dedupKey Examples.viaCGH = MultiAPI.dedupKey Examples.direct /\
  MultiAPI.deduplicateFlights [Examples.direct; Examples.viaCGH] = [Examples.viaCGH] /\
  ~ replacesByRank Examples.viaCGH Examples.direct.
Proof.
  split; [reflexivity|]. split; [reflexivity|].
  intros [H | [H _]]; vm_compute in H; congruence.
Qed.

Lemma findIndex_middle {A : Type} (p : A -> bool) (before after : list A) (x : A) :
  (forall f, In f before -> p f = false) ->
  p x = true ->
  findIndex p (before ++ x :: after) = Some (length before).
Proof.
  intros Hb Hx. induction before as [|y before IH]; cbn [app findIndex length].
  - now rewrite Hx.
  - rewrite (Hb y (or_introl eq_refl)), IH; [reflexivity|].
    intros f Hf. apply Hb. now right.
Qed.

Lemma set_nth_middle {A : Type} (before after : list A) (x v : A) :
  set_nth (length before) v (before ++ x :: after) = (before ++ v :: after)%list.
Proof.
  induction before as [|y before IH]; cbn [app set_nth length]; [reflexivity|].
  now rewrite IH.
Qed.

(** C3, amended.  When an incoming offer collides on the dedup key with
    the stored offer, the stored offer is replaced if and only if the
    incoming offer has a strictly higher reliability or a strictly longer
    outbound segment list, whatever the two reliabilities are.  If it is
    replaced, the incoming offer takes its place in the map and in the
    list of survivors, which is otherwise unchanged; if not, map and list
    stay as they are.  The place in the list is looked up by id: the
    statement is for a stored offer whose id no survivor before it
    shares.  So, when the loop has reached that state on a list of
    offers, the list that [deduplicateFlights] returns for these offers
    followed by the incoming one is the list of survivors with the
    incoming offer in the place of the stored one if it replaces it, and
    the list of survivors as it was if not; and a list of two offers with
    one key is reduced to the second offer if it replaces the first, and
    to the first if not. *)
Theorem dedup_replacement_rule (seen : Map Offer) (before after : list Offer)
    (flight existing : Offer) :
  map_get (MultiAPI.dedupKey flight) seen = Some existing ->
  (forall f, In f before -> strict_eq (id f) (id existing) = false) ->
  (MultiAPI.replaces flight existing = true <->
   (confiabilidade existing < confiabilidade flight)%Q \/
   (MultiAPI.idaLength existing < MultiAPI.idaLength flight)%nat) /\
  MultiAPI.dedupStep (seen, (before ++ existing :: after)%list) flight =
    (if MultiAPI.replaces flight existing
     then (map_set (MultiAPI.dedupKey flight) flight seen,
           (before ++ flight :: after)%list)
     else (seen, (before ++ existing :: after)%list)) /\
  map_get (MultiAPI.dedupKey flight)
          (fst (MultiAPI.dedupStep (seen, (before ++ existing :: after)%list) flight)) =
    Some (if MultiAPI.replaces flight existing then flight else existing) /\
  (forall flights,
      fold_left MultiAPI.dedupStep flights ([], []) =
        (seen, (before ++ existing :: after)%list) ->
      MultiAPI.deduplicateFlights (flights ++ [flight]) =
        (before ++ (if MultiAPI.replaces flight existing then flight else existing)
                :: after)%list) /\
  (MultiAPI.dedupKey flight = MultiAPI.dedupKey existing ->
   MultiAPI.deduplicateFlights [existing; flight] =
     [if MultiAPI.replaces flight existing then flight else existing]).
Proof.
  intros Hs Hb.
  assert (E : MultiAPI.dedupStep (seen, (before ++ existing :: after)%list) flight =
              (if MultiAPI.replaces flight existing
               then (map_set (MultiAPI.dedupKey flight) flight seen,
                     (before ++ flight :: after)%list)
               else (seen, (before ++ existing :: after)%list))).
  { unfold MultiAPI.dedupStep. rewrite Hs.
    destruct (MultiAPI.replaces flight existing); [|reflexivity].
    rewrite (findIndex_middle _ before after existing Hb (strict_eq_refl _)).
    now rewrite set_nth_middle. }
  split; [apply replaces_iff|]. split; [exact E|]. split.
  - rewrite E. destruct (MultiAPI.replaces flight existing); cbn [fst].
    + apply map_get_set_same.
    + exact Hs.
  - split; [|apply deduplicateFlights_pair].
    intros flights Hf. unfold MultiAPI.deduplicateFlights.
    rewrite fold_left_app, Hf. cbn [fold_left]. rewrite E.
    now destruct (MultiAPI.replaces flight existing).
Qed.

Lemma dedup_replacement_rule_witness :
  MultiAPI.dedupStep
    ([ (MultiAPI.dedupKey Examples.at800, Examples.at800);
       (MultiAPI.dedupKey Examples.direct, Examples.direct) ],
     [Examples.at800; Examples.direct; Examples.at500])
    Examples.viaCGH =
  ([ (MultiAPI.dedupKey Examples.at800, Examples.at800);
     (MultiAPI.dedupKey Examples.direct, Examples.viaCGH) ],
   [Examples.at800; Examples.viaCGH; Examples.at500]).
Proof.
  assert (H : forall f, In f [Examples.at800] ->
                        strict_eq (id f) (id Examples.direct) = false).
  { intros f [<-|[]]. reflexivity. }
  exact (proj1 (proj2 (dedup_replacement_rule
                         [ (MultiAPI.dedupKey Examples.at800, Examples.at800);
                           (MultiAPI.dedupKey Examples.direct, Examples.direct) ]
                         [Examples.at800] [Examples.at500]
                         Examples.viaCGH Examples.direct eq_refl H))).
Defined.

(** ** Ordering *)

Lemma compareFlights_ranked (a b : Offer) :
  Qle_bool (MultiAPI.compareFlights a b) 0 = true <-> ranked a b.
Proof.
  rewrite Qle_bool_iff. unfold MultiAPI.compareFlights, ranked.
  destruct (Qeq_bool (confiabilidade b) (confiabilidade a)) eqn:E; cbn [negb].
  - apply Qeq_bool_eq in E. split.
    + intros H. right. split; [now symmetry | lra].
    + intros [H | [_ H]]; lra.
  - apply Qeq_bool_neq in E. split.
    + intros H. left. apply Qle_lt_or_eq in H. destruct H as [H | H]; [lra|].
      exfalso. apply E. lra.
    + intros [H | [H _]]; [lra|]. exfalso. apply E. now symmetry.
Qed.

Lemma ranked_total (a b : Offer) : ranked a b \/ ranked b a.
Proof.
  unfold ranked.
  destruct (Q_dec (confiabilidade a) (confiabilidade b)) as [[H | H] | H].
  - right; now left.
  - left; now left.
  - destruct (Qlt_le_dec (preco b) (preco a)) as [L | L].
    + right; right. split; [now symmetry | lra].
    + left; right. now split.
Qed.

Lemma ranked_trans (a b c : Offer) : ranked a b -> ranked b c -> ranked a c.
Proof.
  unfold ranked. intros [H1 | [H1 P1]] [H2 | [H2 P2]].
  - left; lra.
  - left; lra.
  - left; lra.
  - right; split; lra.
Qed.

Section Sorting.

Context {A : Type} (cmp : A -> A -> Q) (R : A -> A -> Prop).
Hypothesis cmp_R : forall x y, Qle_bool (cmp x y) 0 = true -> R x y.
Hypothesis cmp_R_flip : forall x y, Qle_bool (cmp x y) 0 = false -> R y x.
Hypothesis R_trans : forall x y z, R x y -> R y z -> R x z.

Lemma sort_insert_perm (x : A) (l : list A) :
  Permutation (x :: l) (sort_insert cmp x l).
Proof.
  induction l as [|y l IH]; simpl; [reflexivity|].
  destruct (Qle_bool (cmp x y) 0); [reflexivity|].
  rewrite perm_swap. now constructor.
Qed.

Lemma sort_perm (l : list A) : Permutation l (sort cmp l).
Proof.
  induction l as [|x l IH]; simpl; [constructor|].
  rewrite <- sort_insert_perm. now constructor.
Qed.

Lemma sort_insert_sorted (x : A) (l : list A) :
  StronglySorted R l -> StronglySorted R (sort_insert cmp x l).
Proof.
  induction 1 as [|y l Hs IH Hy]; simpl.
  - repeat constructor.
  - destruct (Qle_bool (cmp x y) 0) eqn:E.
    + constructor; [now constructor|].
      apply cmp_R in E. constructor; [exact E|].
      eapply Forall_impl; [|exact Hy]. intros z; now apply R_trans.
    + constructor; [exact IH|].
      apply (Permutation_Forall (sort_insert_perm x l)).
      constructor; [now apply cmp_R_flip | exact Hy].
Qed.

Lemma sort_sorted (l : list A) : StronglySorted R (sort cmp l).
Proof.
  induction l as [|x l IH]; simpl; [constructor | now apply sort_insert_sorted].
Qed.

End Sorting.

Lemma sort_compareFlights_sorted (l : list Offer) :
  StronglySorted ranked (sort MultiAPI.compareFlights l).
Proof.
  apply sort_sorted.
  - intros x y; apply compareFlights_ranked.
  - intros x y E. destruct (ranked_total x y) as [H | H]; [|exact H].
    apply compareFlights_ranked in H. congruence.
  - apply ranked_trans.
Qed.

Lemma searchFlightsMultiAPI_returns (cfg : MultiAPI.Config) (w : World) (req : Request) :
  MultiAPI.searchFlightsMultiAPI cfg w req =
  Ok (MultiAPI.summarize
        (fst (MultiAPI.joinTasks cfg (MultiAPI.searchTask cfg w req)
                (order_of (completion w))))
        (snd (MultiAPI.joinTasks cfg (MultiAPI.searchTask cfg w req)
                (order_of (completion w))))).
Proof.
  unfold MultiAPI.searchFlightsMultiAPI, MultiAPI.searchFlightsWith.
  now destruct (MultiAPI.joinTasks _ _ _).
Qed.

(** C5.  Every search returns, and the list it returns is the
    deduplicated list put in order: reliability descending, and price
    ascending among offers of equal reliability.  Offers with
    reliabilities 0.9, 0.9, 0.5 and prices 800, 500, 100 come out as
    500@0.9, 800@0.9, 100@0.5. *)
Theorem searchFlightsMultiAPI_ordering :
  (forall (cfg : MultiAPI.Config) (w : World) (req : Request),
      exists r,
        MultiAPI.searchFlightsMultiAPI cfg w req = Ok r /\
        StronglySorted ranked (MultiAPI.voos r) /\
        Permutation
          (MultiAPI.deduplicateFlights
             (fst (MultiAPI.joinTasks cfg (MultiAPI.searchTask cfg w req)
                     (order_of (completion w)))))
          (MultiAPI.voos r)) /\
  MultiAPI.voos
    (MultiAPI.summarize [Examples.at800; Examples.at500; Examples.at100] []) =
  [Examples.at500; Examples.at800; Examples.at100].
Proof.
  split; [|reflexivity].
  intros cfg w req. eexists. split; [apply searchFlightsMultiAPI_returns|].
  cbn [MultiAPI.summarize MultiAPI.voos]. split.
  - apply sort_compareFlights_sorted.
  - apply sort_perm.
Qed.

(** ** Reasoning about outcomes *)

Lemma ExcSat_bind {A B : Type} (pre : A -> Prop) (post : B -> Prop)
    (c : Exc A) (k : A -> Exc B) :
  ExcSat pre c -> (forall a, pre a -> ExcSat post (k a)) -> ExcSat post (bind c k).
Proof. destruct c as [a|e]; simpl; auto. Qed.

Lemma ExcSat_bind_any {A B : Type} (post : B -> Prop) (c : Exc A) (k : A -> Exc B) :
  (forall a, ExcSat post (k a)) -> ExcSat post (bind c k).
Proof. destruct c as [a|e]; simpl; auto. Qed.

Lemma ExcSat_try_catch {A : Type} (post : A -> Prop) (c : Exc A)
    (h : JsError -> Exc A) :
  ExcSat post c -> (forall e, ExcSat post (h e)) -> ExcSat post (try_catch c h).
Proof. destruct c as [a|e]; simpl; auto. Qed.

Lemma try_catch_swallow (c : Exc (list Offer)) :
  try_catch c (fun _ => Ok []) = Ok (delivered c).
Proof. now destruct c. Qed.

Lemma ExcSat_delivered (post : list Offer -> Prop) (c : Exc (list Offer)) :
  post [] -> ExcSat post c -> post (delivered c).
Proof. destruct c; simpl; auto. Qed.

Create HintDb flights.
#[local] Hint Resolve Forall_nil : flights.

(** ** Lists *)

Lemma Forall_mapi_from {A B : Type} (P : B -> Prop) (f : A -> nat -> B)
    (l : list A) :
  (forall x i, P (f x i)) -> forall i, Forall P (mapi_from i f l).
Proof.
  intros H. induction l as [|x l IH]; intros i; simpl; constructor; auto.
Qed.

Lemma Forall_concat_mapi_from {A B : Type} (P : B -> Prop)
    (f : A -> nat -> list B) (l : list A) :
  (forall x i, Forall P (f x i)) -> forall i, Forall P (concat (mapi_from i f l)).
Proof.
  intros H. induction l as [|x l IH]; intros i; simpl; [constructor|].
  apply Forall_app. split; auto.
Qed.

Lemma Forall_set_nth {A : Type} (P : A -> Prop) (v : A) (l : list A) :
  P v -> Forall P l -> forall i, Forall P (set_nth i v l).
Proof.
  intros Hv. induction 1 as [|x l Hx Hl IH]; intros i; simpl; [constructor|].
  destruct i; constructor; auto.
Qed.

Lemma length_mapi_from {A B : Type} (f : A -> nat -> B) (l : list A) (i : nat) :
  length (mapi_from i f l) = length l.
Proof. revert i; induction l as [|x l IH]; intros i; simpl; auto. Qed.

(** ** The adapters *)

Lemma normalizeFlight_fonte (w : World) (flight : RawFlight) (source : string) :
  fonte (MultiAPI.normalizeFlight w flight source) = source.
Proof. reflexivity. Qed.

Lemma searchAmadeus_returns (cfg : MultiAPI.Config) (w : World) (req : Request) :
  exists flights,
    MultiAPI.searchAmadeus cfg w req = Ok flights /\
    Forall (fun f => fonte f = "AMADEUS") flights.
Proof.
  unfold MultiAPI.searchAmadeus.
  destruct (negb (MultiAPI.amadeus_enabled cfg)); [now exists []|].
  rewrite try_catch_swallow. eexists; split; [reflexivity|].
  apply ExcSat_delivered; [constructor|].
  apply ExcSat_bind_any; intros token.
  apply ExcSat_bind_any; intros dataIda.
  apply ExcSat_bind_any; intros dataVolta.
  apply ExcSat_bind_any; intros [[|o offers]|]; simpl; auto with flights.
  constructor; [reflexivity|]. now apply Forall_mapi_from.
Qed.

Lemma searchAviationStack_returns (cfg : MultiAPI.Config) (w : World) (req : Request) :
  exists flights,
    MultiAPI.searchAviationStack cfg w req = Ok flights /\
    Forall (fun f => fonte f = "AVIATIONSTACK") flights.
Proof.
  unfold MultiAPI.searchAviationStack.
  destruct (negb (MultiAPI.aviationstack_enabled cfg)); [now exists []|].
  rewrite try_catch_swallow. eexists; split; [reflexivity|].
  apply ExcSat_delivered; [constructor|].
  apply ExcSat_bind_any; intros dataIda.
  apply ExcSat_bind_any; intros [[|o offers]|]; simpl; auto with flights.
  constructor; [reflexivity|]. now apply Forall_mapi_from.
Qed.

Lemma pushVoos_fonte (w : World) (o d : JsVal) (lista : list JsVal) :
  Forall (fun f => fonte f = "TRAVELLINK") (MultiAPI.pushVoos w o d lista).
Proof.
  unfold MultiAPI.pushVoos, mapi. apply Forall_concat_mapi_from.
  intros voo i. destruct (truthy voo && typeof_object voo); repeat constructor.
Qed.

Lemma processarResultadosTravelLink_fonte (w : World) (resultado o d : JsVal) :
  Forall (fun f => fonte f = "TRAVELLINK")
         (MultiAPI.processarResultadosTravelLink w resultado o d).
Proof.
  unfold MultiAPI.processarResultadosTravelLink.
  destruct (is_nullish resultado); [constructor|].
  destruct (negb (truthy (MultiAPI.unwrapDados resultado)) || _); [constructor|].
  destruct (MultiAPI.unwrapDados resultado) as [ | |b|q|s|items|fields|k];
    cbn [truthy typeof_object andb]; try constructor;
    try apply pushVoos_fonte.
  - destruct b; constructor.
  - destruct (negb (Qeq_bool q 0)); constructor.
  - destruct (negb (s =? "")); constructor.
  - destruct (_ ||| _) as [ | | | | |[|v rest]| |]; try apply pushVoos_fonte;
      destruct (_ && _); repeat constructor.
  - destruct (k =? "__proto__"); [|constructor].
    destruct (_ ||| _) as [ | | | | |[|v rest]| |]; try apply pushVoos_fonte;
      destruct (_ && _); repeat constructor.
Qed.

Lemma searchTravelLink_returns (cfg : MultiAPI.Config) (w : World) (req : Request) :
  exists flights,
    MultiAPI.searchTravelLink cfg w req = Ok flights /\
    Forall (fun f => fonte f = "TRAVELLINK") flights.
Proof.
  unfold MultiAPI.searchTravelLink.
  destruct (negb (MultiAPI.travellink_enabled cfg)); [now exists []|].
  rewrite try_catch_swallow. eexists; split; [reflexivity|].
  apply ExcSat_delivered; [constructor|].
  apply ExcSat_bind_any; intros dataIda.
  apply ExcSat_bind_any; intros dataVolta.
  apply ExcSat_bind_any; intros client.
  apply ExcSat_bind_any; intros _.
  apply (ExcSat_bind
           (fun called => match called with
                          | Return voos => voos = []
                          | Next _ => True
                          end)).
  - apply ExcSat_try_catch.
    + apply ExcSat_bind_any; intros resultado. exact I.
    + intros err. destruct (_ && _); simpl; auto.
  - intros [resultado | voos] H.
    + destruct (is_nullish resultado); [constructor|].
      destruct (_ && _); [constructor|].
      apply processarResultadosTravelLink_fonte.
    + subst voos. constructor.
Qed.

(** ** The join *)

Lemma joinTasks_fold (cfg : MultiAPI.Config) (task : Provider -> Exc (list Offer))
    (order : list Provider) :
  forall results errors,
    fold_left (fun st p => if MultiAPI.enabled cfg p
                           then MultiAPI.settle p (task p) st else st)
              order (results, errors) =
    ((results ++ offersOf task (filter (MultiAPI.enabled cfg) order))%list,
     (errors ++ errorsOf task (filter (MultiAPI.enabled cfg) order))%list).
Proof.
  unfold offersOf, errorsOf.
  induction order as [|p order IH]; intros results errors; cbn [fold_left filter].
  - cbn. now rewrite !app_nil_r.
  - destruct (MultiAPI.enabled cfg p); [|apply IH].
    cbn [map concat flat_map]. unfold MultiAPI.settle at 2.
    destruct (task p) as [flights|e]; cbn [fst snd delivered app];
      rewrite IH; now rewrite <- ?app_assoc.
Qed.

Lemma joinTasks_spec (cfg : MultiAPI.Config) (task : Provider -> Exc (list Offer))
    (order : list Provider) :
  MultiAPI.joinTasks cfg task order =
  (offersOf task (filter (MultiAPI.enabled cfg) order),
   errorsOf task (filter (MultiAPI.enabled cfg) order)).
Proof. unfold MultiAPI.joinTasks. now rewrite joinTasks_fold. Qed.

Lemma errorsOf_fulfilled (task : Provider -> Exc (list Offer)) (ps : list Provider) :
  (forall p, exists flights, task p = Ok flights) -> errorsOf task ps = [].
Proof.
  intros H. unfold errorsOf. induction ps as [|p ps IH]; simpl; [reflexivity|].
  destruct (H p) as [flights ->]. exact IH.
Qed.

Lemma searchTask_returns (cfg : MultiAPI.Config) (w : World) (req : Request)
    (p : Provider) :
  exists flights,
    MultiAPI.searchTask cfg w req p = Ok flights /\ Forall knownSource flights.
Proof.
  unfold knownSource. destruct p; simpl.
  - destruct (searchTravelLink_returns cfg w req) as (l & E & H).
    exists l; split; [exact E|]. eapply Forall_impl; [|exact H]. simpl; tauto.
  - destruct (searchAmadeus_returns cfg w req) as (l & E & H).
    exists l; split; [exact E|]. eapply Forall_impl; [|exact H]. simpl; tauto.
  - destruct (searchAviationStack_returns cfg w req) as (l & E & H).
    exists l; split; [exact E|]. eapply Forall_impl; [|exact H]. simpl; tauto.
Qed.

Lemma offersOf_Forall (P : Offer -> Prop) (task : Provider -> Exc (list Offer))
    (ps : list Provider) :
  (forall p, ExcSat (Forall P) (task p)) -> Forall P (offersOf task ps).
Proof.
  intros H. unfold offersOf. induction ps as [|p ps IH]; simpl; [constructor|].
  apply Forall_app; split; [|exact IH].
  specialize (H p). destruct (task p); simpl; auto.
Qed.

(** ** Survivors of the deduplication *)

Lemma dedupStep_Forall (P : Offer -> Prop) (st : Map Offer * list Offer)
    (flight : Offer) :
  P flight -> Forall P (snd st) -> Forall P (snd (MultiAPI.dedupStep st flight)).
Proof.
  intros Hf Hu. destruct st as [seen unique]. unfold MultiAPI.dedupStep.
  destruct (map_get _ seen) as [existing|]; cbn [snd] in *.
  - destruct (MultiAPI.replaces flight existing); cbn [snd]; [|exact Hu].
    destruct (findIndex _ unique); [now apply Forall_set_nth | exact Hu].
  - apply Forall_app; split; [exact Hu | now constructor].
Qed.

Lemma deduplicateFlights_Forall (P : Offer -> Prop) (flights : list Offer) :
  Forall P flights -> Forall P (MultiAPI.deduplicateFlights flights).
Proof.
  unfold MultiAPI.deduplicateFlights.
  assert (G : forall st, Forall P flights -> Forall P (snd st) ->
                         Forall P (snd (fold_left MultiAPI.dedupStep flights st))).
  { induction flights as [|f fs IH]; intros st Hf Hs; simpl; [exact Hs|].
    inversion Hf; subst. apply IH; [assumption|]. now apply dedupStep_Forall. }
  intros H. apply G; [exact H | constructor].
Qed.

Lemma count_by_source (flights : list Offer) :
  Forall knownSource flights ->
  length flights =
  (length (filter (fun f => (fonte f =? "TRAVELLINK")%string) flights) +
   length (filter (fun f => (fonte f =? "AMADEUS")%string) flights) +
   length (filter (fun f => (fonte f =? "AVIATIONSTACK")%string) flights))%nat.
Proof.
  induction 1 as [|f fs Hf Hfs IH]; [reflexivity|].
  cbn [filter]. destruct Hf as [E | [E | E]]; rewrite E; simpl; lia.
Qed.

Lemma summarize_known (results : list Offer) (errors : list MultiAPI.ErrorRecord) :
  Forall knownSource results ->
  Forall knownSource (MultiAPI.voos (MultiAPI.summarize results errors)).
Proof.
  intros H. cbn [MultiAPI.summarize MultiAPI.voos].
  apply (Permutation_Forall (sort_perm MultiAPI.compareFlights _)).
  now apply deduplicateFlights_Forall.
Qed.

(** C10.  Every search returns a result whose statistics agree with its
    list: [total] is the length of [voos], and it is the sum of the three
    per-source counts, because every flight of the list carries one of
    the tags TRAVELLINK, AMADEUS, AVIATIONSTACK in [fonte]. *)
Theorem searchFlightsMultiAPI_statistics (cfg : MultiAPI.Config) (w : World)
    (req : Request) :
  exists r,
    MultiAPI.searchFlightsMultiAPI cfg w req = Ok r /\
    MultiAPI.total (MultiAPI.estatisticas r) = length (MultiAPI.voos r) /\
    MultiAPI.total (MultiAPI.estatisticas r) =
      (MultiAPI.travellink (MultiAPI.fontes (MultiAPI.estatisticas r)) +
       MultiAPI.amadeus (MultiAPI.fontes (MultiAPI.estatisticas r)) +
       MultiAPI.aviationstack (MultiAPI.fontes (MultiAPI.estatisticas r)))%nat /\
    Forall knownSource (MultiAPI.voos r).
Proof.
  eexists. split; [apply searchFlightsMultiAPI_returns|].
  assert (K : Forall knownSource
                (MultiAPI.voos
                   (MultiAPI.summarize
                      (fst (MultiAPI.joinTasks cfg (MultiAPI.searchTask cfg w req)
                              (order_of (completion w))))
                      (snd (MultiAPI.joinTasks cfg (MultiAPI.searchTask cfg w req)
                              (order_of (completion w))))))).
  { apply summarize_known. rewrite joinTasks_spec. cbn [fst].
    apply offersOf_Forall. intros p.
    destruct (searchTask_returns cfg w req p) as (l & -> & H). exact H. }
  split; [reflexivity|]. split; [|exact K].
  apply (count_by_source _ K).
Qed.

(** ** A provider that cannot be reached *)





Lemma all_enabled_order (cfg : MultiAPI.Config) (i : Interleaving) :
  MultiAPI.enabled cfg TRAVELLINK = true ->
  MultiAPI.enabled cfg AMADEUS = true ->
  MultiAPI.enabled cfg AVIATIONSTACK = true ->
  filter (MultiAPI.enabled cfg) (order_of i) = order_of i.
Proof.
  intros H1 H2 H3. destruct i; cbn [order_of filter]; now rewrite H1, H2, H3.
Qed.

(** What the join does with a task that rejects: it keeps the offers of
    the other tasks and writes one error record. *)
Lemma join_records_rejected_task (cfg : MultiAPI.Config)
    (task : Provider -> Exc (list Offer)) (i : Interleaving) (p : Provider)
    (e : JsError) :
  MultiAPI.enabled cfg TRAVELLINK = true ->
  MultiAPI.enabled cfg AMADEUS = true ->
  MultiAPI.enabled cfg AVIATIONSTACK = true ->
  task p = Throw e ->
  (forall q, otherThan p q = true -> exists flights, task q = Ok flights) ->
  MultiAPI.joinTasks cfg task (order_of i) =
  (offersOf task (filter (otherThan p) (order_of i)),
   [ {| MultiAPI.source := MultiAPI.sourceName p; MultiAPI.error := message e |} ]).
Proof.
  intros H1 H2 H3 Hp Hq.
  rewrite joinTasks_spec, all_enabled_order by assumption.
  unfold offersOf, errorsOf.
  destruct p.
  - destruct (Hq AMADEUS eq_refl) as [la Ea], (Hq AVIATIONSTACK eq_refl) as [lv Ev].
    destruct i; cbn [order_of filter otherThan map concat flat_map];
      rewrite Hp, Ea, Ev; cbn [delivered app]; now rewrite ?app_nil_r.
  - destruct (Hq TRAVELLINK eq_refl) as [lt Et], (Hq AVIATIONSTACK eq_refl) as [lv Ev].
    destruct i; cbn [order_of filter otherThan map concat flat_map];
      rewrite Hp, Et, Ev; cbn [delivered app]; now rewrite ?app_nil_r.
  - destruct (Hq TRAVELLINK eq_refl) as [lt Et], (Hq AMADEUS eq_refl) as [la Ea].
    destruct i; cbn [order_of filter otherThan map concat flat_map];
      rewrite Hp, Et, Ea; cbn [delivered app]; now rewrite ?app_nil_r.
Qed.

(** C1.  When exactly one of the three search tasks raises and the other
    two succeed, the search returns: its flights are the offers of the
    two tasks that succeeded, deduplicated and sorted, and the list of
    errors of its statistics holds exactly one record, which names the
    provider whose task raised and carries the message of its error.
    This holds of the join whatever the three tasks are;
    [searchFlightsMultiAPI] is the join of the tasks of the three
    adapters. *)
Theorem partial_failure_isolation (cfg : MultiAPI.Config)
    (task : Provider -> Exc (list Offer)) (i : Interleaving) (p : Provider)
    (e : JsError) :
  MultiAPI.enabled cfg TRAVELLINK = true ->
  MultiAPI.enabled cfg AMADEUS = true ->
  MultiAPI.enabled cfg AVIATIONSTACK = true ->
  task p = Throw e ->
  (forall q, otherThan p q = true -> exists flights, task q = Ok flights) ->
  (exists r,
      MultiAPI.searchFlightsWith cfg task i = Ok r /\
      MultiAPI.voos r =
        sort MultiAPI.compareFlights
          (MultiAPI.deduplicateFlights
             (offersOf task (filter (otherThan p) (order_of i)))) /\
      MultiAPI.erros (MultiAPI.estatisticas r) =
        [ {| MultiAPI.source := MultiAPI.sourceName p;
             MultiAPI.error := message e |} ]) /\
  (forall w req,
      MultiAPI.searchFlightsMultiAPI cfg w req =
      MultiAPI.searchFlightsWith cfg (MultiAPI.searchTask cfg w req) (completion w)).
Proof.
  intros H1 H2 H3 Hp Hq. split; [|reflexivity].
  unfold MultiAPI.searchFlightsWith.
  rewrite (join_records_rejected_task cfg task i p e H1 H2 H3 Hp Hq).
  eexists. split; [reflexivity|]. split; reflexivity.
Qed.

Lemma partial_failure_isolation_witness :
  exists r,
    MultiAPI.searchFlightsWith Examples.cfg3
      (fun q => match q with
                | TRAVELLINK => Ok [Examples.direct]
                | AMADEUS => Throw Examples.timeout
                | AVIATIONSTACK => Ok [Examples.at800]
                end)
      TL_AM_AV = Ok r /\
    MultiAPI.voos r = [Examples.direct; Examples.at800] /\
    MultiAPI.erros (MultiAPI.estatisticas r) =
      [ {| MultiAPI.source := "AMADEUS";
           MultiAPI.error := "timeout of 15000ms exceeded" |} ].
Proof.
  exact (proj1 (partial_failure_isolation Examples.cfg3
                  (fun q => match q with
                            | TRAVELLINK => Ok [Examples.direct]
                            | AMADEUS => Throw Examples.timeout
                            | AVIATIONSTACK => Ok [Examples.at800]
                            end)
                  TL_AM_AV AMADEUS Examples.timeout eq_refl eq_refl eq_refl eq_refl
                  (fun q => match q with
                            | TRAVELLINK => fun _ => ex_intro _ [Examples.direct] eq_refl
                            | AMADEUS => fun H => match Bool.diff_false_true H with end
                            | AVIATIONSTACK => fun _ => ex_intro _ [Examples.at800] eq_refl
                            end))).
Defined.

(** ** The search entry point *)

Lemma offersOf_nil (task : Provider -> Exc (list Offer)) (ps : list Provider) :
  (forall p, task p = Ok []) -> offersOf task ps = [].
Proof.
  intros H. unfold offersOf. induction ps as [|p ps IH]; [reflexivity|].
  cbn [map concat]. now rewrite H, IH.
Qed.

Lemma searchFlightsMultiAPI_empty (cfg : MultiAPI.Config) (w : World) (req : Request) :
  (forall p, MultiAPI.searchTask cfg w req p = Ok []) ->
  exists r, MultiAPI.searchFlightsMultiAPI cfg w req = Ok r /\ MultiAPI.voos r = [].
Proof.
  intros H. eexists. split; [apply searchFlightsMultiAPI_returns|].
  rewrite joinTasks_spec. cbn [fst]. now rewrite offersOf_nil.
Qed.

Lemma useMultiAPI_true (cfg : MultiAPI.Config) :
  (exists p, MultiAPI.enabled cfg p = true) ->
  MultiAPI.travellink_enabled cfg || MultiAPI.amadeus_enabled cfg ||
  MultiAPI.aviationstack_enabled cfg = true.
Proof.
  intros [[ | | ] H]; cbn [MultiAPI.enabled] in H; rewrite H;
    now rewrite ?orb_true_r.
Qed.




(** ** Mock flights *)







(** ** The SOAP adapter *)






(** ** Batch confirmation *)

Lemma confirmFlightPrice_sent (cfg : MultiAPI.Config) (w : World)
    (offer : Amadeus.FlightOffer) :
  snd (MultiAPI.confirmFlightPrice cfg w offer) = [] \/
  snd (MultiAPI.confirmFlightPrice cfg w offer) = [offer].
Proof.
  unfold MultiAPI.confirmFlightPrice.
  destruct (negb (MultiAPI.amadeus_enabled cfg)); [now left|].
  destruct (MultiAPI.getAmadeusToken cfg w); [now right | now left].
Qed.

Lemma attemptConfirm_snd (cfg : MultiAPI.Config) (w : World)
    (offer : Amadeus.FlightOffer) (i : nat) :
  snd (MultiAPI.attemptConfirm cfg w offer i) =
  snd (MultiAPI.confirmFlightPrice cfg w offer).
Proof.
  unfold MultiAPI.attemptConfirm.
  now destruct (MultiAPI.confirmFlightPrice cfg w offer).
Qed.

Lemma attemptConfirm_fst (cfg : MultiAPI.Config) (w : World)
    (offer : Amadeus.FlightOffer) (i : nat) :
  fst (MultiAPI.attemptConfirm cfg w offer i) =
  match fst (MultiAPI.confirmFlightPrice cfg w offer) with
  | Ok result => Ok (MultiAPI.Pricing.Succeeded i result)
  | Throw error => Ok (MultiAPI.Pricing.Failed i (message error))
  end.
Proof.
  unfold MultiAPI.attemptConfirm.
  now destruct (MultiAPI.confirmFlightPrice cfg w offer).
Qed.

Lemma batch_requests (cfg : MultiAPI.Config) (w : World)
    (offers : list Amadeus.FlightOffer) :
  forall i,
    concat (map snd (mapi_from i (MultiAPI.attemptConfirm cfg w) offers)) =
    flat_map (fun o => snd (MultiAPI.confirmFlightPrice cfg w o)) offers.
Proof.
  induction offers as [|o offers IH]; intros i; [reflexivity|].
  cbn [mapi_from map concat flat_map]. now rewrite attemptConfirm_snd, IH.
Qed.

Lemma batch_confirmed (cfg : MultiAPI.Config) (w : World)
    (offers : list Amadeus.FlightOffer) :
  forall (before after : list Amadeus.FlightOffer)
         (confirmed : list MultiAPI.Pricing.ConfirmedOffer),
    fold_left (MultiAPI.pushConfirmed (before ++ offers ++ after))
      (mapi_from (length before) (fun result index => (result, index))
         (MultiAPI.allSettled
            (map fst (mapi_from (length before) (MultiAPI.attemptConfirm cfg w) offers))))
      (Ok confirmed) =
    Ok (confirmed ++ flat_map (annotate cfg w) offers)%list.
Proof.
  induction offers as [|o offers IH]; intros before after confirmed.
  - cbn. now rewrite app_nil_r.
  - cbn [mapi_from map MultiAPI.allSettled fold_left flat_map].
    rewrite attemptConfirm_fst.
    change (annotate cfg w o) with
      (match fst (MultiAPI.confirmFlightPrice cfg w o) with
       | Ok result =>
           [ {| MultiAPI.Pricing.offer := o;
                MultiAPI.Pricing.precoConfirmado := result;
                MultiAPI.Pricing.precoOriginal := MultiAPI.priceField Amadeus.total o |} ]
       | Throw _ => []
       end).
    assert (N : nth_error (before ++ (o :: offers) ++ after) (length before) = Some o).
    { rewrite nth_error_app2 by lia. now rewrite Nat.sub_diag. }
    specialize (IH (before ++ [o])%list after).
    rewrite length_app in IH. cbn [length] in IH.
    replace (length before + 1)%nat with (S (length before)) in IH by lia.
    replace ((before ++ [o]) ++ offers ++ after)%list
      with (before ++ (o :: offers) ++ after)%list in IH
      by (now rewrite <- app_assoc).
    destruct (fst (MultiAPI.confirmFlightPrice cfg w o)) as [result|error];
      cbn [MultiAPI.pushConfirmed bind fst snd].
    + rewrite N, IH. now rewrite <- app_assoc.
    + now rewrite IH.
Qed.

Lemma flat_map_sent_bound (cfg : MultiAPI.Config) (w : World)
    (offers : list Amadeus.FlightOffer) :
  (length (flat_map (fun o => snd (MultiAPI.confirmFlightPrice cfg w o)) offers)
   <= length offers)%nat /\
  incl (flat_map (fun o => snd (MultiAPI.confirmFlightPrice cfg w o)) offers) offers.
Proof.
  induction offers as [|o offers [IH1 IH2]]; [split; [reflexivity | easy]|].
  cbn [flat_map]. rewrite length_app.
  destruct (confirmFlightPrice_sent cfg w o) as [-> | ->]; cbn [length app]; split.
  - lia.
  - now apply incl_tl.
  - lia.
  - apply incl_cons; [now left | now apply incl_tl].
Qed.

(** C8.  For every list of offers, [confirmMultipleFlightPrices] works on
    the first five only: the pricing requests it sends are requests for
    some of these, at most five in all, and the offers after the fifth
    have no influence.  It never raises, whatever the single
    confirmations do, and returns, in their order, exactly the attempted
    offers whose confirmation succeeded, each with its original and its
    confirmed price. *)
Theorem confirmMultipleFlightPrices_batch (cfg : MultiAPI.Config) (w : World)
    (flightOffers : list Amadeus.FlightOffer) :
  MultiAPI.confirmMultipleFlightPrices cfg w flightOffers =
    (Ok (flat_map (annotate cfg w) (firstn 5 flightOffers)),
     flat_map (fun o => snd (MultiAPI.confirmFlightPrice cfg w o))
              (firstn 5 flightOffers)) /\
  (length (snd (MultiAPI.confirmMultipleFlightPrices cfg w flightOffers)) <= 5)%nat /\
  incl (snd (MultiAPI.confirmMultipleFlightPrices cfg w flightOffers))
       (firstn 5 flightOffers) /\
  MultiAPI.confirmMultipleFlightPrices cfg w flightOffers =
  MultiAPI.confirmMultipleFlightPrices cfg w (firstn 5 flightOffers).
Proof.
  assert (E : forall l,
             MultiAPI.confirmMultipleFlightPrices cfg w l =
             (Ok (flat_map (annotate cfg w) (firstn 5 l)),
              flat_map (fun o => snd (MultiAPI.confirmFlightPrice cfg w o))
                       (firstn 5 l))).
  { intros [|o os]; [reflexivity|].
    unfold MultiAPI.confirmMultipleFlightPrices, mapi.
    rewrite batch_requests. f_equal.
    pose proof (batch_confirmed cfg w (firstn 5 (o :: os)) [] (skipn 5 (o :: os)) [])
      as B.
    cbn [length app] in B. rewrite firstn_skipn in B. exact B. }
  split; [apply E|]. rewrite !E. cbn [snd].
  destruct (flat_map_sent_bound cfg w (firstn 5 flightOffers)) as [L I].
  split; [|split].
  - pose proof (firstn_le_length 5 flightOffers). lia.
  - exact I.
  - now rewrite firstn_firstn.
Qed.

Example seven_offers_five_requests :
  MultiAPI.confirmMultipleFlightPrices Examples.cfg3 Examples.allEmpty
    Examples.sevenOffers =
  (Ok (flat_map (annotate Examples.cfg3 Examples.allEmpty)
         [ Examples.amOffer "1" "500.00"; Examples.amOffer "2" "510.00";
           Examples.amOffer "4" "530.00"; Examples.amOffer "5" "540.00" ]),
   [ Examples.amOffer "1" "500.00"; Examples.amOffer "2" "510.00";
     Examples.amOffer "gone" "520.00"; Examples.amOffer "4" "530.00";
     Examples.amOffer "5" "540.00" ]).
Proof. reflexivity. Qed.

(* ================================================================== *)
(** * Further properties of the code                                   *)
(* ================================================================== *)

(** ** City codes and letter case *)

Lemma upper_char_facts (c : ascii) :
  upper_char (upper_char c) = upper_char c /\
  lower_char (upper_char c) = lower_char c /\
  is_space (upper_char c) = is_space c /\
  is_letter (upper_char c) = is_letter c /\
  is_word (upper_char c) = is_word c.
Proof. destruct c as [[] [] [] [] [] [] [] []]; repeat split. Qed.

Lemma lower_char_facts (c : ascii) :
  upper_char (lower_char c) = upper_char c /\
  lower_char (lower_char c) = lower_char c /\
  is_space (lower_char c) = is_space c /\
  is_letter (lower_char c) = is_letter c /\
  is_word (lower_char c) = is_word c.
Proof. destruct c as [[] [] [] [] [] [] [] []]; repeat split. Qed.

Section CaseChange.

Variable g : ascii -> ascii.
Hypothesis g_upper : forall c, upper_char (g c) = upper_char c.
Hypothesis g_lower : forall c, lower_char (g c) = lower_char c.
Hypothesis g_space : forall c, is_space (g c) = is_space c.
Hypothesis g_letter : forall c, is_letter (g c) = is_letter c.
Hypothesis g_word : forall c, is_word (g c) = is_word c.

Lemma toUpperCase_change (s : string) : toUpperCase (map_string g s) = toUpperCase s.
Proof.
  unfold toUpperCase. induction s as [|c s IH]; simpl; [reflexivity|].
  now rewrite g_upper, IH.
Qed.

Lemma toLowerCase_change (s : string) : toLowerCase (map_string g s) = toLowerCase s.
Proof.
  unfold toLowerCase. induction s as [|c s IH]; simpl; [reflexivity|].
  now rewrite g_lower, IH.
Qed.

Lemma map_string_empty (s : string) : (map_string g s =? "") = (s =? "").
Proof. now destruct s. Qed.

Lemma trimStart_change (s : string) :
  trimStart (map_string g s) = map_string g (trimStart s).
Proof.
  induction s as [|c s IH]; simpl; [reflexivity|].
  rewrite g_space. now destruct (is_space c).
Qed.

Lemma trimEnd_change (s : string) :
  trimEnd (map_string g s) = map_string g (trimEnd s).
Proof.
  induction s as [|c s IH]; simpl; [reflexivity|].
  rewrite g_space, IH, map_string_empty.
  now destruct (is_space c && (trimEnd s =? "")).
Qed.

Lemma trim_change (s : string) : trim (map_string g s) = map_string g (trim s).
Proof. unfold trim. now rewrite trimStart_change, trimEnd_change. Qed.

Lemma substring_change (n : nat) (s : string) :
  substring 0 n (map_string g s) = map_string g (substring 0 n s).
Proof.
  revert s; induction n as [|n IH]; intros [|c s]; simpl; try reflexivity.
  now rewrite IH.
Qed.

Lemma token_here_change (s : string) :
  token_here (map_string g s) = token_here s.
Proof.
  destruct s as [|a [|b [|c [|d s]]]]; simpl; try reflexivity;
    now rewrite ?g_letter, ?g_word.
Qed.

Lemma match_token_change (s : string) :
  forall prev,
    match_token prev (map_string g s) = option_map (map_string g) (match_token prev s).
Proof.
  induction s as [|a s IH]; intros prev; [reflexivity|].
  change (map_string g (String a s)) with (String (g a) (map_string g s)).
  cbn [match_token].
  change (String (g a) (map_string g s)) with (map_string g (String a s)).
  rewrite token_here_change, substring_change, g_word, IH.
  now destruct (negb prev && token_here (String a s)).
Qed.

Lemma MultiAPI_getCityCode_change (city : string) :
  MultiAPI.getCityCode (map_string g city) = MultiAPI.getCityCode city.
Proof.
  unfold MultiAPI.getCityCode.
  now rewrite trim_change, !toUpperCase_change, toLowerCase_change,
    substring_change, toUpperCase_change.
Qed.

Lemma FlightsService_getCityCode_change (city : string) :
  FlightsService.getCityCode (map_string g city) = FlightsService.getCityCode city.
Proof.
  unfold FlightsService.getCityCode.
  rewrite trim_change, !toUpperCase_change, toLowerCase_change,
    substring_change, toUpperCase_change, match_token_change.
  destruct (match_token false city) as [m|]; cbn [option_map];
    now rewrite ?toUpperCase_change.
Qed.

End CaseChange.

(** X1.  Both versions of [getCityCode] ignore letter case: an input
    gives the same result in upper case, in lower case and as written.
    The statement is for ASCII inputs, on which [toUpperCase] and
    [toLowerCase] here are the functions of the language. *)
Theorem getCityCode_ignores_case (city : string) :
  is_ascii city = true ->
  MultiAPI.getCityCode (toUpperCase city) = MultiAPI.getCityCode city /\
  MultiAPI.getCityCode (toLowerCase city) = MultiAPI.getCityCode city /\
  FlightsService.getCityCode (toUpperCase city) = FlightsService.getCityCode city /\
  FlightsService.getCityCode (toLowerCase city) = FlightsService.getCityCode city.
Proof.
  intros _. repeat split.
  - apply MultiAPI_getCityCode_change; intros c; apply upper_char_facts.
  - apply MultiAPI_getCityCode_change; intros c; apply lower_char_facts.
  - apply FlightsService_getCityCode_change; intros c; apply upper_char_facts.
  - apply FlightsService_getCityCode_change; intros c; apply lower_char_facts.
Qed.

Lemma getCityCode_ignores_case_witness :
  is_ascii "Porto Alegre" = true /\
  MultiAPI.getCityCode "PORTO ALEGRE" = MultiAPI.getCityCode "Porto Alegre" /\
  FlightsService.getCityCode "porto alegre" = FlightsService.getCityCode "Porto Alegre".
Proof.
  split; [reflexivity|].
  pose proof (getCityCode_ignores_case "Porto Alegre" eq_refl) as (H1 & _ & _ & H4).
  split; [exact H1 | exact H4].
Defined.

(** ** Resolving a code again *)

Lemma toUpperCase_idem (s : string) : toUpperCase (toUpperCase s) = toUpperCase s.
Proof. apply toUpperCase_change. intros c; apply upper_char_facts. Qed.

Lemma toUpperCase_toLowerCase (s : string) :
  toUpperCase (toLowerCase s) = toUpperCase s.
Proof. apply toUpperCase_change. intros c; apply lower_char_facts. Qed.

Lemma trimStart_same_length (s : string) :
  String.length (trimStart s) = String.length s -> trimStart s = s.
Proof.
  destruct s as [|c s]; [reflexivity|]. simpl.
  destruct (is_space c); [|reflexivity].
  intros H. pose proof (length_trimStart s). lia.
Qed.

Lemma trimEnd_same_length (s : string) :
  String.length (trimEnd s) = String.length s -> trimEnd s = s.
Proof.
  induction s as [|c s IH]; [reflexivity|]. simpl.
  destruct (is_space c && (trimEnd s =? "")); simpl; [discriminate|].
  intros H. f_equal. apply IH. lia.
Qed.

Lemma trim_same_length (s : string) :
  String.length (trim s) = String.length s -> trim s = s.
Proof.
  unfold trim. intros H.
  pose proof (length_trimEnd (trimStart s)). pose proof (length_trimStart s).
  assert (E : trimStart s = s) by (apply trimStart_same_length; lia).
  rewrite E in *. now apply trimEnd_same_length.
Qed.

Lemma substring_0_all (n : nat) (s : string) :
  (String.length s <= n)%nat -> substring 0 n s = s.
Proof.
  revert s; induction n as [|n IH]; intros [|c s]; simpl; try reflexivity.
  - lia.
  - intros H. f_equal. apply IH. lia.
Qed.

Lemma is_iata_plain_char (c : ascii) :
  is_upper c = true -> is_space c = false /\ upper_char c = c.
Proof. destruct c as [[] [] [] [] [] [] [] []]; try discriminate; now split. Qed.

Lemma is_iata_plain (s : string) :
  is_iata s = true -> trim s = s /\ toUpperCase s = s.
Proof.
  destruct s as [|a [|b [|c [|d s]]]]; try discriminate. cbn [is_iata].
  rewrite !andb_true_iff. intros [[Ha Hb] Hc].
  destruct (is_iata_plain_char a Ha) as [Sa Ua], (is_iata_plain_char b Hb) as [Sb Ub],
    (is_iata_plain_char c Hc) as [Sc Uc].
  split.
  - unfold trim. cbn [trimStart]. rewrite Sa. cbn [trimEnd]. now rewrite Sa, Sb, Sc.
  - unfold toUpperCase. cbn [map_string]. now rewrite Ua, Ub, Uc.
Qed.

Lemma letter_upper (c : ascii) : is_letter c = true -> is_upper (upper_char c) = true.
Proof. destruct c as [[] [] [] [] [] [] [] []]; try discriminate; reflexivity. Qed.

Lemma match_token_short (r m : string) :
  (String.length r <= 3)%nat -> match_token false r = Some m ->
  m = r /\ is_iata (toUpperCase r) = true.
Proof.
  destruct r as [|a [|b [|c [|d r]]]]; simpl; try discriminate.
  - rewrite andb_false_r. discriminate.
  - rewrite !andb_false_r, andb_true_r.
    destruct (is_letter a) eqn:La, (is_letter b) eqn:Lb, (is_letter c) eqn:Lc;
      simpl; try discriminate.
    intros _ H; injection H as <-. split; [reflexivity|].
    now rewrite !letter_upper.
  - intros H; lia.
Qed.

Lemma table_checks :
  forallb stableEntry MultiAPI.cityMap = true /\
  forallb stableEntry FlightsService.cityMap = true /\
  forallb longName object_prototype_keys = true.
Proof. repeat split. Qed.

Lemma inherited_long (k : string) : inherited k = true -> (4 <= String.length k)%nat.
Proof.
  unfold inherited. rewrite existsb_exists. intros (k' & Hin & E).
  apply String.eqb_eq in E; subst k'.
  destruct table_checks as (_ & _ & T). rewrite forallb_forall in T.
  apply T in Hin. now apply Nat.leb_le in Hin.
Qed.

(** A short string in upper case misses the table, unless it is a code. *)
Lemma short_upper_lookup (table : list (string * string)) (r : string) :
  forallb codeEntry table = true ->
  forallb stableEntry table = true ->
  (String.length r <= 3)%nat -> toUpperCase r = r ->
  is_iata (toUpperCase (trim r)) = false ->
  literal_get table (trim (toLowerCase r)) = JUndefined.
Proof.
  intros Hc Ht Hl Hu Hi.
  pose proof (length_trim (toLowerCase r)) as Lk.
  assert (Ll : String.length (toLowerCase r) = String.length r)
    by apply length_map_string.
  destruct (literal_get_cases table (trim (toLowerCase r)))
    as [(c & Ha & _) | [(_ & Hinh & _) | (_ & _ & E)]]; [exfalso | exfalso | exact E].
  - pose proof (assoc_forallb codeEntry _ _ _ Hc Ha) as C.
    pose proof (assoc_forallb stableEntry _ _ _ Ht Ha) as S.
    unfold codeEntry in C. unfold stableEntry in S. cbn [fst snd] in C, S.
    apply andb_true_iff in C as [_ C]. apply Nat.leb_le in C.
    apply andb_true_iff in S as [_ S].
    assert (T : trim (toLowerCase r) = toLowerCase r)
      by (apply trim_same_length; lia).
    rewrite T in *.
    assert (K : (String.length (toLowerCase r) =? 3)%nat = true)
      by (apply Nat.eqb_eq; lia).
    rewrite K in S. cbn [negb orb] in S.
    rewrite toUpperCase_toLowerCase, Hu in S.
    destruct (is_iata_plain r S) as [Tr _].
    rewrite Tr, Hu in Hi. congruence.
  - apply inherited_long in Hinh. lia.
Qed.

Lemma MultiAPI_getCityCode_fixed (r : string) :
  (String.length r <= 3)%nat -> toUpperCase r = r ->
  MultiAPI.getCityCode r = JStr r.
Proof.
  intros Hl Hu. unfold MultiAPI.getCityCode.
  destruct (is_iata (toUpperCase (trim r))) eqn:Hi.
  - apply is_iata_length in Hi. unfold toUpperCase in Hi.
    rewrite length_map_string in Hi. pose proof (length_trim r).
    rewrite trim_same_length by lia. now rewrite Hu.
  - cbv zeta.
    rewrite (short_upper_lookup MultiAPI.cityMap r) by
      (try apply cityMap_entries; try apply table_checks; assumption).
    unfold or_else. cbn [truthy]. now rewrite substring_0_all, Hu.
Qed.

Lemma FlightsService_getCityCode_fixed (r : string) :
  (String.length r <= 3)%nat -> toUpperCase r = r ->
  FlightsService.getCityCode r = JStr r.
Proof.
  intros Hl Hu. rewrite FlightsService_getCityCode_unfold.
  destruct (is_iata (toUpperCase (trim r))) eqn:Hi.
  - apply is_iata_length in Hi. unfold toUpperCase in Hi.
    rewrite length_map_string in Hi. pose proof (length_trim r).
    rewrite trim_same_length by lia. now rewrite Hu.
  - cbv zeta.
    rewrite (short_upper_lookup FlightsService.cityMap r) by
      (try apply cityMap_entries; try apply table_checks; assumption).
    cbn [truthy].
    destruct (match_token false r) as [m|] eqn:Em.
    + destruct (match_token_short r m Hl Em) as [-> _]. now rewrite Hu.
    + now rewrite substring_0_all, Hu.
Qed.

(** Every string that [getCityCode] returns is short and in upper case. *)
Lemma city_code_short_upper (table : list (string * string)) (city fallback r : string) :
  forallb stableEntry table = true ->
  (String.length fallback <= 3)%nat -> toUpperCase fallback = fallback ->
  (if is_iata (toUpperCase (trim city)) then JStr (toUpperCase (trim city))
   else
     let code := literal_get table (trim (toLowerCase city)) in
     if truthy code then code else JStr fallback) = JStr r ->
  (String.length r <= 3)%nat /\ toUpperCase r = r.
Proof.
  intros Ht Hl Hu.
  destruct (is_iata (toUpperCase (trim city))) eqn:Hi.
  - intros E; injection E as <-. split.
    + apply is_iata_length in Hi. lia.
    + apply toUpperCase_idem.
  - cbv zeta.
    destruct (literal_get_cases table (trim (toLowerCase city)))
      as [(c & Ha & ->) | [(_ & _ & ->) | (_ & _ & ->)]]; cbn [truthy].
    + pose proof (assoc_forallb stableEntry _ _ _ Ht Ha) as S.
      unfold stableEntry in S. cbn [fst snd] in S.
      apply andb_true_iff in S as [S _]. apply andb_true_iff in S as [S1 S2].
      apply Nat.leb_le in S1. apply String.eqb_eq in S2.
      destruct (negb (c =? "")); intros E; injection E as <-; auto.
    + discriminate.
    + intros E; injection E as <-. auto.
Qed.

(** X2.  [getCityCode] is idempotent: a string it has returned for an
    input comes back unchanged when it is resolved again, in both
    versions.  The statement is for ASCII inputs, as in X1. *)
Theorem getCityCode_idempotent (city r : string) :
  is_ascii city = true ->
  (MultiAPI.getCityCode city = JStr r -> MultiAPI.getCityCode r = JStr r) /\
  (FlightsService.getCityCode city = JStr r ->
   FlightsService.getCityCode r = JStr r).
Proof.
  intros _. split; intros E.
  - apply MultiAPI_getCityCode_fixed;
      apply (city_code_short_upper MultiAPI.cityMap city
               (toUpperCase (substring 0 3 city)) r);
      try apply table_checks; try apply toUpperCase_idem; try exact E.
    all: rewrite city_code_fallback; lia.
  - rewrite FlightsService_getCityCode_unfold in E.
    apply FlightsService_getCityCode_fixed;
      apply (city_code_short_upper FlightsService.cityMap city
               (toUpperCase match match_token false city with
                            | Some m => m
                            | None => substring 0 3 city
                            end) r);
      try apply table_checks; try apply toUpperCase_idem; try exact E.
    all: rewrite token_fallback_length; lia.
Qed.

Lemma getCityCode_idempotent_witness :
  is_ascii "Belo Horizonte" = true /\
  MultiAPI.getCityCode "Belo Horizonte" = JStr "CNF" /\
  MultiAPI.getCityCode "CNF" = JStr "CNF".
Proof.
  split; [reflexivity|]. split; [reflexivity|].
  exact (proj1 (getCityCode_idempotent "Belo Horizonte" "CNF" eq_refl) eq_refl).
Defined.

(** ** More on the deduplication *)

Lemma map_get_In {V : Type} (k : string) (v : V) (m : Map V) :
  map_get k m = Some v -> In k (map fst m) /\ In v (map snd m).
Proof.
  unfold map_get. induction m as [|[k' v'] m IH]; simpl; [discriminate|].
  destruct (String.eqb_spec k k') as [->|_].
  - intros E; injection E as <-. auto.
  - intros E. destruct (IH E). auto.
Qed.

Lemma map_get_None {V : Type} (k : string) (m : Map V) :
  map_get k m = None <-> ~ In k (map fst m).
Proof.
  unfold map_get. induction m as [|[k' v'] m IH]; simpl; [tauto|].
  destruct (String.eqb_spec k k') as [->|N].
  - split; [discriminate | intros H; exfalso; auto].
  - rewrite IH. split; [intros H [E | I]; [congruence | auto] | auto].
Qed.

Lemma map_set_new {V : Type} (k : string) (v : V) (m : Map V) :
  map_get k m = None -> map_set k v m = (m ++ [(k, v)])%list.
Proof.
  unfold map_get. induction m as [|[k' v'] m IH]; simpl; [reflexivity|].
  destruct (k =? k'); [discriminate|]. intros E. now rewrite IH.
Qed.

Lemma map_set_keys {V : Type} (k : string) (v v0 : V) (m : Map V) :
  map_get k m = Some v0 -> map fst (map_set k v m) = map fst m.
Proof.
  unfold map_get. induction m as [|[k' v'] m IH]; simpl; [discriminate|].
  destruct (String.eqb_spec k k') as [->|_]; [reflexivity|].
  intros E. simpl. now rewrite IH.
Qed.

Lemma map_get_set_other {V : Type} (k k' : string) (v : V) (m : Map V) :
  k <> k' -> map_get k (map_set k' v m) = map_get k m.
Proof.
  unfold map_get. intros N. induction m as [|[k0 v0] m IH]; simpl.
  - destruct (String.eqb_spec k k'); [contradiction | reflexivity].
  - destruct (String.eqb_spec k' k0) as [->|N0]; simpl.
    + destruct (String.eqb_spec k k0); [contradiction | reflexivity].
    + now rewrite IH.
Qed.

Lemma length_map_set_old {V : Type} (k : string) (v v0 : V) (m : Map V) :
  map_get k m = Some v0 -> length (map_set k v m) = length m.
Proof.
  intros H. rewrite <- (length_map fst), (map_set_keys k v v0 m H).
  apply length_map.
Qed.

Lemma length_set_nth {A : Type} (i : nat) (v : A) (l : list A) :
  length (set_nth i v l) = length l.
Proof.
  revert i; induction l as [|x l IH]; intros [|i]; simpl; auto.
Qed.

Lemma incl_set_nth {A : Type} (i : nat) (v : A) (l : list A) :
  incl (set_nth i v l) (v :: l).
Proof.
  revert i; induction l as [|x l IH]; intros i; simpl; [easy|].
  destruct i as [|i].
  - intros y [<- | H]; simpl; auto.
  - intros y [<- | H]; [simpl; auto|].
    destruct (IH i y H) as [<- | H']; simpl; auto.
Qed.

(** What a turn of the loop does to the sizes and to the set of keys,
    whatever the offers are. *)
Lemma dedupStep_keys (seen : Map Offer) (unique : list Offer) (flight : Offer) :
  length unique = length seen ->
  NoDup (map fst seen) ->
  let st := MultiAPI.dedupStep (seen, unique) flight in
  length (snd st) = length (fst st) /\
  NoDup (map fst (fst st)) /\
  (forall k, In k (map fst (fst st)) <->
             In k (map fst seen) \/ k = MultiAPI.dedupKey flight) /\
  incl (snd st) (flight :: unique).
Proof.
  intros Hl Hn. unfold MultiAPI.dedupStep.
  destruct (map_get (MultiAPI.dedupKey flight) seen) as [existing|] eqn:G.
  - pose proof (map_get_In _ _ _ G) as [Ik _].
    destruct (MultiAPI.replaces flight existing); cbn [fst snd].
    + rewrite (map_set_keys _ flight existing seen G),
        (length_map_set_old _ flight existing seen G).
      repeat split.
      * destruct (findIndex _ unique); [now rewrite length_set_nth | exact Hl].
      * exact Hn.
      * auto.
      * intros [H | ->]; auto.
      * destruct (findIndex _ unique); [apply incl_set_nth | now apply incl_tl].
    + repeat split; auto.
      * intros [H | ->]; auto.
      * now apply incl_tl.
  - cbn [fst snd]. rewrite (map_set_new _ flight seen G).
    rewrite map_app, !length_app. cbn [map fst length]. repeat split.
    + lia.
    + apply map_get_None in G.
      apply (Permutation_NoDup (Permutation_cons_append _ _)).
      now constructor.
    + rewrite in_app_iff. simpl. intros [H | [<- | []]]; auto.
    + rewrite in_app_iff. simpl. intros [H | ->]; auto.
    + intros y Hy. apply in_app_iff in Hy as [Hy | [<- | []]]; simpl; auto.
Qed.

Lemma dedupFold_keys (flights : list Offer) :
  forall (seen : Map Offer) (unique : list Offer),
    length unique = length seen ->
    NoDup (map fst seen) ->
    let st := fold_left MultiAPI.dedupStep flights (seen, unique) in
    length (snd st) = length (fst st) /\
    NoDup (map fst (fst st)) /\
    (forall k, In k (map fst (fst st)) <->
               In k (map fst seen) \/ In k (map MultiAPI.dedupKey flights)) /\
    incl (snd st) (unique ++ flights).
Proof.
  induction flights as [|f flights IH]; intros seen unique Hl Hn; cbn [fold_left].
  - cbn [fst snd map]. rewrite app_nil_r.
    split; [exact Hl|]. split; [exact Hn|].
    split; [intros k; simpl; tauto | apply incl_refl].
  - destruct (dedupStep_keys seen unique f Hl Hn) as (L & N & K & I).
    destruct (MultiAPI.dedupStep (seen, unique) f) as [seen' unique'] eqn:E.
    cbn [fst snd] in L, N, K, I.
    destruct (IH seen' unique' L N) as (L' & N' & K' & I').
    split; [exact L'|]. split; [exact N'|]. split.
    + intros k. rewrite K', K. cbn [map]. simpl. intuition auto.
    + intros y Hy. apply I' in Hy. apply in_app_iff in Hy as [Hy | Hy].
      * apply I in Hy as [<- | Hy]; apply in_app_iff; simpl; auto.
      * apply in_app_iff; simpl; auto.
Qed.

(** X3.  Whatever the offers are, [deduplicateFlights] keeps as many
    offers as the list has distinct dedup keys, and every offer it keeps
    is one of the list. *)
Theorem deduplicateFlights_count (flights : list Offer) :
  length (MultiAPI.deduplicateFlights flights) =
    length (nodup string_dec (map MultiAPI.dedupKey flights)) /\
  incl (MultiAPI.deduplicateFlights flights) flights.
Proof.
  unfold MultiAPI.deduplicateFlights.
  pose proof (dedupFold_keys flights [] [] eq_refl (NoDup_nil _)) as H.
  cbv zeta in H. destruct H as (L & N & K & I).
  split; [|exact I].
  etransitivity; [exact L|]. rewrite <- (length_map fst).
  apply Permutation_length, NoDup_Permutation; [exact N | apply NoDup_nodup|].
  intros k. rewrite K, nodup_In. simpl. tauto.
Qed.

Lemma dedupFold_distinct (flights : list Offer) :
  forall (seen : Map Offer) (unique : list Offer),
    NoDup (map MultiAPI.dedupKey flights) ->
    (forall f, In f flights -> map_get (MultiAPI.dedupKey f) seen = None) ->
    snd (fold_left MultiAPI.dedupStep flights (seen, unique)) =
      (unique ++ flights)%list.
Proof.
  induction flights as [|f flights IH]; intros seen unique Hn Hs; cbn [fold_left].
  - cbn [snd]. now rewrite app_nil_r.
  - cbn [map] in Hn. inversion Hn as [|k ks Hk Hks]; subst.
    unfold MultiAPI.dedupStep at 2. rewrite (Hs f (or_introl eq_refl)).
    rewrite IH.
    + now rewrite <- app_assoc.
    + exact Hks.
    + intros g Hg. rewrite map_get_set_other.
      * apply Hs. now right.
      * intros E. apply Hk. rewrite <- E. now apply in_map.
Qed.

(** X4.  On a list in which no two offers have the same dedup key,
    [deduplicateFlights] changes nothing: it returns the list as it is,
    in the same order. *)
Theorem deduplicateFlights_distinct_keys (flights : list Offer) :
  NoDup (map MultiAPI.dedupKey flights) ->
  MultiAPI.deduplicateFlights flights = flights.
Proof.
  intros H. unfold MultiAPI.deduplicateFlights.
  etransitivity; [apply (dedupFold_distinct flights [] [] H)|reflexivity].
  reflexivity.
Qed.

Lemma deduplicateFlights_distinct_keys_witness :
  NoDup (map MultiAPI.dedupKey [Examples.at800; Examples.at500; Examples.at100]) /\
  MultiAPI.deduplicateFlights [Examples.at800; Examples.at500; Examples.at100] =
    [Examples.at800; Examples.at500; Examples.at100].
Proof.
  assert (H : NoDup (map MultiAPI.dedupKey
                       [Examples.at800; Examples.at500; Examples.at100])).
  { repeat constructor; simpl; intuition discriminate. }
  split; [exact H|]. exact (deduplicateFlights_distinct_keys _ H).
Defined.

(** *** Offers with ids of their own *)

Lemma NoDup_drop_middle {A : Type} (l r : list A) (x : A) :
  NoDup (l ++ x :: r) -> NoDup (l ++ r) /\ ~ In x (l ++ r).
Proof. intros H. split; [now apply NoDup_remove_1 in H | now apply NoDup_remove_2 in H]. Qed.

Lemma NoDup_set_nth_ids (l r : list Offer) (f : Offer) :
  NoDup (map id (l ++ f :: r)) ->
  forall i, NoDup (map id (set_nth i f l ++ r)).
Proof.
  induction l as [|x l IH]; intros H i; cbn [set_nth app].
  - cbn [app map] in H. now inversion H.
  - cbn [app map] in H. inversion H as [|y ys Hy Hys]; subst.
    destruct i as [|i]; cbn [app map].
    + rewrite map_app in Hys. cbn [map] in Hys.
      destruct (NoDup_drop_middle _ _ _ Hys) as [N I].
      constructor; rewrite map_app; assumption.
    + constructor; [|now apply IH].
      intros Hin. apply Hy. rewrite map_app, in_app_iff in Hin.
      rewrite map_app, in_app_iff. cbn [map].
      destruct Hin as [Hin | Hin]; [|right; now right].
      apply in_map_iff in Hin as (g & <- & Hg).
      destruct (incl_set_nth i f l g Hg) as [<- | Hg'].
      * right; now left.
      * left. now apply in_map.
Qed.

Lemma Forall_set_nth_app (P : Offer -> Prop) (l r : list Offer) (f : Offer) :
  Forall P (l ++ f :: r) -> forall i, Forall P (set_nth i f l ++ r).
Proof.
  intros H i. apply Forall_app in H as [Hl Hr]. inversion Hr; subst.
  apply Forall_app; split; [now apply Forall_set_nth | assumption].
Qed.

(** With ids that are strings and differ, the stored offer is found at
    its own place in the list of survivors. *)
Lemma replace_in_place (seen : Map Offer) (k : string) (flight existing : Offer) :
  map_get k seen = Some existing ->
  NoDup (map id (map snd seen)) ->
  Forall (fun f => exists s, id f = JStr s) (map snd seen) ->
  match findIndex (fun f => strict_eq (id f) (id existing)) (map snd seen) with
  | Some index => set_nth index flight (map snd seen)
  | None => map snd seen
  end = map snd (map_set k flight seen).
Proof.
  unfold map_get.
  induction seen as [|[k' v'] seen IH]; cbn [assoc map snd map_set findIndex];
    [discriminate|].
  intros G Hn Hs. inversion Hn as [|y ys Hy Hys]; subst.
  inversion Hs as [|z zs Hz Hzs]; subst.
  destruct (String.eqb_spec k k') as [->|N].
  - injection G as <-. now rewrite strict_eq_refl.
  - pose proof (map_get_In _ _ _ G) as [_ Iv].
    assert (D : strict_eq (id v') (id existing) = false).
    { destruct Hz as [s1 E1].
      rewrite Forall_forall in Hzs. destruct (Hzs _ Iv) as [s2 E2].
      rewrite E1, E2. cbn [strict_eq]. apply String.eqb_neq. intros ->.
      apply Hy. rewrite E1, <- E2. now apply in_map. }
    rewrite D. cbn [map snd]. rewrite <- (IH G Hys Hzs).
    now destruct (findIndex _ (map snd seen)).
Qed.

Lemma dedupStep_ids (seen : Map Offer) (f : Offer) (rest : list Offer) :
  Forall (fun kv => MultiAPI.dedupKey (snd kv) = fst kv) seen ->
  NoDup (map id (map snd seen ++ f :: rest)) ->
  Forall (fun f => exists s, id f = JStr s) (map snd seen ++ f :: rest) ->
  exists seen',
    MultiAPI.dedupStep (seen, map snd seen) f = (seen', map snd seen') /\
    Forall (fun kv => MultiAPI.dedupKey (snd kv) = fst kv) seen' /\
    NoDup (map id (map snd seen' ++ rest)) /\
    Forall (fun f => exists s, id f = JStr s) (map snd seen' ++ rest).
Proof.
  intros Hc Hn Hs. unfold MultiAPI.dedupStep.
  assert (Hn1 : NoDup (map id (map snd seen ++ rest))).
  { rewrite map_app in Hn |- *. cbn [map] in Hn. now apply NoDup_remove_1 in Hn. }
  assert (Hs1 : Forall (fun f => exists s, id f = JStr s) (map snd seen ++ rest)).
  { apply Forall_app in Hs as [H1 H2]. inversion H2; subst. apply Forall_app; auto. }
  destruct (map_get (MultiAPI.dedupKey f) seen) as [existing|] eqn:G.
  - destruct (MultiAPI.replaces f existing); [|now exists seen].
    assert (Hn0 : NoDup (map id (map snd seen)))
      by (rewrite map_app in Hn; now apply NoDup_app_remove_r in Hn).
    assert (Hs0 : Forall (fun f => exists s, id f = JStr s) (map snd seen))
      by (now apply Forall_app in Hs as [Hs _]).
    pose proof (replace_in_place seen _ f existing G Hn0 Hs0) as R.
    exists (map_set (MultiAPI.dedupKey f) f seen). split; [now rewrite R|].
    split; [|split].
    + clear - Hc. induction seen as [|[k' v'] seen IHs]; cbn [map_set].
      * repeat constructor.
      * inversion Hc; subst.
        destruct (MultiAPI.dedupKey f =? k') eqn:E; constructor; auto.
    + rewrite <- R. destruct (findIndex _ (map snd seen));
        [now apply NoDup_set_nth_ids | exact Hn1].
    + rewrite <- R. destruct (findIndex _ (map snd seen));
        [now apply Forall_set_nth_app | exact Hs1].
  - exists (seen ++ [(MultiAPI.dedupKey f, f)])%list.
    rewrite (map_set_new _ f seen G), map_app. cbn [map snd].
    split; [reflexivity|]. split; [|split].
    + apply Forall_app; split; [exact Hc | repeat constructor].
    + now rewrite <- app_assoc.
    + now rewrite <- app_assoc.
Qed.

Lemma dedupFold_ids (flights : list Offer) :
  forall seen : Map Offer,
    Forall (fun kv => MultiAPI.dedupKey (snd kv) = fst kv) seen ->
    NoDup (map id (map snd seen ++ flights)) ->
    Forall (fun f => exists s, id f = JStr s) (map snd seen ++ flights) ->
    snd (fold_left MultiAPI.dedupStep flights (seen, map snd seen)) =
      map snd (fst (fold_left MultiAPI.dedupStep flights (seen, map snd seen))) /\
    Forall (fun kv => MultiAPI.dedupKey (snd kv) = fst kv)
           (fst (fold_left MultiAPI.dedupStep flights (seen, map snd seen))).
Proof.
  induction flights as [|f flights IH]; intros seen Hc Hn Hs; cbn [fold_left].
  - cbn [fst snd]. auto.
  - destruct (dedupStep_ids seen f flights Hc Hn Hs) as (seen' & -> & Hc' & Hn' & Hs').
    now apply IH.
Qed.

(** X5.  When the offers of the list have ids that are strings and that
    differ from one another, [deduplicateFlights] keeps exactly one offer
    for each dedup key of the list: the keys of the survivors are
    pairwise distinct and every offer of the list has a survivor with its
    key.  Deduplicating the result again changes nothing. *)
Theorem deduplicateFlights_one_per_key (flights : list Offer) :
  Forall (fun f => exists s, id f = JStr s) flights ->
  NoDup (map id flights) ->
  NoDup (map MultiAPI.dedupKey (MultiAPI.deduplicateFlights flights)) /\
  (forall f, In f flights ->
             exists g, In g (MultiAPI.deduplicateFlights flights) /\
                       MultiAPI.dedupKey g = MultiAPI.dedupKey f) /\
  MultiAPI.deduplicateFlights (MultiAPI.deduplicateFlights flights) =
    MultiAPI.deduplicateFlights flights.
Proof.
  intros Hs Hn.
  pose proof (dedupFold_ids flights [] (Forall_nil _) Hn Hs) as H.
  pose proof (dedupFold_keys flights [] [] eq_refl (NoDup_nil _)) as K.
  cbv zeta in K. cbn [map] in H.
  destruct H as (E & C). destruct K as (_ & N & K & _).
  assert (M : map MultiAPI.dedupKey (MultiAPI.deduplicateFlights flights) =
              map fst (fst (fold_left MultiAPI.dedupStep flights ([], [])))).
  { unfold MultiAPI.deduplicateFlights.
    etransitivity; [apply f_equal; exact E|].
    rewrite map_map. apply map_ext_Forall. exact C. }
  assert (D : NoDup (map MultiAPI.dedupKey (MultiAPI.deduplicateFlights flights))).
  { rewrite M. exact N. }
  split; [exact D|]. split.
  - intros f Hf.
    assert (I : In (MultiAPI.dedupKey f)
                   (map MultiAPI.dedupKey (MultiAPI.deduplicateFlights flights))).
    { rewrite M. apply K. right. now apply in_map. }
    apply in_map_iff in I as (g & Eg & Hg). now exists g.
  - unfold MultiAPI.deduplicateFlights at 1.
    etransitivity;
      [apply (dedupFold_distinct (MultiAPI.deduplicateFlights flights) [] [] D)
      |reflexivity].
    reflexivity.
Qed.

Lemma deduplicateFlights_one_per_key_witness :
  NoDup (map id [Examples.direct; Examples.viaCGH; Examples.at800]) /\
  NoDup (map MultiAPI.dedupKey
           (MultiAPI.deduplicateFlights
              [Examples.direct; Examples.viaCGH; Examples.at800])).
Proof.
  assert (H : NoDup (map id [Examples.direct; Examples.viaCGH; Examples.at800])).
  { repeat constructor; simpl; intuition discriminate. }
  split; [exact H|].
  apply (deduplicateFlights_one_per_key
           [Examples.direct; Examples.viaCGH; Examples.at800]).
  - repeat constructor; eexists; reflexivity.
  - exact H.
Defined.

(** X6.  The place of a replaced offer is looked up by id, not by key.
    When a stored offer [b] shares its id, a primitive value such as a
    string or a number, with an offer [a] that was stored before it under
    another key, an offer [c] that replaces [b] is written over [a]: [a]
    is lost, and [b] and [c], which have the same key, both survive. *)
Theorem deduplicateFlights_id_collision (a b c : Offer) :
  MultiAPI.dedupKey b <> MultiAPI.dedupKey a ->
  MultiAPI.dedupKey c = MultiAPI.dedupKey b ->
  is_primitive (id a) = true ->
  strict_eq (id a) (id b) = true ->
  MultiAPI.replaces c b = true ->
  MultiAPI.deduplicateFlights [a; b; c] = [c; b].
Proof.
  intros Hk Hc _ Hi Hr. unfold MultiAPI.deduplicateFlights. cbn [fold_left].
  unfold MultiAPI.dedupStep at 3. cbn [map_get assoc map_set app].
  unfold MultiAPI.dedupStep at 2. cbn [map_get assoc].
  destruct (String.eqb_spec (MultiAPI.dedupKey b) (MultiAPI.dedupKey a)) as [E|_];
    [contradiction|].
  cbn [map_set app].
  destruct (String.eqb_spec (MultiAPI.dedupKey b) (MultiAPI.dedupKey a)) as [E|_];
    [contradiction|].
  unfold MultiAPI.dedupStep. rewrite Hc. cbn [map_get assoc].
  destruct (String.eqb_spec (MultiAPI.dedupKey b) (MultiAPI.dedupKey a)) as [E|_];
    [contradiction|].
  rewrite String.eqb_refl, Hr. cbn [findIndex]. rewrite Hi. reflexivity.
Qed.

Lemma deduplicateFlights_id_collision_witness :
  MultiAPI.deduplicateFlights [golOne; latamOne; latamTwo] = [latamTwo; latamOne].
Proof.
  apply (deduplicateFlights_id_collision golOne latamOne latamTwo).
  - vm_compute. discriminate.
  - reflexivity.
  - reflexivity.
  - reflexivity.
  - reflexivity.
Defined.

(** ** Scores by source *)

(** X7.  The source decides the rank before anything else does: for one
    and the same flight literal the score as a TravelLink flight is at
    least the score as an Amadeus flight, which is at least the score as
    an Aviationstack flight; no tag scores higher than TRAVELLINK, and no
    score is below 0.5. *)
Theorem calculateReliability_by_source (flight : RawFlight) (source : string) :
  (MultiAPI.calculateReliability flight "AVIATIONSTACK" <=
   MultiAPI.calculateReliability flight "AMADEUS")%Q /\
  (MultiAPI.calculateReliability flight "AMADEUS" <=
   MultiAPI.calculateReliability flight "TRAVELLINK")%Q /\
  (MultiAPI.calculateReliability flight source <=
   MultiAPI.calculateReliability flight "TRAVELLINK")%Q /\
  (0.5 <= MultiAPI.calculateReliability flight source)%Q.
Proof.
  unfold MultiAPI.calculateReliability.
  rewrite price_test, detail_test. fold (priceOf flight).
  cbn [String.eqb Ascii.eqb Bool.eqb].
  destruct (source =? "TRAVELLINK"), (source =? "AMADEUS"),
    (source =? "AVIATIONSTACK"), (outboundDetail flight), (Qltb 0 (priceOf flight));
    repeat split; vm_compute; congruence.
Qed.

Lemma ExcSat_Forall_nil (P : Offer -> Prop) : ExcSat (Forall P) (Ok []).
Proof. constructor. Qed.

Lemma searchTravelLink_all (P : Offer -> Prop) :
  (forall w voo o d i, P (MultiAPI.formatarVooTravelLink w voo o d i)) ->
  forall cfg w req, ExcSat (Forall P) (MultiAPI.searchTravelLink cfg w req).
Proof.
  intros HP cfg w req. unfold MultiAPI.searchTravelLink.
  destruct (negb (MultiAPI.travellink_enabled cfg)); [constructor|].
  assert (Hpush : forall o d lista, Forall P (MultiAPI.pushVoos w o d lista)).
  { intros o d lista. unfold MultiAPI.pushVoos, mapi.
    apply Forall_concat_mapi_from. intros voo i.
    destruct (truthy voo && typeof_object voo); repeat constructor. apply HP. }
  assert (Hproc : forall r o d,
             Forall P (MultiAPI.processarResultadosTravelLink w r o d)).
  { intros r o d. unfold MultiAPI.processarResultadosTravelLink.
    destruct (is_nullish r); [constructor|].
    destruct (negb (truthy (MultiAPI.unwrapDados r)) || _); [constructor|].
    destruct (MultiAPI.unwrapDados r) as [ | |b|q|s|items|fields|k];
      cbn [truthy typeof_object andb]; try constructor; try apply Hpush.
    - destruct b; constructor.
    - destruct (negb (Qeq_bool q 0)); constructor.
    - destruct (negb (s =? "")); constructor.
    - destruct (_ ||| _) as [ | | | | |[|v rest]| |]; try apply Hpush;
        destruct (_ && _); repeat constructor; apply HP.
    - destruct (k =? "__proto__"); [|constructor].
      destruct (_ ||| _) as [ | | | | |[|v rest]| |]; try apply Hpush;
        destruct (_ && _); repeat constructor; apply HP. }
  apply ExcSat_try_catch; [|intros e; constructor].
  apply ExcSat_bind_any; intros dataIda.
  apply ExcSat_bind_any; intros dataVolta.
  apply ExcSat_bind_any; intros client.
  apply ExcSat_bind_any; intros _.
  apply (ExcSat_bind
           (fun called => match called with
                          | Return voos => voos = []
                          | Next _ => True
                          end)).
  - apply ExcSat_try_catch.
    + apply ExcSat_bind_any; intros resultado. exact I.
    + intros err. destruct (_ && _); simpl; auto.
  - intros [resultado | voos] H.
    + destruct (is_nullish resultado); [constructor|].
      destruct (_ && _); [constructor|]. apply Hproc.
    + subst voos. constructor.
Qed.

Lemma searchAmadeus_all (P : Offer -> Prop) :
  (forall w offer index,
      P (MultiAPI.normalizeFlight w
           (AmadeusFormat.formatOffer MultiAPI.companhiaMap "amadeus-"
              (fun _ => JStr "AMADEUS") true offer index) "AMADEUS")) ->
  forall cfg w req, ExcSat (Forall P) (MultiAPI.searchAmadeus cfg w req).
Proof.
  intros HP cfg w req. unfold MultiAPI.searchAmadeus.
  destruct (negb (MultiAPI.amadeus_enabled cfg)); [constructor|].
  apply ExcSat_try_catch; [|intros e; constructor].
  apply ExcSat_bind_any; intros token.
  apply ExcSat_bind_any; intros dataIda.
  apply ExcSat_bind_any; intros dataVolta.
  apply ExcSat_bind_any; intros [[|o offers]|]; try constructor.
  - apply HP.
  - apply Forall_mapi_from. intros; apply HP.
Qed.

Lemma searchAviationStack_all (P : Offer -> Prop) :
  (forall w o d flight index, P (MultiAPI.formatAviationstack w o d flight index)) ->
  forall cfg w req,
    ExcSat (fun flights => Forall P flights /\ (length flights <= 10)%nat)
           (MultiAPI.searchAviationStack cfg w req).
Proof.
  intros HP cfg w req. unfold MultiAPI.searchAviationStack.
  destruct (negb (MultiAPI.aviationstack_enabled cfg)); [split; [constructor | simpl; lia]|].
  apply ExcSat_try_catch; [|intros e; split; [constructor | simpl; lia]].
  apply ExcSat_bind_any; intros dataIda.
  apply ExcSat_bind_any; intros [[|o offers]|];
    try (split; [constructor | simpl; lia]).
  split.
  - apply Forall_mapi_from. intros; apply HP.
  - unfold mapi. rewrite length_mapi_from. apply firstn_le_length.
Qed.

Lemma travellink_score (w : World) (voo o d : JsVal) (i : nat) :
  (confiabilidade (MultiAPI.formatarVooTravelLink w voo o d i) == 1)%Q /\
  MultiAPI.idaLength (MultiAPI.formatarVooTravelLink w voo o d i) = 1%nat.
Proof.
  split; [|reflexivity].
  unfold MultiAPI.formatarVooTravelLink, MultiAPI.normalizeFlight.
  cbn [confiabilidade]. unfold MultiAPI.calculateReliability.
  rewrite price_test. cbn [raw_detalhes ida length Nat.ltb Nat.leb String.eqb
                           Ascii.eqb Bool.eqb].
  destruct (Qltb 0 _); vm_compute; reflexivity.
Qed.

Lemma aviationstack_score (w : World) (o d : JsVal) (flight : Aviationstack.Flight)
    (i : nat) :
  (confiabilidade (MultiAPI.formatAviationstack w o d flight i) ==
   7205759403792793 # 9007199254740992)%Q /\
  (confiabilidade (MultiAPI.formatAviationstack w o d flight i) < 0.8)%Q /\
  (preco (MultiAPI.formatAviationstack w o d flight i) == 0)%Q /\
  MultiAPI.idaLength (MultiAPI.formatAviationstack w o d flight i) = 1%nat.
Proof. repeat split. Qed.

Lemma amadeus_score (w : World) (raw : RawFlight) :
  (0.8 <= confiabilidade (MultiAPI.normalizeFlight w raw "AMADEUS"))%Q /\
  (confiabilidade (MultiAPI.normalizeFlight w raw "AMADEUS") <= 1)%Q.
Proof.
  cbn [MultiAPI.normalizeFlight confiabilidade].
  unfold MultiAPI.calculateReliability. rewrite price_test, detail_test.
  fold (priceOf raw). cbn [String.eqb Ascii.eqb Bool.eqb].
  destruct (outboundDetail raw), (Qltb 0 (priceOf raw)); split; vm_compute; congruence.
Qed.

(** X8.  What each adapter delivers has a score fixed by its source.
    Every flight of [searchTravelLink] has reliability 1 and one outbound
    leg.  [searchAviationStack] delivers at most ten flights, each with
    price 0, one outbound leg and the reliability 0.7999999999999999:
    the double 7205759403792793 / 2^53, just below 0.8, which is what
    0.5 + 0.2 + 0.1 gives in double precision.  Every flight of
    [searchAmadeus] has a reliability from 0.8 to 1. *)
Theorem adapter_scores (cfg : MultiAPI.Config) (w : World) (req : Request) :
  (exists flights,
      MultiAPI.searchTravelLink cfg w req = Ok flights /\
      Forall (fun f => (confiabilidade f == 1)%Q /\ MultiAPI.idaLength f = 1%nat)
             flights) /\
  (exists flights,
      MultiAPI.searchAviationStack cfg w req = Ok flights /\
      (length flights <= 10)%nat /\
      Forall (fun f => (confiabilidade f == 7205759403792793 # 9007199254740992)%Q /\
                       (confiabilidade f < 0.8)%Q /\ (preco f == 0)%Q /\
                       MultiAPI.idaLength f = 1%nat)
             flights) /\
  (exists flights,
      MultiAPI.searchAmadeus cfg w req = Ok flights /\
      Forall (fun f => (0.8 <= confiabilidade f)%Q /\ (confiabilidade f <= 1)%Q)
             flights).
Proof.
  split; [|split].
  - destruct (searchTravelLink_returns cfg w req) as (l & E & _).
    exists l. split; [exact E|].
    pose proof (searchTravelLink_all
                  (fun f => (confiabilidade f == 1)%Q /\ MultiAPI.idaLength f = 1%nat)
                  travellink_score cfg w req) as H.
    now rewrite E in H.
  - destruct (searchAviationStack_returns cfg w req) as (l & E & _).
    exists l. split; [exact E|].
    pose proof (searchAviationStack_all
                  (fun f => (confiabilidade f == 7205759403792793 # 9007199254740992)%Q /\
                            (confiabilidade f < 0.8)%Q /\ (preco f == 0)%Q /\
                            MultiAPI.idaLength f = 1%nat)
                  aviationstack_score cfg w req) as H.
    rewrite E in H. destruct H; auto.
  - destruct (searchAmadeus_returns cfg w req) as (l & E & _).
    exists l. split; [exact E|].
    pose proof (searchAmadeus_all
                  (fun f => (0.8 <= confiabilidade f)%Q /\ (confiabilidade f <= 1)%Q)
                  (fun w0 offer index => amadeus_score w0 _) cfg w req) as H.
    now rewrite E in H.
Qed.

(** X9.  Every flight that [searchFlightsMultiAPI] returns has a
    reliability from 0.7999999999999999 (the double
    7205759403792793 / 2^53, the score of an Aviationstack flight) to 1,
    and of at least 0.8 unless it is an Aviationstack flight. *)
Theorem searchFlightsMultiAPI_reliability_range (cfg : MultiAPI.Config) (w : World)
    (req : Request) :
  exists r,
    MultiAPI.searchFlightsMultiAPI cfg w req = Ok r /\
    Forall (fun f => (7205759403792793 # 9007199254740992 <= confiabilidade f)%Q /\
                     (confiabilidade f <= 1)%Q /\
                     (fonte f <> "AVIATIONSTACK" -> (0.8 <= confiabilidade f)%Q))
           (MultiAPI.voos r).
Proof.
  eexists. split; [apply searchFlightsMultiAPI_returns|].
  cbn [MultiAPI.summarize MultiAPI.voos].
  apply (Permutation_Forall (sort_perm MultiAPI.compareFlights _)).
  apply deduplicateFlights_Forall. rewrite joinTasks_spec. cbn [fst].
  apply offersOf_Forall. intros [ | | ]; cbn [MultiAPI.searchTask].
  - eapply (searchTravelLink_all
              (fun f => (7205759403792793 # 9007199254740992 <= confiabilidade f)%Q /\
                        (confiabilidade f <= 1)%Q /\
                        (fonte f <> "AVIATIONSTACK" -> (0.8 <= confiabilidade f)%Q))).
    intros w0 voo o d i. destruct (travellink_score w0 voo o d i) as [E _].
    rewrite E. split; [|split; [|intros _]]; vm_compute; congruence.
  - apply (searchAmadeus_all
             (fun f => (7205759403792793 # 9007199254740992 <= confiabilidade f)%Q /\
                       (confiabilidade f <= 1)%Q /\
                       (fonte f <> "AVIATIONSTACK" -> (0.8 <= confiabilidade f)%Q))).
    intros w0 offer index.
    destruct (amadeus_score w0
                (AmadeusFormat.formatOffer MultiAPI.companhiaMap "amadeus-"
                   (fun _ => JStr "AMADEUS") true offer index)) as [L U].
    split; [|split; [exact U | intros _; exact L]].
    eapply Qle_trans; [|exact L]. vm_compute; congruence.
  - assert (HP : forall w0 o d fl i,
               (7205759403792793 # 9007199254740992 <=
                confiabilidade (MultiAPI.formatAviationstack w0 o d fl i))%Q /\
               (confiabilidade (MultiAPI.formatAviationstack w0 o d fl i) <= 1)%Q /\
               (fonte (MultiAPI.formatAviationstack w0 o d fl i) <> "AVIATIONSTACK" ->
                (0.8 <= confiabilidade (MultiAPI.formatAviationstack w0 o d fl i))%Q)).
    { intros. cbn [MultiAPI.formatAviationstack MultiAPI.normalizeFlight
                   confiabilidade fonte].
      split; [|split]; [vm_compute; congruence | vm_compute; congruence |].
      intros N. now contradiction N. }
    pose proof (searchAviationStack_all
                  (fun f => (7205759403792793 # 9007199254740992 <= confiabilidade f)%Q /\
                            (confiabilidade f <= 1)%Q /\
                            (fonte f <> "AVIATIONSTACK" -> (0.8 <= confiabilidade f)%Q))
                  HP cfg w req) as H.
    destruct (MultiAPI.searchAviationStack cfg w req); [apply H | exact I].
Qed.

(** ** The Amadeus mapping *)

Lemma map_mapi_from {A B C : Type} (g : B -> C) (h : A -> C) (f : A -> nat -> B)
    (l : list A) :
  (forall x i, g (f x i) = h x) ->
  forall i, map g (mapi_from i f l) = map h l.
Proof.
  intros H. induction l as [|x l IH]; intros i; [reflexivity|].
  cbn [mapi_from map]. now rewrite H, IH.
Qed.

(** X10.  [searchAmadeus] asks for at most 15 offers for one adult, with
    the city codes and days of the request, and maps the answer offer by
    offer: when the token is there and the provider answers the query
    with a list of offers, the adapter returns one flight for each offer,
    in the same order, each tagged AMADEUS and carrying the provider's
    offer unchanged under [_originalOffer]. *)
Theorem searchAmadeus_keeps_offers (cfg : MultiAPI.Config) (w : World) (req : Request)
    (token day : string) (dv : option string) (offers : list Amadeus.FlightOffer) :
  MultiAPI.amadeus_enabled cfg = true ->
  MultiAPI.getAmadeusToken cfg w = Ok token ->
  isoDay w (req_dataIda req) = Ok day ->
  isoDay_opt w (req_dataVolta req) = Ok dv ->
  getFlightOffers w (MultiAPI.apiBaseUrl cfg) token
    {| Amadeus.originLocationCode := MultiAPI.getCityCode (req_origem req);
       Amadeus.destinationLocationCode := MultiAPI.getCityCode (req_destino req);
       Amadeus.departureDate := day;
       Amadeus.adults := 1;
       Amadeus.max := 15;
       Amadeus.returnDate := dv |} = Ok (Some offers) ->
  exists flights,
    MultiAPI.searchAmadeus cfg w req = Ok flights /\
    map _originalOffer flights = map (fun o => Some (FromAmadeus o)) offers /\
    Forall (fun f => fonte f = "AMADEUS" /\ linkReserva f = JStr "AMADEUS") flights.
Proof.
  intros He Ht Hd Hv Hq. unfold MultiAPI.searchAmadeus.
  rewrite He, Ht. cbn [negb bind]. rewrite Hd. cbn [bind]. rewrite Hv. cbn [bind].
  rewrite Hq. cbn [bind try_catch].
  destruct offers as [|o offers]; [exists []; repeat split; constructor|].
  eexists. split; [reflexivity|]. split.
  - unfold mapi. now apply map_mapi_from.
  - apply Forall_mapi_from. intros x i. split; reflexivity.
Qed.

Lemma searchAmadeus_keeps_offers_witness :
  exists flights,
    MultiAPI.searchAmadeus Examples.cfg3
      (Examples.world (Ok (Some [Examples.amOffer "1" "500.00";
                                 Examples.amOffer "2" "510.00"]))
         (Throw Examples.timeout) (Ok None))
      Examples.request = Ok flights /\
    map _originalOffer flights =
      [ Some (FromAmadeus (Examples.amOffer "1" "500.00"));
        Some (FromAmadeus (Examples.amOffer "2" "510.00")) ].
Proof.
  destruct (searchAmadeus_keeps_offers Examples.cfg3
              (Examples.world (Ok (Some [Examples.amOffer "1" "500.00";
                                         Examples.amOffer "2" "510.00"]))
                 (Throw Examples.timeout) (Ok None))
              Examples.request "token" "2025-12-25" None
              [Examples.amOffer "1" "500.00"; Examples.amOffer "2" "510.00"]
              eq_refl eq_refl eq_refl eq_refl eq_refl)
    as (flights & E & O & _).
  exists flights. split; [exact E | exact O].
Defined.

(** X11.  In a flight made from an Amadeus offer the number of stops of
    the outbound trip is the number of its legs less one, and zero when
    there is no leg: it is never negative.  This holds of the flight
    literal that both copies of the mapping build, and of the flight that
    [searchAmadeus] makes of it. *)
Theorem amadeus_stops_and_legs (carriers : list (string * string)) (idPrefix : string)
    (link : Amadeus.FlightOffer -> JsVal) (keep : bool)
    (offer : Amadeus.FlightOffer) (index : nat) (w : World) :
  raw_escalasIda
    (AmadeusFormat.formatOffer carriers idPrefix link keep offer index) =
  JNum (inject_Z
          (Z.max 0
             (Z.of_nat
                (length (outboundDetail
                           (AmadeusFormat.formatOffer carriers idPrefix link keep
                              offer index))) - 1))) /\
  escalasIda
    (MultiAPI.normalizeFlight w
       (AmadeusFormat.formatOffer carriers idPrefix link keep offer index) "AMADEUS") =
  JNum (inject_Z
          (Z.max 0
             (Z.of_nat
                (MultiAPI.idaLength
                   (MultiAPI.normalizeFlight w
                      (AmadeusFormat.formatOffer carriers idPrefix link keep
                         offer index) "AMADEUS")) - 1))).
Proof.
  unfold MultiAPI.idaLength, outboundDetail.
  cbn [MultiAPI.normalizeFlight escalasIda detalhes].
  unfold AmadeusFormat.formatOffer.
  cbn [raw_escalasIda raw_detalhes ida].
  unfold AmadeusFormat.stops.
  destruct (Amadeus.segments _) as [[|s l]|]; try (split; reflexivity).
  rewrite length_map. cbn [length].
  assert (E : Z.max 0 (Z.of_nat (S (length l)) - 1) = (Z.of_nat (S (length l)) - 1)%Z)
    by lia.
  rewrite E. split; [reflexivity|].
  unfold or_else. cbn [truthy].
  destruct (Qeq_bool _ 0) eqn:Q0; [|reflexivity].
  apply Qeq_bool_eq in Q0. unfold Qeq in Q0. cbn [Qnum Qden inject_Z] in Q0.
  cbn [negb]. replace (Z.of_nat (S (length l)) - 1)%Z with 0%Z by lia. reflexivity.
Qed.

Lemma read_digits_noHours (s : string) :
  forall acc len,
    noHours s = true -> noHours (snd (read_digits acc len s)) = true.
Proof.
  induction s as [|c s IH]; intros acc len H; [exact H|].
  cbn [read_digits]. destruct (is_digit c); [|exact H].
  apply IH. unfold noHours in *. cbn [forall_string] in H.
  now apply andb_true_iff in H as [_ H].
Qed.

Lemma HM_here_noHours (s : string) : noHours s = true -> HM_here s = None.
Proof.
  intros H. unfold HM_here.
  pose proof (read_digits_noHours s 0 0 H) as R.
  destruct (read_digits 0 0 s) as [[v n1] r1]. cbn [snd] in R.
  destruct n1 as [|n1]; [reflexivity|].
  destruct r1 as [|h r2]; [reflexivity|].
  unfold noHours in R. cbn [forall_string] in R.
  apply andb_true_iff in R as [R _]. apply negb_true_iff in R. now rewrite R.
Qed.

Lemma match_HM_noHours (s : string) : noHours s = true -> match_HM s = None.
Proof.
  induction s as [|c s IH]; intros H.
  - reflexivity.
  - cbn [match_HM]. rewrite (HM_here_noHours _ H). apply IH.
    unfold noHours in *. cbn [forall_string] in H.
    now apply andb_true_iff in H as [_ H].
Qed.

(** X12.  [calculateDuration] rewrites a duration only when it finds
    hours in it.  For an itinerary with at least one segment whose
    duration has no capital H (as in PT45M), the duration is handed on as
    it is, and N/A stands for an empty one. *)
Theorem calculateDuration_without_hours (it : Amadeus.Itinerary) (d : string)
    (seg : Amadeus.Segment) (segs : list Amadeus.Segment) :
  Amadeus.segments it = Some (seg :: segs) ->
  Amadeus.duration it = Some d ->
  noHours d = true ->
  AmadeusFormat.calculateDuration it = if d =? "" then JStr "N/A" else JStr d.
Proof.
  intros Hs Hd Hn. unfold AmadeusFormat.calculateDuration.
  rewrite Hs, Hd, (match_HM_noHours d Hn).
  unfold or_else. cbn [of_option truthy]. now destruct (d =? "").
Qed.

Lemma calculateDuration_without_hours_witness :
  AmadeusFormat.calculateDuration
    {| Amadeus.duration := Some "PT45M";
       Amadeus.segments :=
         Some [ {| Amadeus.departure := None; Amadeus.arrival := None;
                   Amadeus.seg_duration := JStr "PT45M";
                   Amadeus.carrierCode := JStr "LA";
                   Amadeus.number := JStr "3000" |} ] |} = JStr "PT45M".
Proof.
  exact (calculateDuration_without_hours
           {| Amadeus.duration := Some "PT45M";
              Amadeus.segments :=
                Some [ {| Amadeus.departure := None; Amadeus.arrival := None;
                          Amadeus.seg_duration := JStr "PT45M";
                          Amadeus.carrierCode := JStr "LA";
                          Amadeus.number := JStr "3000" |} ] |}
           "PT45M" _ [] eq_refl eq_refl eq_refl).
Defined.

(** ** The shapes of a TravelLink answer *)




(** X14.  An empty list of flights inside a wrapped object is not read
    as "no flights".  The adapter then takes the object that holds the
    empty list for a flight, and returns one flight made of defaults:
    airline N/A, price 0, the city codes of the request, and the full
    reliability 1 of a TravelLink flight. *)
Theorem travellink_empty_inner_list (w : World) (o d : JsVal) (k k2 : string) :
  In k outerWrappers ->
  In k2 innerWrappers ->
  exists f,
    MultiAPI.processarResultadosTravelLink w
      (JObj [(k, JObj [(k2, JArr [])])]) o d = [f] /\
    companhia f = JStr "N/A" /\
    (preco f == 0)%Q /\
    origem f = o ||| JStr "" /\
    destino f = d ||| JStr "" /\
    fonte f = "TRAVELLINK" /\
    (confiabilidade f == 1)%Q.
Proof.
  intros Hk Hk2.
  exists (MultiAPI.formatarVooTravelLink w (JObj [(k2, JArr [])]) o d 0).
  cbn [outerWrappers In] in Hk. cbn [innerWrappers In] in Hk2.
  split.
  - destruct Hk as [<-|[<-|[<-|[<-|[<-|[<-|[<-|[<-|[]]]]]]]]];
      destruct Hk2 as [<-|[<-|[<-|[<-|[<-|[<-|[]]]]]]]; reflexivity.
  - destruct Hk2 as [<-|[<-|[<-|[<-|[<-|[<-|[]]]]]]];
      (repeat split; try reflexivity; apply travellink_score).
Qed.

Lemma travellink_empty_inner_list_witness :
  exists f,
    MultiAPI.processarResultadosTravelLink Examples.allEmpty
      (JObj [("DisponibilidadeResult", JObj [("Voos", JArr [])])])
      (JStr "GRU") (JStr "SDU") = [f] /\
    companhia f = JStr "N/A".
Proof.
  destruct (travellink_empty_inner_list Examples.allEmpty (JStr "GRU") (JStr "SDU")
              "DisponibilidadeResult" "Voos")
    as (f & E & C & _).
  - simpl. tauto.
  - simpl. tauto.
  - exists f. split; [exact E | exact C].
Defined.

(** ** The search entry point *)



Ltac split_cases :=
  repeat match goal with
         | |- context [match ?x with _ => _ end] => destruct x eqn:?
         end.

Lemma searchTask_invalid_date (cfg : MultiAPI.Config) (w : World) (req : Request)
    (p : Provider) :
  req_dataIda req = InvalidDate -> MultiAPI.searchTask cfg w req p = Ok [].
Proof.
  intros H. destruct p; cbn [MultiAPI.searchTask].
  - unfold MultiAPI.searchTravelLink. rewrite H.
    now destruct (negb (MultiAPI.travellink_enabled cfg)).
  - unfold MultiAPI.searchAmadeus. rewrite H.
    destruct (negb (MultiAPI.amadeus_enabled cfg)); [reflexivity|].
    now destruct (MultiAPI.getAmadeusToken cfg w).
  - unfold MultiAPI.searchAviationStack. rewrite H.
    now destruct (negb (MultiAPI.aviationstack_enabled cfg)).
Qed.

Lemma searchFlightsAmadeus_invalid_date (e : Env) (w : World) (req : Request) :
  req_dataIda req = InvalidDate ->
  exists err, FlightsService.searchFlightsAmadeus e w req = Throw err.
Proof.
  intros H. unfold FlightsService.searchFlightsAmadeus. rewrite H.
  destruct (FlightsService.getAmadeusToken e w) as [token|err0];
    cbn [bind isoDay isoString try_catch].
  - eexists. reflexivity.
  - split_cases; eexists; reflexivity.
Qed.

(** X16.  A departure date that is no date reaches no flight.  With a
    provider enabled, [searchFlights] then returns the empty list when
    the mock switch is off; with the switch on, the mock generator
    raises its "Invalid time value", and this is what the caller gets. *)
Theorem searchFlights_invalid_departure_date (e : Env) (cfg : MultiAPI.Config)
    (w : World) (req : Request) :
  (exists p, MultiAPI.enabled cfg p = true) ->
  req_dataIda req = InvalidDate ->
  FlightsService.searchFlights e cfg w req =
    if FlightsService.USE_MOCK_FLIGHTS e
    then Throw (Error "Invalid time value")
    else Ok [].
Proof.
  intros He Hd. unfold FlightsService.searchFlights.
  rewrite (useMultiAPI_true cfg He).
  cbn [FlightsService.USE_MOCK_DATA andb negb].
  destruct (searchFlightsMultiAPI_empty cfg w req) as (r & -> & Hr).
  { intros p. now apply searchTask_invalid_date. }
  cbn [bind]. rewrite Hr.
  destruct (FlightsService.USE_MOCK_FLIGHTS e); [|reflexivity].
  assert (M : FlightsService.mockFallback w req = Throw (Error "Invalid time value")).
  { unfold FlightsService.mockFallback, FlightsService.generateMockFlights.
    rewrite Hd. reflexivity. }
  rewrite M. cbn [try_catch].
  destruct (MultiAPI.amadeus_enabled cfg); [|reflexivity].
  destruct (searchFlightsAmadeus_invalid_date e w req Hd) as (err & ->).
  reflexivity.
Qed.

Lemma searchFlights_invalid_departure_date_witness :
  FlightsService.searchFlights (Examples.env "true") Examples.cfg3 Examples.amadeusDown
    {| req_origem := "GRU"; req_destino := "SDU"; req_dataIda := InvalidDate;
       req_dataVolta := None |} = Throw (Error "Invalid time value").
Proof.
  exact (searchFlights_invalid_departure_date (Examples.env "true") Examples.cfg3
           Examples.amadeusDown
           {| req_origem := "GRU"; req_dataIda := InvalidDate; req_destino := "SDU";
              req_dataVolta := None |}
           (ex_intro _ TRAVELLINK eq_refl) eq_refl).
Defined.

(** ** Errors of the direct Amadeus search *)

Lemma includes_after_prefix (m : string) :
  includes "timeout" ("Erro ao autenticar com Amadeus API: " ++ m) =
  includes "timeout" m.
Proof. reflexivity. Qed.

(** Every error of the service's [getAmadeusToken] is a new [Error], whose
    message does not speak of a timeout. *)
Lemma service_token_error (e : Env) (w : World) (err : JsError) :
  FlightsService.getAmadeusToken e w = Throw err ->
  err = Error (message err) /\ includes "timeout" (message err) = false.
Proof.
  unfold FlightsService.getAmadeusToken.
  assert (F : forall body : Exc string,
             try_catch body
               (fun error =>
                  match status error with
                  | Some 401%Z =>
                      Throw (Error "Credenciais inválidas. Verifique AMADEUS_API_KEY e AMADEUS_API_SECRET no arquivo .env")
                  | _ =>
                      if (code error =? "ENOTFOUND") || (code error =? "ECONNREFUSED") then
                        Throw (Error "Não foi possível conectar à API do Amadeus. Verifique sua conexão com a internet.")
                      else if (code error =? "ETIMEDOUT") || includes "timeout" (message error) then
                        Throw (Error "Tempo de espera esgotado ao conectar com a API do Amadeus.")
                      else
                        Throw (Error ("Erro ao autenticar com Amadeus API: " ++ message error))
                  end) = Throw err ->
             err = Error (message err) /\ includes "timeout" (message err) = false).
  { intros [token|e0]; cbn [try_catch]; [discriminate|].
    assert (L : (if (code e0 =? "ENOTFOUND") || (code e0 =? "ECONNREFUSED")
                 then Throw (Error "Não foi possível conectar à API do Amadeus. Verifique sua conexão com a internet.")
                 else if (code e0 =? "ETIMEDOUT") || includes "timeout" (message e0)
                 then Throw (Error "Tempo de espera esgotado ao conectar com a API do Amadeus.")
                 else Throw (Error ("Erro ao autenticar com Amadeus API: " ++ message e0)))
                = @Throw string err ->
                err = Error (message err) /\ includes "timeout" (message err) = false).
    { destruct (_ || _); [intros H; injection H as <-; split; reflexivity|].
      destruct (_ || _) eqn:T; intros H; injection H as <-; [split; reflexivity|].
      split; [reflexivity|]. apply orb_false_iff in T as [_ T].
      etransitivity; [apply includes_after_prefix | exact T]. }
    destruct (status e0) as [z|]; [|exact L].
    destruct (Z.eq_dec z 401) as [->|N].
    - intros H; injection H as <-; split; reflexivity.
    - intros H. apply L. rewrite <- H. clear - N.
      destruct z as [|p|p]; try reflexivity.
      do 9 (destruct p as [p|p|]; try reflexivity). all: congruence. }
  destruct (serviceTokenCache w) as [[token expiry]|]; [|apply F].
  destruct (_ && _); [discriminate | apply F].
Qed.

Lemma searchFlightsAmadeus_token_throw (e : Env) (w : World) (req : Request)
    (err : JsError) :
  FlightsService.getAmadeusToken e w = Throw err ->
  FlightsService.searchFlightsAmadeus e w req =
    Throw (Error ("Erro ao buscar voos: " ++ message err)).
Proof.
  intros H. destruct (service_token_error e w err H) as [E T].
  unfold FlightsService.searchFlightsAmadeus. rewrite H. cbn [bind try_catch].
  rewrite E. cbn [status code detail message Error String.eqb orb].
  now rewrite T.
Qed.

(** X17.  When the flights service cannot get a token, its direct search
    raises an error whose message is the token error's message behind
    "Erro ao buscar voos: ", whatever the cause was: the token error
    carries no status and no code for the search to tell it by. *)
Theorem searchFlightsAmadeus_token_failure (e : Env) (w : World) (req : Request)
    (err : JsError) :
  FlightsService.getAmadeusToken e w = Throw err ->
  FlightsService.searchFlightsAmadeus e w req =
    Throw (Error ("Erro ao buscar voos: " ++ message err)).
Proof. apply searchFlightsAmadeus_token_throw. Qed.

Lemma searchFlightsAmadeus_token_failure_witness :
  FlightsService.searchFlightsAmadeus (Examples.env "")
    (mkWorld 0 "" (fun _ => "") (fun t _ _ => t) (fun _ => 0%Q) None None
       (fun _ _ _ => Throw (mkError "Request failed with status code 401"
                              (Some 401%Z) "ERR_BAD_REQUEST" None))
       (fun _ _ _ => Ok None) (fun _ _ _ => Ok None)
       (Throw Examples.timeout) (fun _ => Ok None) TL_AM_AV)
    Examples.request =
  Throw (Error "Erro ao buscar voos: Credenciais inválidas. Verifique AMADEUS_API_KEY e AMADEUS_API_SECRET no arquivo .env").
Proof.
  exact (searchFlightsAmadeus_token_failure (Examples.env "")
           (mkWorld 0 "" (fun _ => "") (fun t _ _ => t) (fun _ => 0%Q) None None
              (fun _ _ _ => Throw (mkError "Request failed with status code 401"
                                     (Some 401%Z) "ERR_BAD_REQUEST" None))
              (fun _ _ _ => Ok None) (fun _ _ _ => Ok None)
              (Throw Examples.timeout) (fun _ => Ok None) TL_AM_AV)
           Examples.request _ eq_refl).
Defined.

(** X18.  Without a key or without a secret, and with no token in its
    cache, the flights service's [getAmadeusToken] raises its hint about
    the credentials from inside its own [try], so the hint arrives
    wrapped as an authentication error; the direct search wraps it once
    more. *)
Theorem service_token_missing_credentials (e : Env) (w : World) (req : Request) :
  AMADEUS_API_KEY e = "" \/ AMADEUS_API_SECRET e = "" ->
  serviceTokenCache w = None ->
  FlightsService.getAmadeusToken e w = Throw (Error missingCredentials) /\
  FlightsService.searchFlightsAmadeus e w req =
    Throw (Error ("Erro ao buscar voos: " ++ missingCredentials)).
Proof.
  intros Hk Hc.
  assert (T : FlightsService.getAmadeusToken e w = Throw (Error missingCredentials)).
  { unfold FlightsService.getAmadeusToken. rewrite Hc.
    destruct Hk as [-> | ->]; [|rewrite orb_true_r]; reflexivity. }
  split; [exact T|]. exact (searchFlightsAmadeus_token_throw e w req _ T).
Qed.

Lemma service_token_missing_credentials_witness :
  FlightsService.getAmadeusToken
    {| AMADEUS_API_KEY := ""; AMADEUS_API_SECRET := ""; AMADEUS_ENV := "";
       AVIATIONSTACK_API_KEY := ""; USE_MOCK_FLIGHTS_var := "" |}
    Examples.allEmpty = Throw (Error missingCredentials).
Proof.
  exact (proj1 (service_token_missing_credentials
                  {| AMADEUS_API_KEY := ""; AMADEUS_API_SECRET := ""; AMADEUS_ENV := "";
                     AVIATIONSTACK_API_KEY := ""; USE_MOCK_FLIGHTS_var := "" |}
                  Examples.allEmpty Examples.request (or_introl eq_refl) eq_refl)).
Defined.

(** ** Mock flights in order *)




(** ** One price confirmation *)

(** X20.  [confirmFlightPrice] succeeds exactly when Amadeus is enabled,
    a token is obtained and the pricing service answers with at least
    one offer.  The confirmed price then has the id of the first offer of
    the answer and is marked as confirmed, and one pricing request was
    sent, for the offer given.  Every error it raises is a new error with
    a message only: the status of a failed request is not passed on. *)
Theorem confirmFlightPrice_outcome (cfg : MultiAPI.Config) (w : World)
    (offer : Amadeus.FlightOffer) :
  (forall p,
      fst (MultiAPI.confirmFlightPrice cfg w offer) = Ok p ->
      MultiAPI.amadeus_enabled cfg = true /\
      snd (MultiAPI.confirmFlightPrice cfg w offer) = [offer] /\
      MultiAPI.Pricing.confirmado p = true /\
      exists token first rest,
        MultiAPI.getAmadeusToken cfg w = Ok token /\
        postPricing w (MultiAPI.apiBaseUrl cfg) token offer = Ok (Some (first :: rest)) /\
        MultiAPI.Pricing.id p = Amadeus.id first) /\
  (forall token first rest,
      MultiAPI.amadeus_enabled cfg = true ->
      MultiAPI.getAmadeusToken cfg w = Ok token ->
      postPricing w (MultiAPI.apiBaseUrl cfg) token offer = Ok (Some (first :: rest)) ->
      exists p, fst (MultiAPI.confirmFlightPrice cfg w offer) = Ok p) /\
  (forall err,
      fst (MultiAPI.confirmFlightPrice cfg w offer) = Throw err ->
      err = Error (message err)).
Proof.
  unfold MultiAPI.confirmFlightPrice. split; [|split].
  - intros p. destruct (MultiAPI.amadeus_enabled cfg); cbn [negb fst snd];
      [|discriminate].
    destruct (MultiAPI.getAmadeusToken cfg w) as [token|e0]; cbn [fst snd bind try_catch].
    + destruct (postPricing w (MultiAPI.apiBaseUrl cfg) token offer)
        as [[[|first rest]|]|e1] eqn:Hp; cbn [bind try_catch].
      * split_cases; discriminate.
      * intros H; injection H as <-. repeat split.
        exists token, first, rest. repeat split. exact Hp.
      * split_cases; discriminate.
      * split_cases; discriminate.
    + split_cases; discriminate.
  - intros token first rest -> -> Hp. cbn [negb fst bind]. rewrite Hp.
    eexists. reflexivity.
  - intros err. destruct (negb (MultiAPI.amadeus_enabled cfg)); cbn [fst].
    + intros H; injection H as <-. reflexivity.
    + destruct (MultiAPI.getAmadeusToken cfg w) as [token|e0];
        cbn [fst bind try_catch].
      * destruct (postPricing w _ token offer) as [[[|first rest]|]|e1];
          cbn [bind try_catch]; try discriminate;
          split_cases; intros H; injection H as <-; reflexivity.
      * split_cases; intros H; injection H as <-; reflexivity.
Qed.

(** ** The order in which the providers complete *)

(** X21.  Which of two duplicates survives can depend on which comes
    first.  Of two offers with the same dedup key, one more reliable and
    the other with more outbound legs, each replaces the other:
    [deduplicateFlights] keeps the one that comes last. *)
Theorem deduplicateFlights_order_dependence (a b : Offer) :
  MultiAPI.dedupKey a = MultiAPI.dedupKey b ->
  (confiabilidade a < confiabilidade b)%Q ->
  (MultiAPI.idaLength b < MultiAPI.idaLength a)%nat ->
  MultiAPI.deduplicateFlights [a; b] = [b] /\
  MultiAPI.deduplicateFlights [b; a] = [a].
Proof.
  intros Hk Hc Hl.
  assert (Rba : MultiAPI.replaces b a = true).
  { apply replaces_iff. now left. }
  assert (Rab : MultiAPI.replaces a b = true).
  { apply replaces_iff. now right. }
  unfold MultiAPI.deduplicateFlights. cbn [fold_left].
  unfold MultiAPI.dedupStep. cbn [map_get assoc map_set app].
  rewrite Hk, String.eqb_refl, Rba, Rab.
  cbn [findIndex]. rewrite !strict_eq_refl. split; reflexivity.
Qed.

Lemma deduplicateFlights_order_dependence_witness :
  MultiAPI.deduplicateFlights [Examples.viaCGH; Examples.direct] = [Examples.direct] /\
  MultiAPI.deduplicateFlights [Examples.direct; Examples.viaCGH] = [Examples.viaCGH].
Proof.
  apply (deduplicateFlights_order_dependence Examples.viaCGH Examples.direct).
  - reflexivity.
  - reflexivity.
  - vm_compute. lia.
Defined.

Lemma order_of_perm (i : Interleaving) :
  Permutation (order_of i) [TRAVELLINK; AMADEUS; AVIATIONSTACK].
Proof.
  destruct i; cbn [order_of].
  - reflexivity.
  - apply perm_skip, perm_swap.
  - apply perm_swap.
  - symmetry. apply (Permutation_cons_append [AMADEUS; AVIATIONSTACK] TRAVELLINK).
  - apply (Permutation_cons_append [TRAVELLINK; AMADEUS] AVIATIONSTACK).
  - symmetry. apply (Permutation_rev [TRAVELLINK; AMADEUS; AVIATIONSTACK]).
Qed.

Lemma offersOf_perm (task : Provider -> Exc (list Offer)) (l l' : list Provider) :
  Permutation l l' -> Permutation (offersOf task l) (offersOf task l').
Proof.
  intros H. unfold offersOf. rewrite <- !flat_map_concat_map.
  now apply Permutation_flat_map.
Qed.

Lemma filter_perm {A : Type} (p : A -> bool) (l l' : list A) :
  Permutation l l' -> Permutation (filter p l) (filter p l').
Proof.
  induction 1 as [|x l l' H IH|x y l|l l' l'' H1 IH1 H2 IH2]; cbn [filter].
  - constructor.
  - destruct (p x); [now constructor | exact IH].
  - destruct (p x), (p y); try reflexivity. apply perm_swap.
  - now transitivity (filter p l').
Qed.

Lemma searchTask_withCompletion (cfg : MultiAPI.Config) (w : World) (req : Request)
    (i : Interleaving) (p : Provider) :
  MultiAPI.searchTask cfg (withCompletion i w) req p = MultiAPI.searchTask cfg w req p.
Proof. destruct p; reflexivity. Qed.

Lemma offersOf_ext (task task' : Provider -> Exc (list Offer)) (l : list Provider) :
  (forall p, task p = task' p) -> offersOf task l = offersOf task' l.
Proof.
  intros H. unfold offersOf. f_equal. apply map_ext. intros p. now rewrite H.
Qed.

Lemma dedup_distinct_keys (flights : list Offer) :
  NoDup (map MultiAPI.dedupKey flights) ->
  MultiAPI.deduplicateFlights flights = flights.
Proof.
  intros H. unfold MultiAPI.deduplicateFlights.
  etransitivity; [apply (dedupFold_distinct flights [] [] H)|reflexivity].
  reflexivity.
Qed.

(** X22.  When the offers that the enabled providers deliver have
    pairwise distinct dedup keys, the order in which the providers
    complete does not change what the search returns: in every other
    completion order the same search returns the same flights, as a
    permutation (flights of equal rank may change places), and the same
    total. *)
Theorem completion_order_independence (cfg : MultiAPI.Config) (w : World)
    (req : Request) (i : Interleaving) :
  NoDup (map MultiAPI.dedupKey
           (fst (MultiAPI.joinTasks cfg (MultiAPI.searchTask cfg w req)
                   (order_of (completion w))))) ->
  exists r r',
    MultiAPI.searchFlightsMultiAPI cfg w req = Ok r /\
    MultiAPI.searchFlightsMultiAPI cfg (withCompletion i w) req = Ok r' /\
    Permutation (MultiAPI.voos r) (MultiAPI.voos r') /\
    MultiAPI.total (MultiAPI.estatisticas r) =
      MultiAPI.total (MultiAPI.estatisticas r').
Proof.
  intros Hn. do 2 eexists.
  split; [apply searchFlightsMultiAPI_returns|].
  split; [apply searchFlightsMultiAPI_returns|].
  cbn [MultiAPI.summarize MultiAPI.voos MultiAPI.estatisticas MultiAPI.total].
  rewrite joinTasks_spec in Hn. rewrite !joinTasks_spec. cbn [fst] in Hn |- *.
  change (completion (withCompletion i w)) with i.
  assert (T : offersOf (MultiAPI.searchTask cfg (withCompletion i w) req)
                (filter (MultiAPI.enabled cfg) (order_of i)) =
              offersOf (MultiAPI.searchTask cfg w req)
                (filter (MultiAPI.enabled cfg) (order_of i))).
  { apply offersOf_ext. intros p. apply searchTask_withCompletion. }
  rewrite T. clear T.
  assert (P : Permutation
                (offersOf (MultiAPI.searchTask cfg w req)
                   (filter (MultiAPI.enabled cfg) (order_of (completion w))))
                (offersOf (MultiAPI.searchTask cfg w req)
                   (filter (MultiAPI.enabled cfg) (order_of i)))).
  { apply offersOf_perm, filter_perm.
    transitivity [TRAVELLINK; AMADEUS; AVIATIONSTACK];
      [apply order_of_perm | symmetry; apply order_of_perm]. }
  assert (Hn' : NoDup (map MultiAPI.dedupKey
                         (offersOf (MultiAPI.searchTask cfg w req)
                            (filter (MultiAPI.enabled cfg) (order_of i))))).
  { eapply Permutation_NoDup; [|exact Hn]. now apply Permutation_map. }
  rewrite (dedup_distinct_keys _ Hn), (dedup_distinct_keys _ Hn').
  assert (S : Permutation
                (sort MultiAPI.compareFlights
                   (offersOf (MultiAPI.searchTask cfg w req)
                      (filter (MultiAPI.enabled cfg) (order_of (completion w)))))
                (sort MultiAPI.compareFlights
                   (offersOf (MultiAPI.searchTask cfg w req)
                      (filter (MultiAPI.enabled cfg) (order_of i))))).
  { rewrite <- !sort_perm. exact P. }
  split; [exact S | now apply Permutation_length].
Qed.

Lemma completion_order_independence_witness :
  exists r r',
    MultiAPI.searchFlightsMultiAPI Examples.cfg3 Examples.amadeusDown
      Examples.request = Ok r /\
    MultiAPI.searchFlightsMultiAPI Examples.cfg3
      (withCompletion AV_AM_TL Examples.amadeusDown) Examples.request = Ok r' /\
    Permutation (MultiAPI.voos r) (MultiAPI.voos r').
Proof.
  destruct (completion_order_independence Examples.cfg3 Examples.amadeusDown
              Examples.request AV_AM_TL)
    as (r & r' & E & E' & P & _).
  - vm_compute. repeat constructor; simpl; intuition discriminate.
  - exists r, r'. repeat split; assumption.
Defined.

(** ** What every search result holds *)

(** X23.  The error list of the statistics is always empty: the three
    adapters turn every failure into an empty list, so no task of
    [searchFlightsMultiAPI] is ever rejected.  And the search invents no
    flight: every flight it returns was delivered by the adapter of an
    enabled provider. *)
Theorem searchFlightsMultiAPI_reports_no_error (cfg : MultiAPI.Config) (w : World)
    (req : Request) :
  exists r,
    MultiAPI.searchFlightsMultiAPI cfg w req = Ok r /\
    MultiAPI.erros (MultiAPI.estatisticas r) = [] /\
    incl (MultiAPI.voos r)
         (offersOf (MultiAPI.searchTask cfg w req)
            (filter (MultiAPI.enabled cfg) (order_of (completion w)))).
Proof.
  eexists. split; [apply searchFlightsMultiAPI_returns|].
  cbn [MultiAPI.summarize MultiAPI.voos MultiAPI.estatisticas MultiAPI.erros].
  rewrite joinTasks_spec. cbn [fst snd]. split.
  - apply errorsOf_fulfilled. intros p.
    destruct (searchTask_returns cfg w req p) as (l & E & _). now exists l.
  - intros f Hf.
    apply (Permutation_in _ (Permutation_sym (sort_perm MultiAPI.compareFlights _)))
      in Hf.
    pose proof (dedupFold_keys
                  (offersOf (MultiAPI.searchTask cfg w req)
                     (filter (MultiAPI.enabled cfg) (order_of (completion w))))
                  [] [] eq_refl (NoDup_nil _)) as H.
    cbv zeta in H. destruct H as (_ & _ & _ & I). now apply I in Hf.
Qed.

Lemma or_else_truthy (a b : JsVal) : truthy b = true -> truthy (a ||| b) = true.
Proof. intros H. unfold or_else. now destruct (truthy a) eqn:E. Qed.

Lemma normalizeFlight_filled (w : World) (raw : RawFlight) (source : string) :
  source <> "" ->
  truthy (id (MultiAPI.normalizeFlight w raw source)) = true /\
  truthy (moeda (MultiAPI.normalizeFlight w raw source)) = true /\
  truthy (companhia (MultiAPI.normalizeFlight w raw source)) = true /\
  truthy (linkReserva (MultiAPI.normalizeFlight w raw source)) = true.
Proof.
  intros Hs. cbn [MultiAPI.normalizeFlight id moeda companhia linkReserva].
  repeat split; apply or_else_truthy; try reflexivity.
  - cbn [truthy]. now destruct source.
  - cbn [truthy]. destruct source; [contradiction | reflexivity].
Qed.

(** X24.  No flight of a search result lacks its id, its currency, its
    airline or its booking link: [normalizeFlight] puts a default where
    the provider gave nothing, so each of the four is a value that counts
    as true. *)
Theorem searchFlightsMultiAPI_fields_present (cfg : MultiAPI.Config) (w : World)
    (req : Request) :
  exists r,
    MultiAPI.searchFlightsMultiAPI cfg w req = Ok r /\
    Forall (fun f => truthy (id f) = true /\ truthy (moeda f) = true /\
                     truthy (companhia f) = true /\ truthy (linkReserva f) = true)
           (MultiAPI.voos r).
Proof.
  eexists. split; [apply searchFlightsMultiAPI_returns|].
  cbn [MultiAPI.summarize MultiAPI.voos].
  apply (Permutation_Forall (sort_perm MultiAPI.compareFlights _)).
  apply deduplicateFlights_Forall. rewrite joinTasks_spec. cbn [fst].
  apply offersOf_Forall. intros [ | | ]; cbn [MultiAPI.searchTask].
  - apply (searchTravelLink_all
             (fun f => truthy (id f) = true /\ truthy (moeda f) = true /\
                       truthy (companhia f) = true /\ truthy (linkReserva f) = true)).
    intros w0 voo o d i. unfold MultiAPI.formatarVooTravelLink.
    apply normalizeFlight_filled. discriminate.
  - apply (searchAmadeus_all
             (fun f => truthy (id f) = true /\ truthy (moeda f) = true /\
                       truthy (companhia f) = true /\ truthy (linkReserva f) = true)).
    intros w0 offer index. apply normalizeFlight_filled. discriminate.
  - pose proof (searchAviationStack_all
                  (fun f => truthy (id f) = true /\ truthy (moeda f) = true /\
                            truthy (companhia f) = true /\
                            truthy (linkReserva f) = true)) as H.
    assert (HP : forall w0 o d fl i,
               truthy (id (MultiAPI.formatAviationstack w0 o d fl i)) = true /\
               truthy (moeda (MultiAPI.formatAviationstack w0 o d fl i)) = true /\
               truthy (companhia (MultiAPI.formatAviationstack w0 o d fl i)) = true /\
               truthy (linkReserva (MultiAPI.formatAviationstack w0 o d fl i)) = true).
    { intros. unfold MultiAPI.formatAviationstack.
      apply normalizeFlight_filled. discriminate. }
    specialize (H HP cfg w req).
    destruct (MultiAPI.searchAviationStack cfg w req); [apply H | exact I].
Qed.

(** ** Confirmation without Amadeus *)

Lemma confirmMultipleFlightPrices_unfold (cfg : MultiAPI.Config) (w : World)
    (l : list Amadeus.FlightOffer) :
  MultiAPI.confirmMultipleFlightPrices cfg w l =
  (Ok (flat_map (annotate cfg w) (firstn 5 l)),
   flat_map (fun o => snd (MultiAPI.confirmFlightPrice cfg w o)) (firstn 5 l)).
Proof.
  destruct l as [|o os]; [reflexivity|].
  unfold MultiAPI.confirmMultipleFlightPrices, mapi.
  rewrite batch_requests. f_equal.
  pose proof (batch_confirmed cfg w (firstn 5 (o :: os)) [] (skipn 5 (o :: os)) [])
    as B.
  cbn [length app] in B. rewrite firstn_skipn in B. exact B.
Qed.

Lemma flat_map_nil {A B : Type} (f : A -> list B) (l : list A) :
  (forall x, f x = []) -> flat_map f l = [].
Proof.
  intros H. induction l as [|x l IH]; [reflexivity|].
  cbn [flat_map]. now rewrite H, IH.
Qed.

(** X25.  Without Amadeus nothing is confirmed and nothing is asked.
    When Amadeus is disabled, or no token can be obtained, every single
    confirmation raises without sending a pricing request, and the batch
    confirmation returns the empty list, whatever offers it was given. *)
Theorem confirmation_needs_amadeus (cfg : MultiAPI.Config) (w : World)
    (offers : list Amadeus.FlightOffer) :
  MultiAPI.amadeus_enabled cfg = false \/
  (exists err, MultiAPI.getAmadeusToken cfg w = Throw err) ->
  MultiAPI.confirmMultipleFlightPrices cfg w offers = (Ok [], []) /\
  forall offer,
    snd (MultiAPI.confirmFlightPrice cfg w offer) = [] /\
    exists err, fst (MultiAPI.confirmFlightPrice cfg w offer) = Throw err.
Proof.
  intros H.
  assert (S : forall offer,
             snd (MultiAPI.confirmFlightPrice cfg w offer) = [] /\
             exists err, fst (MultiAPI.confirmFlightPrice cfg w offer) = Throw err).
  { intros offer. unfold MultiAPI.confirmFlightPrice.
    destruct (MultiAPI.amadeus_enabled cfg) eqn:En; cbn [negb];
      [|split; [reflexivity | eexists; reflexivity]].
    destruct H as [H | [err H]]; [discriminate|]. rewrite H.
    cbn [fst snd try_catch]. split; [reflexivity|].
    split_cases; eexists; reflexivity. }
  split; [|exact S].
  rewrite confirmMultipleFlightPrices_unfold. f_equal; [f_equal|].
  - apply flat_map_nil. intros o. unfold annotate.
    destruct (S o) as (_ & err & ->). reflexivity.
  - apply flat_map_nil. intros o. apply S.
Qed.

Lemma confirmation_needs_amadeus_witness :
  MultiAPI.confirmMultipleFlightPrices
    {| MultiAPI.amadeus_enabled := false; MultiAPI.amadeus_key := "";
       MultiAPI.amadeus_secret := ""; MultiAPI.amadeus_env := "test";
       MultiAPI.aviationstack_enabled := false; MultiAPI.aviationstack_key := "";
       MultiAPI.travellink_enabled := true |}
    Examples.allEmpty Examples.sevenOffers = (Ok [], []).
Proof.
  exact (proj1 (confirmation_needs_amadeus
                  {| MultiAPI.amadeus_enabled := false; MultiAPI.amadeus_key := "";
                     MultiAPI.amadeus_secret := ""; MultiAPI.amadeus_env := "test";
                     MultiAPI.aviationstack_enabled := false;
                     MultiAPI.aviationstack_key := "";
                     MultiAPI.travellink_enabled := true |}
                  Examples.allEmpty Examples.sevenOffers (or_introl eq_refl))).
Defined.
